(** * CustomDatasetMapper (mmovod/data/custom_dataset_mapper.py)

    A shallow embedding of the per-sample transformer
    [CustomDatasetMapper] and the properties stated for it.

    The Python code works on a dataset record (a [dict]) that it first
    deep-copies and then mutates in place, together with the annotation
    dictionaries the record refers to.  The embedding therefore keeps an
    explicit store of dictionary objects, addressed by references, and
    runs the method body in a state-and-exception monad over that store.
    Everything that lives in detectron2, numpy or torch is a collaborator:
    it is a field of the interface [Detectron2] below. *)

From Stdlib Require Import ZArith Bool Sorted.
From stdpp Require Import base option list strings gmap fin_maps.

Local Open Scope string_scope.
Local Open Scope list_scope.
Local Open Scope Z_scope.

(** ** Exceptions and results *)

(** The Python exceptions the method can raise.  [LibraryError] stands
    for any exception raised inside a collaborator; [Dangling] is raised
    by the store when a reference has no object behind it, which no
    reference obtained from the store ever does. *)
Inductive exn : Type :=
| NotImplementedError (msg : string)
| AttributeError (attr : string)
| KeyError (key : string)
| IndexError
| TypeError
| AssertionError
| LibraryError (what : string)
| Dangling.

Inductive result (A : Type) : Type :=
| Ok (a : A)
| Err (e : exn).
Arguments Ok {A} a.
Arguments Err {A} e.

Definition is_ok {A} (r : result A) : bool :=
  match r with Ok _ => true | Err _ => false end.

(** ** Python list indexing

    [l[i]] for an integer [i]: non-negative indices count from the
    front, negative ones from the back, anything else is out of range. *)
Definition py_index {A} (l : list A) (i : Z) : result A :=
  let n := Z.of_nat (length l) in
  if (0 <=? i) && (i <? n) then
    match l !! Z.to_nat i with Some x => Ok x | None => Err IndexError end
  else if (- n <=? i) && (i <? 0) then
    match l !! Z.to_nat (n + i) with Some x => Ok x | None => Err IndexError end
  else Err IndexError.

(** ** [sorted(set(xs))] on integers *)
Fixpoint insert_sorted (x : Z) (l : list Z) : list Z :=
  match l with
  | [] => [x]
  | y :: l' => if x <=? y then x :: l else y :: insert_sorted x l'
  end.

Definition py_sorted (l : list Z) : list Z := foldr insert_sorted [] l.

Definition py_set (l : list Z) : list Z := remove_dups l.

Definition sorted_set (l : list Z) : list Z := py_sorted (py_set l).

(** ** The types of the collaborators *)

Class Detectron2Types : Type := {
  ndarray : Type;          (* numpy arrays: decoded images, label maps *)
  pil_image : Type;        (* PIL images read from an archive *)
  tensor : Type;           (* torch tensors *)
  shape : Type;            (* (h, w) *)
  augmentation : Type;     (* one augmentation operator *)
  transform_list : Type;   (* the concrete transform a pipeline returns *)
  TarDataset : Type;       (* the archive-backed image source *)
  payload : Type;          (* geometry and other data the mapper never inspects *)
  box : Type;
  mask : Type;
  keypoints : Type;
  hflip_indices : Type;
}.

(** References into the store. *)
Definition loc : Type := nat.

Section DataModel.
Context `{T : Detectron2Types}.

(** [T.AugmentationList(x)] *)
Definition pipeline : Type := list augmentation.
Definition AugmentationList (x : list augmentation) : pipeline := x.

(** *** Annotations

    An annotation is a [dict]; the mapper looks only at the integer
    [iscrowd] and removes [segmentation] and [keypoints]. *)
Inductive field : Type :=
| FInt (n : Z)
| FData (p : payload).

(** *** Instances

    detectron2's [Instances]: named columns of equal length. *)
Record Instances : Type := mkInstances {
  image_size : shape;
  gt_boxes : option (list box);
  gt_classes : option (list Z);
  gt_masks : option (list mask);
  gt_keypoints : option (list keypoints);
}.

(** *** Dataset records

    A record is a [dict] from keys to values.  A list holds integers,
    strings and references to annotation dictionaries; [[]] is
    [VList []]. *)
Inductive item : Type :=
| IInt (n : Z)
| IStr (s : string)
| IAnno (l : loc).

Inductive value : Type :=
| VInt (n : Z)
| VStr (s : string)
| VList (l : list item)
| VTensor (t : tensor)
| VInstances (i : Instances)
| VData (p : payload).

(** Calls to collaborators that the properties speak about. *)
Inductive event : Type :=
| EvAugment (p : pipeline)                (* a pipeline is applied *)
| EvRemap (a : gmap string field)         (* transform_instance_annotations *)
| EvBuild (l : list (gmap string field)). (* annotations_to_instances *)

(** The store: record dictionaries, annotation dictionaries, and the
    collaborator calls made so far. *)
Record world : Type := mkWorld {
  recs : list (gmap string value);
  anns : list (gmap string field);
  log : list event;
}.

(** *** The base class [DatasetMapper]

    The keyword arguments forwarded to [super().__init__], and the
    attributes the base class leaves on the instance. *)
Record base_kwargs : Type := mkBaseKwargs {
  kw_augmentations : list augmentation;
  kw_image_format : string;
  kw_use_instance_mask : bool;
  kw_use_keypoint : bool;
  kw_instance_mask_format : string;
  kw_keypoint_hflip_indices : option hflip_indices;
  kw_precomputed_proposal_topk : option Z;
  kw_recompute_boxes : bool;
}.

Record DatasetMapper : Type := mkDatasetMapper {
  is_train : bool;
  augmentations : pipeline;
  image_format : string;
  use_instance_mask : bool;
  instance_mask_format : string;
  use_keypoint : bool;
  keypoint_hflip_indices : option hflip_indices;
  proposal_topk : option Z;
  recompute_boxes : bool;
}.

End DataModel.

Abbreviation anno := (gmap string field).
Abbreviation record := (gmap string value).

(** ** The collaborators *)

Class Detectron2 `{T : Detectron2Types} : Type := {
  (* DatasetMapper.__init__(self, is_train, **kwargs) *)
  DatasetMapper_init : bool -> base_kwargs -> result DatasetMapper;
  (* utils.read_image(file_name, format) *)
  read_image : value -> string -> result ndarray;
  (* ndarray.squeeze(2) *)
  squeeze2 : ndarray -> result ndarray;
  (* tar_dataset[tar_index], first component of the triple *)
  tar_getitem : TarDataset -> value -> result pil_image;
  (* utils._apply_exif_orientation *)
  _apply_exif_orientation : pil_image -> result pil_image;
  (* utils.convert_PIL_to_numpy(image, format) *)
  convert_PIL_to_numpy : pil_image -> string -> result ndarray;
  (* utils.check_image_size(dataset_dict, image): the new content of
     the dictionary it is given, or the exception it raises *)
  check_image_size : record -> ndarray -> result record;
  (* pipeline(aug_input): the transform, and the image and sem_seg left
     in aug_input *)
  apply_augmentations :
    pipeline -> ndarray -> option ndarray ->
    result (transform_list * ndarray * option ndarray);
  (* image.shape[:2] *)
  shape2 : ndarray -> shape;
  (* torch.as_tensor(np.ascontiguousarray(image.transpose(2, 0, 1))) *)
  image_to_tensor : ndarray -> result tensor;
  (* torch.as_tensor(sem_seg_gt.astype("long")) *)
  sem_seg_to_tensor : ndarray -> result tensor;
  (* utils.transform_proposals(dataset_dict, image_shape, transforms,
     proposal_topk=k): the new content of the dictionary *)
  transform_proposals :
    record -> shape -> transform_list -> Z -> result record;
  (* utils.transform_instance_annotations(obj, transforms, image_shape,
     keypoint_hflip_indices=h): the new content of obj, which is
     updated in place and returned *)
  transform_instance_annotations :
    anno -> transform_list -> shape -> option hflip_indices -> result anno;
  (* utils.annotations_to_instances(annos, image_shape, mask_format=f) *)
  annotations_to_instances :
    list anno -> shape -> string -> result Instances;
  (* one entry of gt_masks.get_bounding_boxes() *)
  bounding_box : mask -> box;
  (* one entry of gt_boxes.nonempty(threshold=1e-5) *)
  box_nonempty : box -> bool;
  (* one entry of gt_masks.nonempty() *)
  mask_nonempty : mask -> bool;
}.

(** ** The state-and-exception monad

    A computation runs on a store and ends with a value or an exception;
    the changes made to the store before an exception stay. *)
Section Monad.
Context `{T : Detectron2Types}.

Definition M (A : Type) : Type := world -> result A * world.

Definition ret {A} (a : A) : M A := fun w => (Ok a, w).

Definition bind {A B} (m : M A) (f : A -> M B) : M B :=
  fun w => match m w with
           | (Ok a, w') => f a w'
           | (Err e, w') => (Err e, w')
           end.

Definition raise {A} (e : exn) : M A := fun w => (Err e, w).

Definition lift {A} (r : result A) : M A := fun w => (r, w).

Definition emit (ev : event) : M unit :=
  fun w => (Ok tt, mkWorld (recs w) (anns w) (log w ++ [ev])).

End Monad.

Declare Scope monad_scope.
Delimit Scope monad_scope with monad.
Notation "x <- m ;; k" := (bind m (fun x => k))
  (at level 100, m at next level, right associativity) : monad_scope.
Notation "m ;;; k" := (bind m (fun _ => k))
  (at level 100, right associativity) : monad_scope.

(** ** The store *)
Section Store.
Context `{T : Detectron2Types}.
Local Open Scope monad_scope.

(** The content of the record dictionary behind a reference. *)
Definition rec_load (d : loc) : M record :=
  fun w => match recs w !! d with
           | Some r => (Ok r, w)
           | None => (Err Dangling, w)
           end.

(** Overwrite the content of a record dictionary, in place. *)
Definition rec_store (d : loc) (r : record) : M unit :=
  fun w => (Ok tt, mkWorld (<[d := r]> (recs w)) (anns w) (log w)).

Definition ann_load (a : loc) : M anno :=
  fun w => match anns w !! a with
           | Some r => (Ok r, w)
           | None => (Err Dangling, w)
           end.

Definition ann_store (a : loc) (r : anno) : M unit :=
  fun w => (Ok tt, mkWorld (recs w) (<[a := r]> (anns w)) (log w)).

(** [key in d] *)
Definition rec_contains (d : loc) (key : string) : M bool :=
  r <- rec_load d ;; ret (bool_decide (is_Some (r !! key))).

(** [d[key]] *)
Definition rec_getitem (d : loc) (key : string) : M value :=
  r <- rec_load d ;;
  match r !! key with
  | Some v => ret v
  | None => raise (KeyError key)
  end.

(** [d.get(key, default)] *)
Definition rec_get (d : loc) (key : string) (dflt : value) : M value :=
  r <- rec_load d ;; ret (default dflt (r !! key)).

(** [d[key] = v] *)
Definition rec_setitem (d : loc) (key : string) (v : value) : M unit :=
  r <- rec_load d ;; rec_store d (<[key := v]> r).

(** [d.pop(key)] *)
Definition rec_pop (d : loc) (key : string) : M value :=
  r <- rec_load d ;;
  match r !! key with
  | Some v => rec_store d (delete key r) ;;; ret v
  | None => raise (KeyError key)
  end.

(** [d.pop(key, None)], the result dropped *)
Definition rec_pop_default (d : loc) (key : string) : M unit :=
  r <- rec_load d ;; rec_store d (delete key r).

(** [a.pop(key, None)] on an annotation, the result dropped *)
Definition ann_pop_default (a : loc) (key : string) : M unit :=
  r <- ann_load a ;; ann_store a (delete key r).

(** [a.get(key, default)] on an annotation *)
Definition ann_get (a : loc) (key : string) (dflt : field) : M field :=
  r <- ann_load a ;; ret (default dflt (r !! key)).

(** Monadic iteration over a Python list. *)
Fixpoint for_each {A} (f : A -> M unit) (l : list A) : M unit :=
  match l with
  | [] => ret tt
  | x :: l' => f x ;;; for_each f l'
  end.

Fixpoint map_m {A B} (f : A -> M B) (l : list A) : M (list B) :=
  match l with
  | [] => ret []
  | x :: l' => y <- f x ;; ys <- map_m f l' ;; ret (y :: ys)
  end.

End Store.

(** ** [copy.deepcopy] of a dataset record

    The copy is a new record dictionary; every annotation dictionary the
    record refers to is copied once, however often it is referred to
    (deepcopy keeps a memo), and the references in the copy point to the
    copies. *)
Section DeepCopy.
Context `{T : Detectron2Types}.

Definition item_refs (i : item) : list loc :=
  match i with IAnno l => [l] | _ => [] end.

Definition value_refs (v : value) : list loc :=
  match v with VList l => l ≫= item_refs | _ => [] end.

Definition record_refs (r : record) : list loc :=
  remove_dups ((map_to_list r).*2 ≫= value_refs).

Fixpoint index_of (x : loc) (l : list loc) : nat :=
  match l with
  | [] => 0%nat
  | y :: l' => if decide (x = y) then 0%nat else S (index_of x l')
  end.

(** The memo: where the copy of annotation [a] is put, the copies being
    allocated from [start] on in the order of [refs]. *)
Definition memo (start : nat) (refs : list loc) (a : loc) : loc :=
  (start + index_of a refs)%nat.

Definition rename_item (σ : loc -> loc) (i : item) : item :=
  match i with IAnno l => IAnno (σ l) | _ => i end.

Definition rename_value (σ : loc -> loc) (v : value) : value :=
  match v with VList l => VList (rename_item σ <$> l) | _ => v end.

Definition deepcopy (d : loc) : M loc :=
  fun w =>
    match recs w !! d with
    | None => (Err Dangling, w)
    | Some r =>
        let refs := record_refs r in
        match mapM (fun a => anns w !! a) refs with
        | None => (Err Dangling, w)
        | Some copies =>
            let σ := memo (length (anns w)) refs in
            (Ok (length (recs w)),
             mkWorld (recs w ++ [rename_value σ <$> r])
                     (anns w ++ copies) (log w))
        end
    end.

End DeepCopy.

(** ** Operations on [Instances] *)

Global Instance result_ret : MRet result := fun _ a => Ok a.
Global Instance result_bind : MBind result :=
  fun _ _ f r => match r with Ok a => f a | Err e => Err e end.

Section InstancesOps.
Context `{D : Detectron2}.

(** Indexing a column with a boolean mask. *)
Fixpoint select {A} (keep : list bool) (xs : list A) : list A :=
  match keep, xs with
  | k :: keep', x :: xs' =>
      if k then x :: select keep' xs' else select keep' xs'
  | _, _ => []
  end.

Definition index_column {A} (keep : list bool) (c : option (list A))
  : result (option (list A)) :=
  match c with
  | None => Ok None
  | Some xs =>
      if decide (length keep = length xs) then Ok (Some (select keep xs))
      else Err IndexError
  end.

(** [instances[keep]]: every column is indexed with the same mask. *)
Definition instances_getitem (inst : Instances) (keep : list bool)
  : result Instances :=
  bs ← index_column keep (gt_boxes inst);
  cs ← index_column keep (gt_classes inst);
  ms ← index_column keep (gt_masks inst);
  ks ← index_column keep (gt_keypoints inst);
  Ok (mkInstances (image_size inst) bs cs ms ks).

(** [len(instances)]: the length of the first column there is. *)
Definition instances_len (inst : Instances) : option nat :=
  match gt_boxes inst, gt_classes inst, gt_masks inst, gt_keypoints inst with
  | Some c, _, _, _ => Some (length c)
  | None, Some c, _, _ => Some (length c)
  | None, None, Some c, _ => Some (length c)
  | None, None, None, Some c => Some (length c)
  | None, None, None, None => None
  end.

(** [instances.gt_boxes = bs]: a column must be as long as the others. *)
Definition set_gt_boxes (inst : Instances) (bs : list box) : result Instances :=
  let inst' := mkInstances (image_size inst) (Some bs) (gt_classes inst)
                           (gt_masks inst) (gt_keypoints inst) in
  match instances_len inst with
  | None => Ok inst'
  | Some n => if decide (n = length bs) then Ok inst' else Err AssertionError
  end.

(** [masks.get_bounding_boxes()] *)
Definition get_bounding_boxes (ms : list mask) : list box := bounding_box <$> ms.

(** [a & b] on boolean tensors *)
Definition tensor_and (a b : list bool) : result (list bool) :=
  if decide (length a = length b) then Ok (zip_with andb a b)
  else Err (LibraryError "shape mismatch").

(** Modelled from the spec: [utils.filter_empty_instances] belongs to
    detectron2 and is not in the source; it filters out degenerate
    instances (zero-area boxes / empty masks).  An instance is kept when
    its box is non-empty and, if there is a mask column, its mask is
    non-empty; the collection is then indexed with that mask. *)
Definition filter_empty_instances (inst : Instances) : result Instances :=
  match gt_boxes inst with
  | None => Err (AttributeError "gt_boxes")
  | Some bs =>
      let r0 := box_nonempty <$> bs in
      match gt_masks inst with
      | None => instances_getitem inst r0
      | Some ms =>
          m ← tensor_and r0 (mask_nonempty <$> ms);
          instances_getitem inst m
      end
  end.

End InstancesOps.

(** ** The mapper *)
Section Mapper.
Context `{D : Detectron2}.
Local Open Scope monad_scope.

(** The attributes of an instance.  [dataset_augs] is assigned only
    under [use_diff_bs_size and is_train]; [tar_dataset] is read by
    [__call__] and assigned nowhere in the class. *)
Record CustomDatasetMapper : Type := mkMapper {
  base :> DatasetMapper;
  with_ann_type : bool;
  dataset_ann : list string;
  use_diff_bs_size : bool;
  dataset_augs : option (list pipeline);
  is_debug : bool;
  use_tar_dataset : bool;
  tar_dataset : option TarDataset;
}.

(** The arguments of [__init__]. *)
Record init_args : Type := mkInitArgs {
  arg_is_train : bool;
  arg_with_ann_type : bool;
  arg_dataset_ann : list string;
  arg_use_diff_bs_size : bool;
  arg_dataset_augs : list (list augmentation);
  arg_is_debug : bool;
  arg_use_tar_dataset : bool;
  arg_tarfile_path : string;
  arg_tar_index_dir : string;
  arg_kwargs : base_kwargs;
}.

(** [CustomDatasetMapper.__init__] *)
Definition init (a : init_args) : result CustomDatasetMapper :=
  let augs :=
    if arg_use_diff_bs_size a && arg_is_train a
    then Some (AugmentationList <$> arg_dataset_augs a) else None in
  if arg_use_tar_dataset a then
    Err (NotImplementedError "Using tar dataset not supported")
  else
    b ← DatasetMapper_init (arg_is_train a) (arg_kwargs a);
    Ok (mkMapper b (arg_with_ann_type a) (arg_dataset_ann a)
                 (arg_use_diff_bs_size a) augs (arg_is_debug a)
                 (arg_use_tar_dataset a) None).

(** [l[v]] for a Python value [v]. *)
Definition py_getitem {A} (l : list A) (v : value) : result A :=
  match v with
  | VInt i => py_index l i
  | _ => Err TypeError
  end.

(** [for x in v]: lists give their items and strings their characters;
    integers are not iterable, and tensors, instance collections and
    payloads are taken not to be. *)
Definition iterate (v : value) : result (list item) :=
  match v with
  | VList l => Ok l
  | VStr s => Ok ((fun c => IStr (String c EmptyString)) <$> String.list_ascii_of_string s)
  | _ => Err TypeError
  end.

(** [v == []] *)
Definition is_empty_list (v : value) : bool :=
  match v with VList [] => true | _ => false end.

(** [f == 0] for the [iscrowd] flag *)
Definition is_zero (f : field) : bool :=
  match f with FInt n => n =? 0 | FData _ => false end.

(** Lines 87-94: resolve the image and check its size. *)
Definition load_image (self : CustomDatasetMapper) (dataset_dict : loc)
  : M ndarray :=
  has <- rec_contains dataset_dict "file_name" ;;
  ori_image <-
    (if has then
       fn <- rec_getitem dataset_dict "file_name" ;;
       lift (read_image fn (image_format self))
     else
       match tar_dataset self with
       | None => raise (AttributeError "tar_dataset")
       | Some td =>
           idx <- rec_getitem dataset_dict "tar_index" ;;
           img <- lift (tar_getitem td idx) ;;
           img <- lift (_apply_exif_orientation img) ;;
           lift (convert_PIL_to_numpy img (image_format self))
       end) ;;
  r <- rec_load dataset_dict ;;
  r' <- lift (check_image_size r ori_image) ;;
  rec_store dataset_dict r' ;;;
  ret ori_image.

(** Lines 97-101: the semantic-segmentation label map, if any. *)
Definition load_sem_seg (dataset_dict : loc) : M (option ndarray) :=
  has <- rec_contains dataset_dict "sem_seg_file_name" ;;
  if has then
    fn <- rec_pop dataset_dict "sem_seg_file_name" ;;
    img <- lift (read_image fn "L") ;;
    img <- lift (squeeze2 img) ;;
    ret (Some img)
  else ret None.

(** Lines 103-104 *)
Definition force_debug_source (self : CustomDatasetMapper) (dataset_dict : loc)
  : M unit :=
  if is_debug self then rec_setitem dataset_dict "dataset_source" (VInt 0)
  else ret tt.

(** Lines 106-108; [and] evaluates its operands from left to right and
    stops at the first false one. *)
Definition not_full_labeled (self : CustomDatasetMapper) (dataset_dict : loc)
  : M bool :=
  has <- rec_contains dataset_dict "dataset_source" ;;
  if has then
    if with_ann_type self then
      src <- rec_getitem dataset_dict "dataset_source" ;;
      t <- lift (py_getitem (dataset_ann self) src) ;;
      ret (negb (String.eqb t "box"))
    else ret false
  else ret false.

(** A pipeline applied to the image and the label map. *)
Definition run_pipeline (p : pipeline) (img : ndarray) (sem : option ndarray)
  : M (transform_list * ndarray * option ndarray) :=
  emit (EvAugment p) ;;;
  lift (apply_augmentations p img sem).

(** Lines 110-116: select the pipeline and apply it. *)
Definition augment (self : CustomDatasetMapper) (dataset_dict : loc)
    (ori_image : ndarray) (sem_seg_gt : option ndarray)
  : M (transform_list * ndarray * option ndarray) :=
  if use_diff_bs_size self && is_train self then
    match dataset_augs self with
    | None => raise (AttributeError "dataset_augs")
    | Some augs =>
        src <- rec_getitem dataset_dict "dataset_source" ;;
        p <- lift (py_getitem augs src) ;;
        run_pipeline p ori_image sem_seg_gt
    end
  else run_pipeline (augmentations self) ori_image sem_seg_gt.

(** Lines 118-131: the image, the label map and the proposals. *)
Definition assemble (self : CustomDatasetMapper) (dataset_dict : loc)
    (transforms : transform_list) (image : ndarray)
    (sem_seg_gt : option ndarray) : M unit :=
  t <- lift (image_to_tensor image) ;;
  rec_setitem dataset_dict "image" (VTensor t) ;;;
  match sem_seg_gt with
  | Some s =>
      t <- lift (sem_seg_to_tensor s) ;;
      rec_setitem dataset_dict "sem_seg" (VTensor t)
  | None => ret tt
  end ;;;
  match proposal_topk self with
  | Some k =>
      r <- rec_load dataset_dict ;;
      r' <- lift (transform_proposals r (shape2 image) transforms k) ;;
      rec_store dataset_dict r'
  | None => ret tt
  end.

(** Lines 141-145, the body of the loop. *)
Definition strip_unused (self : CustomDatasetMapper) (anno : item) : M unit :=
  (if negb (use_instance_mask self) then
     match anno with
     | IAnno a => ann_pop_default a "segmentation"
     | _ => raise (AttributeError "pop")
     end
   else ret tt) ;;;
  (if negb (use_keypoint self) then
     match anno with
     | IAnno a => ann_pop_default a "keypoints"
     | _ => raise (AttributeError "pop")
     end
   else ret tt).

(** Lines 149-152, one element of [all_annos]: the annotation is
    remapped in place, then its [iscrowd] is read. *)
Definition remap_one (self : CustomDatasetMapper) (transforms : transform_list)
    (image_shape : shape) (obj : item) : M (loc * field) :=
  match obj with
  | IAnno a =>
      r <- ann_load a ;;
      emit (EvRemap r) ;;;
      r' <- lift (transform_instance_annotations
                    r transforms image_shape (keypoint_hflip_indices self)) ;;
      ann_store a r' ;;;
      crowd <- ann_get a "iscrowd" (FInt 0) ;;
      ret (a, crowd)
  | _ => raise TypeError
  end.

(** Lines 161-162: [instances.gt_boxes =
    instances.gt_masks.get_bounding_boxes()] when boxes are recomputed. *)
Definition recompute_gt_boxes (self : CustomDatasetMapper)
    (instances : Instances) : result Instances :=
  if recompute_boxes self then
    match gt_masks instances with
    | None => Err (AttributeError "gt_masks")
    | Some ms => set_gt_boxes instances (get_bounding_boxes ms)
    end
  else Ok instances.

(** Lines 139-163: the instance collection. *)
Definition build_instances (self : CustomDatasetMapper) (dataset_dict : loc)
    (transforms : transform_list) (image_shape : shape) : M unit :=
  has <- rec_contains dataset_dict "annotations" ;;
  if has then
    v <- rec_getitem dataset_dict "annotations" ;;
    l <- lift (iterate v) ;;
    for_each (strip_unused self) l ;;;
    v <- rec_pop dataset_dict "annotations" ;;
    l <- lift (iterate v) ;;
    all_annos <- map_m (remap_one self transforms image_shape) l ;;
    let annos := (filter (fun ann => is_zero ann.2 = true) all_annos).*1 in
    objs <- map_m ann_load annos ;;
    emit (EvBuild objs) ;;;
    instances <- lift (annotations_to_instances
                         objs image_shape (instance_mask_format self)) ;;
    instances <- lift (recompute_gt_boxes self instances) ;;
    instances <- lift (filter_empty_instances instances) ;;
    rec_setitem dataset_dict "instances" (VInstances instances)
  else ret tt.

(** Lines 164-168 *)
Definition attach_ann_type (self : CustomDatasetMapper) (dataset_dict : loc)
  : M unit :=
  if with_ann_type self then
    ids <- rec_get dataset_dict "pos_category_ids" (VList []) ;;
    rec_setitem dataset_dict "pos_category_ids" ids ;;;
    src <- rec_getitem dataset_dict "dataset_source" ;;
    t <- lift (py_getitem (dataset_ann self) src) ;;
    rec_setitem dataset_dict "ann_type" (VStr t)
  else ret tt.

(** Lines 169-173 *)
Definition debug_pos_category_ids (self : CustomDatasetMapper)
    (dataset_dict : loc) : M unit :=
  if is_debug self then
    has <- rec_contains dataset_dict "pos_category_ids" ;;
    empty <- (if negb has then ret true
              else v <- rec_getitem dataset_dict "pos_category_ids" ;;
                   ret (is_empty_list v)) ;;
    if empty then
      v <- rec_getitem dataset_dict "instances" ;;
      match v with
      | VInstances inst =>
          match gt_classes inst with
          | Some cs =>
              rec_setitem dataset_dict "pos_category_ids"
                          (VList (IInt <$> sorted_set cs))
          | None => raise (AttributeError "gt_classes")
          end
      | _ => raise (AttributeError "gt_classes")
      end
    else ret tt
  else ret tt.

(** [CustomDatasetMapper.__call__]: the reference of the output record. *)
Definition call (self : CustomDatasetMapper) (dataset_dict : loc) : M loc :=
  dataset_dict <- deepcopy dataset_dict ;;
  ori_image <- load_image self dataset_dict ;;
  sem_seg_gt <- load_sem_seg dataset_dict ;;
  force_debug_source self dataset_dict ;;;
  _ <- not_full_labeled self dataset_dict ;;
  aug <- augment self dataset_dict ori_image sem_seg_gt ;;
  let transforms := aug.1.1 in
  let image := aug.1.2 in
  let sem_seg_gt := aug.2 in
  let image_shape := shape2 image in
  assemble self dataset_dict transforms image sem_seg_gt ;;;
  if negb (is_train self) then
    rec_pop_default dataset_dict "annotations" ;;;
    rec_pop_default dataset_dict "sem_seg_file_name" ;;;
    ret dataset_dict
  else
    build_instances self dataset_dict transforms image_shape ;;;
    attach_ann_type self dataset_dict ;;;
    debug_pos_category_ids self dataset_dict ;;;
    ret dataset_dict.

End Mapper.

(** ** Construction from a configuration *)

(** The types of the configuration values that [from_config] hands on
    without looking at them. *)
Class ConfigTypes : Type := {
  cfg_base : Type;      (* what the base class and the builder read *)
  scale_t : Type;
  size_t : Type;
  min_size_t : Type;
  max_size_t : Type;
}.

Section Config.
Context `{T : Detectron2Types} `{C : ConfigTypes}.

(** The configuration: the fields [from_config] reads. *)
Record CfgNode : Type := mkCfg {
  cfg_rest : cfg_base;
  WITH_IMAGE_LABELS : bool;
  IS_DEBUG : bool;
  INPUT_CUSTOM_AUG : string;
  DATALOADER_DATASET_ANN : list string;
  DATALOADER_USE_DIFF_BS_SIZE : bool;
  DATALOADER_USE_TAR_DATASET : bool;
  DATALOADER_TARFILE_PATH : string;
  DATALOADER_TAR_INDEX_DIR : string;
  DATALOADER_DATASET_INPUT_SCALE : list scale_t;
  DATALOADER_DATASET_INPUT_SIZE : list size_t;
  DATALOADER_DATASET_MIN_SIZES : list min_size_t;
  DATALOADER_DATASET_MAX_SIZES : list max_size_t;
}.

(** The keyword arguments of [build_custom_augmentation]:
    [(scale, size)] or [(min_size=, max_size=)]. *)
Inductive aug_request : Type :=
| ScaleSize (scale : scale_t) (size : size_t)
| MinMaxSize (min_size : min_size_t) (max_size : max_size_t).

End Config.

Class ConfigCollaborators `{T : Detectron2Types} `{C : ConfigTypes} : Type := {
  (* super().from_config(cfg, is_train): the entries ['is_train'] and the
     keyword arguments of the base class *)
  DatasetMapper_from_config : CfgNode -> bool -> result (bool * base_kwargs);
  (* build_custom_augmentation(cfg, is_train, ...), of the module
     custom_build_augmentation *)
  build_custom_augmentation :
    CfgNode -> bool -> aug_request -> result (list augmentation);
}.

Section FromConfig.
Context `{D : Detectron2} `{C : ConfigTypes} `{!ConfigCollaborators}.

(** A list comprehension whose element expression may raise. *)
Fixpoint map_result {A B} (f : A -> result B) (l : list A) : result (list B) :=
  match l with
  | [] => Ok []
  | x :: l' => y ← f x; ys ← map_result f l'; Ok (y :: ys)
  end.

(** [CustomDatasetMapper.from_config]: the dictionary [ret], whose keys
    are the parameters of [__init__]. *)
Definition from_config (cfg : CfgNode) (is_train : bool) : result init_args :=
  ret ← DatasetMapper_from_config cfg is_train;
  let use_diff_bs_size := DATALOADER_USE_DIFF_BS_SIZE cfg in
  dataset_augs ←
    (if use_diff_bs_size && is_train then
       if String.eqb (INPUT_CUSTOM_AUG cfg) "EfficientDetResizeCrop" then
         let dataset_scales := DATALOADER_DATASET_INPUT_SCALE cfg in
         let dataset_sizes := DATALOADER_DATASET_INPUT_SIZE cfg in
         map_result
           (fun p => build_custom_augmentation cfg true (ScaleSize p.1 p.2))
           (zip dataset_scales dataset_sizes)
       else if String.eqb (INPUT_CUSTOM_AUG cfg) "ResizeShortestEdge" then
         let min_sizes := DATALOADER_DATASET_MIN_SIZES cfg in
         let max_sizes := DATALOADER_DATASET_MAX_SIZES cfg in
         map_result
           (fun p => build_custom_augmentation cfg true (MinMaxSize p.1 p.2))
           (zip min_sizes max_sizes)
       else Err AssertionError
     else Ok []);
  Ok (mkInitArgs ret.1 (WITH_IMAGE_LABELS cfg) (DATALOADER_DATASET_ANN cfg)
                 use_diff_bs_size dataset_augs (IS_DEBUG cfg)
                 (DATALOADER_USE_TAR_DATASET cfg)
                 (DATALOADER_TARFILE_PATH cfg)
                 (DATALOADER_TAR_INDEX_DIR cfg) ret.2).

(** [CustomDatasetMapper(cfg, is_train)]: under [@configurable] the
    instance is built by [__init__] on the entries of
    [from_config(cfg, is_train)]. *)
Definition configurable_init (cfg : CfgNode) (is_train : bool)
  : result CustomDatasetMapper :=
  a ← from_config cfg is_train; init a.

End FromConfig.

(** ** What is assumed of the collaborators

    [check_image_size] and [transform_proposals] are handed the record
    dictionary and update it; each touches only keys of its own.
    [transform_instance_annotations] rewrites the geometry of an
    annotation and leaves its [iscrowd] flag alone. *)
Definition proposal_keys : list string :=
  ["proposal_boxes"; "proposal_objectness_logits"; "proposal_bbox_mode";
   "proposals"].

Class Detectron2Laws `{D : Detectron2} : Prop := {
  check_image_size_frame :
    forall (r r' : record) img (k : string),
      check_image_size r img = Ok r' ->
      k ≠ "width" -> k ≠ "height" -> r' !! k = r !! k;
  transform_proposals_frame :
    forall (r r' : record) s t n (k : string),
      transform_proposals r s t n = Ok r' ->
      k ∉ proposal_keys -> r' !! k = r !! k;
  transform_keeps_iscrowd :
    forall (a a' : anno) t s h,
      transform_instance_annotations a t s h = Ok a' ->
      a' !! "iscrowd" = a !! "iscrowd";
}.

(** The pipelines applied, in order, among a list of events. *)
Definition applied_pipelines `{T : Detectron2Types} (evs : list event)
  : list pipeline :=
  omap (fun ev => match ev with EvAugment p => Some p | _ => None end) evs.

(** The annotation-processing events among a list of events. *)
Definition is_augment `{T : Detectron2Types} (ev : event) : bool :=
  match ev with EvAugment _ => true | _ => false end.

Definition annotation_events `{T : Detectron2Types} (evs : list event)
  : list event :=
  filter (fun ev => is_augment ev = false) evs.

(** * Reasoning about computations *)

Section Exec.
Context `{T : Detectron2Types}.

Lemma bind_inv {A B} (m : M A) (f : A -> M B) w res w' :
  bind m f w = (res, w') ->
  (exists a w1, m w = (Ok a, w1) /\ f a w1 = (res, w')) \/
  (exists e, m w = (Err e, w') /\ res = Err e).
Proof.
  unfold bind. destruct (m w) as [[a|e] w1]; intros H.
  - left. eauto.
  - right. exists e. inversion H; subst. auto.
Qed.

Lemma bind_ok_inv {A B} (m : M A) (f : A -> M B) w b w' :
  bind m f w = (Ok b, w') ->
  exists a w1, m w = (Ok a, w1) /\ f a w1 = (Ok b, w').
Proof.
  intros H. apply bind_inv in H as [H | (e & _ & H)]; [done | discriminate].
Qed.

(** The world in which the working record [d] holds [r], the annotation
    store is [a] and the events [e] were added, everything else being as
    in [w0]. *)
Definition st (w0 : world) (d : loc) (r : record) (a : list anno)
    (e : list event) : world :=
  mkWorld (<[d := r]> (recs w0)) a (log w0 ++ e).

Lemma st_id w d r : recs w !! d = Some r -> st w d r (anns w) [] = w.
Proof.
  intros H. unfold st. rewrite list_insert_id by done.
  rewrite app_nil_r. by destruct w.
Qed.

Lemma recs_st w0 d r a e :
  (d < length (recs w0))%nat -> recs (st w0 d r a e) !! d = Some r.
Proof. intros H. simpl. by apply list_lookup_insert_eq. Qed.

Lemma recs_st_ne w0 d r a e l :
  l ≠ d -> recs (st w0 d r a e) !! l = recs w0 !! l.
Proof. intros H. simpl. by apply list_lookup_insert_ne. Qed.

Section Prims.
Variables (w0 : world) (d : loc).
Hypothesis Hd : (d < length (recs w0))%nat.

Lemma rec_load_st r a e :
  rec_load d (st w0 d r a e) = (Ok r, st w0 d r a e).
Proof. unfold rec_load. by rewrite recs_st. Qed.

Lemma rec_store_st r r' a e :
  rec_store d r' (st w0 d r a e) = (Ok tt, st w0 d r' a e).
Proof. unfold rec_store, st. simpl. by rewrite list_insert_insert_eq. Qed.

Lemma emit_st ev r a e :
  emit ev (st w0 d r a e) = (Ok tt, st w0 d r a (e ++ [ev])).
Proof. unfold emit, st. simpl. by rewrite app_assoc. Qed.

Lemma ann_load_st l r a e :
  ann_load l (st w0 d r a e) =
  (match a !! l with Some x => Ok x | None => Err Dangling end,
   st w0 d r a e).
Proof. unfold ann_load. simpl. by destruct (a !! l). Qed.

Lemma ann_store_st l x r a e :
  ann_store l x (st w0 d r a e) = (Ok tt, st w0 d r (<[l := x]> a) e).
Proof. done. Qed.

Lemma rec_contains_st k r a e :
  rec_contains d k (st w0 d r a e) =
  (Ok (bool_decide (is_Some (r !! k))), st w0 d r a e).
Proof. unfold rec_contains, bind. by rewrite rec_load_st. Qed.

Lemma rec_getitem_st k r a e :
  rec_getitem d k (st w0 d r a e) =
  (match r !! k with Some v => Ok v | None => Err (KeyError k) end,
   st w0 d r a e).
Proof. unfold rec_getitem, bind. rewrite rec_load_st. by destruct (r !! k). Qed.

Lemma rec_get_st k v r a e :
  rec_get d k v (st w0 d r a e) = (Ok (default v (r !! k)), st w0 d r a e).
Proof. unfold rec_get, bind. by rewrite rec_load_st. Qed.

Lemma rec_setitem_st k v r a e :
  rec_setitem d k v (st w0 d r a e) = (Ok tt, st w0 d (<[k := v]> r) a e).
Proof. unfold rec_setitem, bind. by rewrite rec_load_st, rec_store_st. Qed.

Lemma rec_pop_st k r a e :
  rec_pop d k (st w0 d r a e) =
  match r !! k with
  | Some v => (Ok v, st w0 d (delete k r) a e)
  | None => (Err (KeyError k), st w0 d r a e)
  end.
Proof.
  unfold rec_pop, bind. rewrite rec_load_st.
  destruct (r !! k); [by rewrite rec_store_st | done].
Qed.

Lemma rec_pop_default_st k r a e :
  rec_pop_default d k (st w0 d r a e) = (Ok tt, st w0 d (delete k r) a e).
Proof. unfold rec_pop_default, bind. by rewrite rec_load_st, rec_store_st. Qed.

Lemma ann_pop_default_st l k r a e :
  ann_pop_default l k (st w0 d r a e) =
  match a !! l with
  | Some x => (Ok tt, st w0 d r (<[l := delete k x]> a) e)
  | None => (Err Dangling, st w0 d r a e)
  end.
Proof.
  unfold ann_pop_default, bind. rewrite ann_load_st.
  by destruct (a !! l).
Qed.

Lemma ann_get_st l k v r a e :
  ann_get l k v (st w0 d r a e) =
  match a !! l with
  | Some x => (Ok (default v (x !! k)), st w0 d r a e)
  | None => (Err Dangling, st w0 d r a e)
  end.
Proof. unfold ann_get, bind. rewrite ann_load_st. by destruct (a !! l). Qed.

End Prims.
End Exec.

(** Symbolic execution of a computation in a hypothesis, from a world of
    the form [st w0 d r a e]. *)
Ltac mred H :=
  unfold bind, ret, raise, lift in H; cbv beta iota zeta in H;
  cbn [negb andb orb fst snd] in H.

Ltac mprim H :=
  first
    [ rewrite rec_contains_st in H by assumption
    | rewrite rec_getitem_st in H by assumption
    | rewrite rec_get_st in H by assumption
    | rewrite rec_setitem_st in H by assumption
    | rewrite rec_pop_st in H by assumption
    | rewrite rec_pop_default_st in H by assumption
    | rewrite rec_load_st in H by assumption
    | rewrite rec_store_st in H by assumption
    | rewrite emit_st in H
    | rewrite ann_pop_default_st in H
    | rewrite ann_get_st in H
    | rewrite ann_load_st in H
    | rewrite ann_store_st in H ].

Ltac mexec H := repeat (first [ mprim H | progress mred H ]).

Ltac mdone H := cbv beta iota zeta in H; inversion H; subst; clear H.

(** * The phases of [__call__] *)

Section Phases.
Context `{L : Detectron2Laws}.
Variables (self : CustomDatasetMapper) (w0 : world) (d : loc).
Hypothesis Hd : (d < length (recs w0))%nat.

(** Image loading touches only the keys of [check_image_size]; without
    a [file_name] and without a [tar_dataset] attribute it raises. *)
Lemma load_image_st r a e res w' :
  load_image self d (st w0 d r a e) = (res, w') ->
  exists r',
    w' = st w0 d r' a e /\
    (forall k, k ≠ "width" -> k ≠ "height" -> r' !! k = r !! k) /\
    (r !! "file_name" = None -> tar_dataset self = None ->
     res = Err (AttributeError "tar_dataset") /\ r' = r).
Proof.
  unfold load_image. intros H. mexec H.
  assert (Hchk : forall img,
    match check_image_size r img with
    | Ok r' => (Ok img, st w0 d r' a e)
    | Err e0 => (Err e0, st w0 d r a e)
    end = (res, w') ->
    exists r', w' = st w0 d r' a e /\
      (forall k, k ≠ "width" -> k ≠ "height" -> r' !! k = r !! k)).
  { intros img Hc. destruct (check_image_size r img) as [r'|] eqn:Ec; mdone Hc.
    - exists r'. split; [done|]. intros k ? ?.
      by eapply check_image_size_frame.
    - by exists r. }
  case_bool_decide as Hk.
  - mexec H. destruct Hk as [v Hk]. rewrite Hk in H. mexec H.
    destruct (read_image v (image_format self)) as [img|] eqn:Ei; mexec H.
    + destruct (Hchk img) as (r' & -> & Hf).
      { destruct (check_image_size r img); mexec H; done. }
      exists r'. split_and!; [done|done|]. intros Hn. congruence.
    + mdone H. exists r. split_and!; [done|done|]. intros Hn. congruence.
  - destruct (tar_dataset self) as [td|] eqn:Et; mexec H.
    + destruct (r !! "tar_index") as [idx|]; mexec H.
      2:{ mdone H. exists r. split_and!; done. }
      destruct (tar_getitem td idx) as [p|]; mexec H.
      2:{ mdone H. exists r. split_and!; done. }
      destruct (_apply_exif_orientation p) as [p'|]; mexec H.
      2:{ mdone H. exists r. split_and!; done. }
      destruct (convert_PIL_to_numpy p' (image_format self)) as [img|]; mexec H.
      2:{ mdone H. exists r. split_and!; done. }
      destruct (Hchk img) as (r' & -> & Hf).
      { destruct (check_image_size r img); mexec H; done. }
      exists r'. split_and!; done.
    + mdone H. exists r. split_and!; done.
Qed.

(** The label-map source key is gone afterwards, whatever happens. *)
Lemma load_sem_seg_st r a e res w' :
  load_sem_seg d (st w0 d r a e) = (res, w') ->
  w' = st w0 d (delete "sem_seg_file_name" r) a e.
Proof.
  unfold load_sem_seg. intros H. mexec H.
  case_bool_decide as Hk.
  - mexec H. destruct Hk as [v Hk]. rewrite Hk in H. mexec H.
    destruct (read_image v "L") as [img|]; mexec H; [|by mdone H].
    destruct (squeeze2 img); mexec H; by mdone H.
  - mexec H. mdone H. rewrite delete_id; [done|].
    by apply eq_None_not_Some.
Qed.

Lemma force_debug_source_st r a e :
  force_debug_source self d (st w0 d r a e) =
  (Ok tt,
   st w0 d (if is_debug self then <["dataset_source" := VInt 0]> r else r) a e).
Proof.
  unfold force_debug_source. destruct (is_debug self); [|done].
  by rewrite rec_setitem_st.
Qed.

(** [not_full_labeled] only reads. *)
Lemma not_full_labeled_world w res w' :
  not_full_labeled self d w = (res, w') -> w' = w.
Proof.
  unfold not_full_labeled, rec_contains, rec_getitem, rec_load.
  intros H. mred H.
  destruct (recs w !! d) as [r|]; [|by mdone H].
  mred H.
  destruct (bool_decide (is_Some (r !! "dataset_source"))); [|by mdone H].
  destruct (with_ann_type self); [|by mdone H].
  mred H. destruct (recs w !! d) as [r1|]; [|by mdone H].
  mred H. destruct (r1 !! "dataset_source") as [v|]; [|by mdone H].
  mred H. destruct (py_getitem (dataset_ann self) v); by mdone H.
Qed.

(** The pipeline that lines 111-115 select for a record. *)
Definition selected (r : record) (p : pipeline) : Prop :=
  if use_diff_bs_size self && is_train self then
    exists augs src,
      dataset_augs self = Some augs /\
      r !! "dataset_source" = Some src /\
      py_getitem augs src = Ok p
  else p = augmentations self.

Lemma augment_st r a e img sem res w' :
  augment self d img sem (st w0 d r a e) = (res, w') ->
  exists evs,
    w' = st w0 d r a (e ++ evs) /\
    (evs = [] \/ exists p, evs = [EvAugment p] /\ selected r p) /\
    (is_ok res = true ->
     exists p, evs = [EvAugment p] /\ selected r p /\
               apply_augmentations p img sem = res) /\
    (use_diff_bs_size self && is_train self = true ->
     is_Some (dataset_augs self) ->
     r !! "dataset_source" = None ->
     res = Err (KeyError "dataset_source") /\ evs = []).
Proof.
  unfold augment, run_pipeline, selected. intros H.
  destruct (use_diff_bs_size self && is_train self) eqn:Eb.
  - destruct (dataset_augs self) as [augs|] eqn:Ea.
    2:{ mdone H. exists []. rewrite app_nil_r. split_and!; try done; auto. }
    mexec H. destruct (r !! "dataset_source") as [src|] eqn:Es; mexec H.
    2:{ mdone H. exists []. rewrite app_nil_r. split_and!; try done; auto. }
    destruct (py_getitem augs src) as [p|] eqn:Ep; mexec H.
    2:{ mdone H. exists []. rewrite app_nil_r. split_and!; try done; auto. }
    mdone H. exists [EvAugment p]. split_and!; try done.
    + right. exists p. split; [done|]. by exists augs, src.
    + intros _. exists p. split_and!; try done. by exists augs, src.
  - mexec H. mdone H. exists [EvAugment (augmentations self)].
    split_and!; try done.
    + right. by exists (augmentations self).
    + intros _. by exists (augmentations self).
Qed.

(** Assembling the output touches the image, the label map and the
    proposal keys. *)
Definition assembled_keys : list string :=
  ["image"; "sem_seg"] ++ proposal_keys.

Lemma assemble_st r a e tf img sem res w' :
  assemble self d tf img sem (st w0 d r a e) = (res, w') ->
  exists r',
    w' = st w0 d r' a e /\
    (forall k, k ∉ assembled_keys -> r' !! k = r !! k).
Proof.
  unfold assemble. intros H.
  destruct (image_to_tensor img) as [t|]; mexec H.
  2:{ mdone H. by exists r. }
  set (r1 := <["image" := VTensor t]> r) in *.
  assert (H1 : forall k, k ∉ assembled_keys -> r1 !! k = r !! k).
  { intros k Hk. unfold r1. rewrite lookup_insert_ne; [done|].
    intros <-. apply Hk. unfold assembled_keys. set_solver. }
  assert (Hprop : forall r2,
    (forall k, k ∉ assembled_keys -> r2 !! k = r !! k) ->
    match proposal_topk self with
    | Some k =>
        (r3 <- rec_load d;;
         r' <- lift (transform_proposals r3 (shape2 img) tf k);;
         rec_store d r')%monad
    | None => ret tt
    end (st w0 d r2 a e) = (res, w') ->
    exists r', w' = st w0 d r' a e /\
      (forall k, k ∉ assembled_keys -> r' !! k = r !! k)).
  { intros r2 H2 Hp. destruct (proposal_topk self) as [n|]; mexec Hp.
    2:{ mdone Hp. by exists r2. }
    destruct (transform_proposals r2 (shape2 img) tf n) as [r3|] eqn:Et;
      mexec Hp; mdone Hp.
    2:{ by exists r2. }
    exists r3. split; [done|]. intros k Hk. rewrite <- H2 by done.
    eapply transform_proposals_frame; [done|].
    intros Hin. apply Hk. unfold assembled_keys. set_solver. }
  destruct sem as [s|]; mexec H.
  - destruct (sem_seg_to_tensor s) as [t'|]; mexec H.
    2:{ mdone H. by exists r1. }
    apply Hprop in H; [done|]. intros k Hk.
    rewrite lookup_insert_ne; [by apply H1|].
    intros <-. apply Hk. unfold assembled_keys. set_solver.
  - by apply Hprop in H.
Qed.

(** Lines 164-168. *)
Lemma attach_ann_type_st r a e res w' :
  attach_ann_type self d (st w0 d r a e) = (res, w') ->
  exists r',
    w' = st w0 d r' a e /\
    (forall k, k ≠ "pos_category_ids" -> k ≠ "ann_type" -> r' !! k = r !! k) /\
    (with_ann_type self = false -> r' = r) /\
    (with_ann_type self = true -> is_ok res = true ->
     r' !! "pos_category_ids" =
       Some (default (VList []) (r !! "pos_category_ids")) /\
     exists src t,
       r !! "dataset_source" = Some src /\
       py_getitem (dataset_ann self) src = Ok t /\
       r' !! "ann_type" = Some (VStr t)).
Proof.
  unfold attach_ann_type. intros H.
  destruct (with_ann_type self); mexec H.
  2:{ mdone H. exists r. split_and!; done. }
  set (r1 := <["pos_category_ids" := _]> r) in *.
  assert (H1 : forall k, k ≠ "pos_category_ids" -> r1 !! k = r !! k).
  { intros k Hk. unfold r1. by rewrite lookup_insert_ne. }
  rewrite H1 in H by done.
  destruct (r !! "dataset_source") as [src|] eqn:Es; mexec H.
  2:{ mdone H. exists r1. split_and!; try done. intros; by apply H1. }
  destruct (py_getitem (dataset_ann self) src) as [t|] eqn:Et; mexec H.
  2:{ mdone H. exists r1. split_and!; try done. intros; by apply H1. }
  mdone H. exists (<["ann_type" := VStr t]> r1). split_and!; try done.
  - intros k Hk1 Hk2. rewrite lookup_insert_ne by done. by apply H1.
  - intros _ _. split.
    + rewrite lookup_insert_ne by done. unfold r1. by rewrite lookup_insert_eq.
    + exists src, t. split_and!; try done. by rewrite lookup_insert_eq.
Qed.

(** Lines 169-173. *)
Definition no_pos_category_ids (r : record) : Prop :=
  r !! "pos_category_ids" = None \/ r !! "pos_category_ids" = Some (VList []).

Lemma debug_pos_category_ids_st r a e res w' :
  debug_pos_category_ids self d (st w0 d r a e) = (res, w') ->
  exists r',
    w' = st w0 d r' a e /\
    (forall k, k ≠ "pos_category_ids" -> r' !! k = r !! k) /\
    (is_debug self = false -> r' = r) /\
    (is_debug self = true -> is_ok res = true -> no_pos_category_ids r ->
     exists inst cs,
       r !! "instances" = Some (VInstances inst) /\
       gt_classes inst = Some cs /\
       r' !! "pos_category_ids" = Some (VList (IInt <$> sorted_set cs))) /\
    (~ no_pos_category_ids r -> r' = r).
Proof.
  unfold debug_pos_category_ids. intros H.
  destruct (is_debug self).
  2:{ mdone H. exists r. split_and!; done. }
  match type of H with
  | context [bind (rec_getitem d "instances") ?k] =>
      set (fill := bind (rec_getitem d "instances") k) in H
  end.
  assert (Hfill : fill (st w0 d r a e) = (res, w') ->
    exists r', w' = st w0 d r' a e /\
      (forall k, k ≠ "pos_category_ids" -> r' !! k = r !! k) /\
      (is_ok res = true ->
       exists inst cs,
         r !! "instances" = Some (VInstances inst) /\
         gt_classes inst = Some cs /\
         r' !! "pos_category_ids" = Some (VList (IInt <$> sorted_set cs)))).
  { clear H. unfold fill. intros H. mexec H.
    destruct (r !! "instances") as [v|]; mexec H.
    2:{ mdone H. exists r. split_and!; done. }
    destruct v as [| | | |inst|]; mexec H;
      try (mdone H; exists r; split_and!; done).
    destruct (gt_classes inst) as [cs|] eqn:Ec; mexec H.
    2:{ mdone H. exists r. split_and!; done. }
    mdone H. eexists. split_and!; [done| |].
    - intros k Hk. by rewrite lookup_insert_ne.
    - intros _. exists inst, cs. split_and!; try done.
      by rewrite lookup_insert_eq. }
  clearbody fill. mexec H.
  case_bool_decide as Hk; mexec H.
  - destruct Hk as [v Hk]. rewrite Hk in H. mexec H.
    destruct (is_empty_list v) eqn:Ev.
    + assert (Hno : no_pos_category_ids r).
      { right. rewrite Hk. destruct v as [| |[|]| | |]; done. }
      apply Hfill in H as (r' & -> & Hf & Hok). exists r'.
      split_and!; try done. intros _ Hres _. by apply Hok.
    + mdone H. exists r. split_and!; try done. intros _ _ [Hn|Hn].
      * rewrite Hk in Hn. done.
      * rewrite Hk in Hn. by simplify_eq.
  - assert (Hno : no_pos_category_ids r).
    { left. by apply eq_None_not_Some. }
    apply Hfill in H as (r' & -> & Hf & Hok). exists r'.
    split_and!; try done. intros _ Hres _. by apply Hok.
Qed.

End Phases.

(** * The annotation phase *)

Section Annotations.
Context `{L : Detectron2Laws}.
Variables (self : CustomDatasetMapper) (w0 : world) (d : loc).
Hypothesis Hd : (d < length (recs w0))%nat.
Variables (tf : transform_list) (shp : shape).

(** What lines 142-145 leave of an annotation. *)
Definition strip_anno (x : anno) : anno :=
  let x := if negb (use_instance_mask self) then delete "segmentation" x
           else x in
  if negb (use_keypoint self) then delete "keypoints" x else x.

(** The [iscrowd] flag that line 152 reads. *)
Definition crowd_flag (x : anno) : field := default (FInt 0) (x !! "iscrowd").

Definition noncrowd (x : anno) : bool := is_zero (crowd_flag x).

Lemma strip_anno_iscrowd x : strip_anno x !! "iscrowd" = x !! "iscrowd".
Proof.
  unfold strip_anno.
  destruct (use_instance_mask self), (use_keypoint self); simpl;
    by rewrite ?lookup_delete_ne.
Qed.

Lemma strip_unused_st it r a e res w' :
  strip_unused self it (st w0 d r a e) = (res, w') ->
  exists a',
    w' = st w0 d r a' e /\
    length a' = length a /\
    (forall x, IAnno x ≠ it -> a' !! x = a !! x) /\
    (res = Ok tt -> forall la old,
       it = IAnno la -> a !! la = Some old ->
       a' !! la = Some (strip_anno old)).
Proof.
  unfold strip_unused, strip_anno. intros H.
  destruct it as [n|s|la].
  1,2: destruct (use_instance_mask self), (use_keypoint self); mexec H;
       mdone H; exists a; split_and!; done.
  destruct (a !! la) as [old|] eqn:Ea.
  - assert (Hlt : (la < length a)%nat) by by eapply lookup_lt_Some.
    destruct (use_instance_mask self), (use_keypoint self); mexec H;
      rewrite ?Ea in H; mexec H;
      rewrite ?list_lookup_insert_eq in H by done; mexec H; mdone H;
      eexists; (split_and!; [done| | |]);
      rewrite ?length_insert; try done.
    all: try (intros x Hx; rewrite ?list_lookup_insert_ne by congruence; done).
    all: intros _ la' old' [= <-] Hold; simplify_eq; simpl;
         rewrite ?list_insert_insert_eq, ?list_lookup_insert_eq by done;
         done.
  - destruct (use_instance_mask self), (use_keypoint self); mexec H;
      rewrite ?Ea in H; mexec H; mdone H;
      exists a; split_and!; try done; intros _ ? ? [= <-]; congruence.
Qed.

Lemma for_each_strip_st l r a e res w' :
  for_each (strip_unused self) l (st w0 d r a e) = (res, w') ->
  exists a',
    w' = st w0 d r a' e /\
    length a' = length a /\
    (forall x, IAnno x ∉ l -> a' !! x = a !! x) /\
    (res = Ok tt -> forall las, l = IAnno <$> las -> NoDup las ->
       forall la old, la ∈ las -> a !! la = Some old ->
       a' !! la = Some (strip_anno old)).
Proof.
  revert a. induction l as [|it l IH]; intros a H; simpl in H.
  - mdone H. exists a. split_and!; try done.
    intros _ [|] ?; [|done]. intros _ la old Hin. by apply elem_of_nil in Hin.
  - apply bind_inv in H as [(u & w1 & E & H)|(e0 & E & ->)].
    + apply strip_unused_st in E as (a1 & -> & Hlen1 & Hfr1 & Hok1).
      apply IH in H as (a' & -> & Hlen & Hfr & Hok).
      exists a'. split_and!; [done|congruence| |].
      * intros x Hx. rewrite Hfr, Hfr1; [done| |]; set_solver.
      * intros -> las Hl Hnd la old Hin Ha.
        destruct las as [|la0 las]; [done|]. simpl in Hl.
        injection Hl as -> ->. apply NoDup_cons in Hnd as [Hni Hnd].
        destruct u.
        apply elem_of_cons in Hin as [->|Hin].
        -- rewrite Hfr.
           ++ by eapply Hok1.
           ++ intros Hin. apply list_elem_of_fmap in Hin as (y & [= ->] & Hy).
              done.
        -- eapply (Hok eq_refl las); try done.
           rewrite Hfr1; [done|]. intros [= ->]. done.
    + apply strip_unused_st in E as (a1 & -> & Hlen1 & Hfr1 & Hok1).
      exists a1. split_and!; try done.
      intros x Hx. apply Hfr1. set_solver.
Qed.

Lemma remap_one_st it r a e res w' :
  remap_one self tf shp it (st w0 d r a e) = (res, w') ->
  exists a' evs,
    w' = st w0 d r a' (e ++ evs) /\
    length a' = length a /\
    (forall x, IAnno x ≠ it -> a' !! x = a !! x) /\
    applied_pipelines evs = [] /\
    (forall p, res = Ok p ->
       exists la old new,
         it = IAnno la /\ a !! la = Some old /\
         transform_instance_annotations
           old tf shp (keypoint_hflip_indices self) = Ok new /\
         a' !! la = Some new /\
         evs = [EvRemap old] /\
         p = (la, crowd_flag new)).
Proof.
  unfold remap_one. intros H.
  destruct it as [n|s|la].
  1,2: mdone H; exists a, []; rewrite app_nil_r; split_and!; done.
  mexec H. destruct (a !! la) as [old|] eqn:Ea; mexec H.
  2:{ mdone H. exists a, []. rewrite app_nil_r. split_and!; done. }
  assert (Hlt : (la < length a)%nat) by by eapply lookup_lt_Some.
  destruct (transform_instance_annotations old tf shp
              (keypoint_hflip_indices self)) as [new|] eqn:Et; mexec H.
  2:{ mdone H. exists a, [EvRemap old]. split_and!; done. }
  rewrite list_lookup_insert_eq in H by done. mdone H.
  exists (<[la := new]> a), [EvRemap old]. split_and!; try done.
  - by rewrite length_insert.
  - intros x Hx. rewrite list_lookup_insert_ne; [done|congruence].
  - intros p [= <-]. exists la, old, new. split_and!; try done.
    by rewrite list_lookup_insert_eq.
Qed.

Lemma Forall2_lookup_agree {A} (a a1 : list A) (las : list loc) (xs : list A) :
  (forall l, l ∈ las -> a1 !! l = a !! l) ->
  Forall2 (fun la x => a1 !! la = Some x) las xs ->
  Forall2 (fun la x => a !! la = Some x) las xs.
Proof.
  intros Hag H. induction H as [|la x las xs Hx H IH]; constructor.
  - rewrite <- Hag; [done|]. by left.
  - apply IH. intros l Hl. apply Hag. by right.
Qed.

Lemma applied_pipelines_app (evs1 evs2 : list event) :
  applied_pipelines (evs1 ++ evs2) =
  applied_pipelines evs1 ++ applied_pipelines evs2.
Proof. unfold applied_pipelines. apply omap_app. Qed.

Lemma map_m_remap_st l r a e res w' :
  map_m (remap_one self tf shp) l (st w0 d r a e) = (res, w') ->
  exists a' evs,
    w' = st w0 d r a' (e ++ evs) /\
    length a' = length a /\
    (forall x, IAnno x ∉ l -> a' !! x = a !! x) /\
    applied_pipelines evs = [] /\
    (forall ps, res = Ok ps ->
       forall las, l = IAnno <$> las -> NoDup las ->
       exists olds news,
         Forall2 (fun la old => a !! la = Some old) las olds /\
         Forall2 (fun old new =>
                    transform_instance_annotations
                      old tf shp (keypoint_hflip_indices self) = Ok new)
                 olds news /\
         Forall2 (fun la new => a' !! la = Some new) las news /\
         evs = EvRemap <$> olds /\
         ps = zip las (crowd_flag <$> news)).
Proof.
  revert a e res w'.
  induction l as [|it l IH]; intros a e res w' H; simpl in H.
  - mdone H. exists a, []. rewrite app_nil_r. split_and!; try done.
    intros ps [= <-] [|] ?; [|done]. intros _. exists [], [].
    split_and!; done.
  - apply bind_inv in H as [(p & w1 & E & H)|(e0 & E & ->)].
    2:{ apply remap_one_st in E as (a1 & evs1 & -> & Hlen1 & Hfr1 & Hap1 & _).
        exists a1, evs1. split_and!; try done.
        intros x Hx. apply Hfr1. set_solver. }
    apply remap_one_st in E as (a1 & evs1 & -> & Hlen1 & Hfr1 & Hap1 & Hok1).
    apply bind_inv in H as [(ps & w2 & E & H)|(e0 & E & ->)].
    2:{ apply IH in E as (a' & evs & -> & Hlen & Hfr & Hap & _).
        exists a', (evs1 ++ evs). rewrite app_assoc.
        split_and!; [done|congruence| | |done].
        - intros x Hx. rewrite Hfr, Hfr1; [done| |]; set_solver.
        - by rewrite applied_pipelines_app, Hap1, Hap. }
    apply IH in E as (a' & evs & -> & Hlen & Hfr & Hap & Hok).
    mdone H. exists a', (evs1 ++ evs). rewrite app_assoc.
    split_and!; [done|congruence| | |].
    + intros x Hx. rewrite Hfr, Hfr1; [done| |]; set_solver.
    + by rewrite applied_pipelines_app, Hap1, Hap.
    + intros ps' [= <-] las Hl Hnd.
      destruct las as [|la0 las]; [done|]. simpl in Hl.
      injection Hl as -> ->. apply NoDup_cons in Hnd as [Hni Hnd].
      destruct (Hok1 p eq_refl) as (la & old & new & [= <-] & Ha & Ht & Ha1 & -> & ->).
      destruct (Hok ps eq_refl las eq_refl Hnd)
        as (olds & news & Holds & Htr & Hnews & -> & ->).
      exists (old :: olds), (new :: news). split_and!; [| | |done|done].
      * constructor; [done|].
        eapply Forall2_lookup_agree; [|exact Holds].
        intros l Hl. apply Hfr1. intros [= ->]. done.
      * by constructor.
      * constructor; [|done]. rewrite Hfr; [done|].
        intros Hin. apply list_elem_of_fmap in Hin as (y & [= ->] & Hy). done.
Qed.

Lemma map_m_ann_load_st ls r a e res w' :
  map_m ann_load ls (st w0 d r a e) = (res, w') ->
  w' = st w0 d r a e /\
  (forall xs, res = Ok xs -> Forall2 (fun l x => a !! l = Some x) ls xs).
Proof.
  revert res w'. induction ls as [|l ls IH]; intros res w' H; simpl in H.
  - mdone H. split; [done|]. intros xs [= <-]. constructor.
  - apply bind_inv in H as [(x & w1 & E & H)|(e0 & E & ->)];
      rewrite ann_load_st in E; destruct (a !! l) as [x'|] eqn:Ea; mdone E.
    2:{ done. }
    apply bind_inv in H as [(xs & w1 & E & H)|(e0 & E & ->)];
      apply IH in E as [-> Hxs]; [|done].
    mdone H. split; [done|]. intros ? [= <-]. constructor; [done|].
    by apply Hxs.
Qed.

(** The annotations handed to the builder are the remapped ones whose
    flag is zero, in their order. *)
Lemma kept_objs (a' : list anno) las news xs :
  Forall2 (fun la new => a' !! la = Some new) las news ->
  Forall2 (fun l x => a' !! l = Some x)
          (filter (fun ann : loc * field => is_zero ann.2 = true)
                  (zip las (crowd_flag <$> news))).*1 xs ->
  xs = filter (fun n => noncrowd n = true) news.
Proof.
  intros H. revert xs. induction H as [|la new las news Hn H IH]; intros xs Hxs.
  - simpl in Hxs. by inversion Hxs.
  - simpl in Hxs. rewrite filter_cons in Hxs. rewrite filter_cons.
    unfold noncrowd at 1. simpl in Hxs.
    destruct (decide (is_zero (crowd_flag new) = true)) as [Hz|Hz].
    + simpl in Hxs. inversion Hxs as [|? x ? xs' Hx Hxs']; subst.
      f_equal; [congruence|]. by apply IH.
    + by apply IH.
Qed.

Lemma stripped_olds (a a1 : list anno) las olds1 :
  length a1 = length a ->
  (forall la old, la ∈ las -> a !! la = Some old ->
                  a1 !! la = Some (strip_anno old)) ->
  Forall2 (fun la o => a1 !! la = Some o) las olds1 ->
  exists olds,
    Forall2 (fun la old => a !! la = Some old) las olds /\
    olds1 = strip_anno <$> olds.
Proof.
  intros Hlen Hs H. induction H as [|la o las os Ho H IH].
  - by exists [].
  - destruct IH as (olds & Holds & ->).
    { intros la' old Hin. apply Hs. by right. }
    assert (is_Some (a !! la)) as [old Hold].
    { apply lookup_lt_is_Some. rewrite <- Hlen. by eapply lookup_lt_Some. }
    exists (old :: olds). split; [by constructor|].
    simpl. f_equal.
    assert (a1 !! la = Some (strip_anno old)).
    { apply Hs; [by left|done]. }
    congruence.
Qed.

Lemma iterate_refs v l x :
  iterate v = Ok l -> IAnno x ∈ l -> x ∈ value_refs v.
Proof.
  destruct v as [|s|l'| | |]; simpl; intros [= <-] Hin.
  - apply list_elem_of_fmap in Hin as (? & ? & _). done.
  - apply list_elem_of_bind. exists (IAnno x). split; [|done]. simpl. by left.
Qed.

Lemma build_instances_st r a e res w' :
  build_instances self d tf shp (st w0 d r a e) = (res, w') ->
  exists r' a' evs,
    w' = st w0 d r' a' (e ++ evs) /\
    (forall k, k ≠ "annotations" -> k ≠ "instances" -> r' !! k = r !! k) /\
    length a' = length a /\
    (forall l, (forall v, r !! "annotations" = Some v -> l ∉ value_refs v) ->
               a' !! l = a !! l) /\
    applied_pipelines evs = [] /\
    (r !! "annotations" = None ->
     res = Ok tt /\ r' = r /\ a' = a /\ evs = []) /\
    (res = Ok tt -> forall v, r !! "annotations" = Some v ->
     r' !! "annotations" = None /\
     exists objs inst0 inst1 inst,
       annotations_to_instances objs shp (instance_mask_format self) = Ok inst0 /\
       recompute_gt_boxes self inst0 = Ok inst1 /\
       filter_empty_instances inst1 = Ok inst /\
       r' !! "instances" = Some (VInstances inst) /\
       (forall las, v = VList (IAnno <$> las) -> NoDup las ->
        exists olds news,
          Forall2 (fun la old => a !! la = Some old) las olds /\
          Forall2 (fun old new =>
                     transform_instance_annotations
                       (strip_anno old) tf shp (keypoint_hflip_indices self)
                     = Ok new) olds news /\
          objs = filter (fun n => noncrowd n = true) news /\
          evs = (EvRemap <$> (strip_anno <$> olds)) ++ [EvBuild objs])).
Proof.
  unfold build_instances. intros H. mexec H.
  case_bool_decide as Hk; mexec H.
  2:{ mdone H. exists r, a, []. rewrite app_nil_r.
      split_and!; try done. intros _ v Hv. destruct Hk. by exists v. }
  destruct Hk as [v Hv]. rewrite Hv in H. mexec H.
  destruct (iterate v) as [l|] eqn:Ei; mexec H.
  2:{ mdone H. exists r, a, []. rewrite app_nil_r.
      split_and!; try done. congruence. }
  destruct (for_each (strip_unused self) l (st w0 d r a e))
    as [[u|e0] w1] eqn:E1;
    apply for_each_strip_st in E1 as (a1 & -> & Hlen1 & Hfr1 & Hok1).
  2:{ mdone H. exists r, a1, []. rewrite app_nil_r.
      split_and!; try done; [|congruence].
      intros x Hx. apply Hfr1. intros Hin. eapply Hx; [done|].
      by eapply iterate_refs. }
  destruct u. mexec H. rewrite Hv in H. mexec H. rewrite Ei in H. mexec H.
  set (r1 := delete "annotations" r) in *.
  assert (Hr1 : forall k, k ≠ "annotations" -> r1 !! k = r !! k).
  { intros k Hk. unfold r1. by rewrite lookup_delete_ne. }
  destruct (map_m (remap_one self tf shp) l (st w0 d r1 a1 e))
    as [[ps|e0] w2] eqn:E2;
    apply map_m_remap_st in E2 as (a2 & evs2 & -> & Hlen2 & Hfr2 & Hap2 & Hok2).
  2:{ mdone H. exists r1, a2, evs2.
      split_and!; try done; [by (intros; apply Hr1)|congruence| |congruence].
      intros x Hx. assert (IAnno x ∉ l).
      { intros Hin. eapply Hx; [done|]. by eapply iterate_refs. }
      by rewrite Hfr2, Hfr1. }
  assert (Hfr : forall x,
    (forall v, r !! "annotations" = Some v -> x ∉ value_refs v) ->
    a2 !! x = a !! x).
  { intros x Hx. assert (IAnno x ∉ l).
    { intros Hin. eapply Hx; [done|]. by eapply iterate_refs. }
    by rewrite Hfr2, Hfr1. }
  mexec H.
  match type of H with
  | context [map_m ann_load ?ls ?w] =>
      destruct (map_m ann_load ls w) as [[objs|e0] w3] eqn:E3;
      apply map_m_ann_load_st in E3 as [-> Hobjs]
  end.
  2:{ mdone H. exists r1, a2, evs2.
      split_and!; try done; [by (intros; apply Hr1)|congruence|congruence]. }
  specialize (Hobjs objs eq_refl). mexec H.
  assert (Hap : applied_pipelines (evs2 ++ [EvBuild objs]) = []).
  { by rewrite applied_pipelines_app, Hap2. }
  rewrite <- app_assoc in H.
  destruct (annotations_to_instances objs shp (instance_mask_format self))
    as [inst0|] eqn:Eb; mexec H.
  2:{ mdone H. exists r1, a2, (evs2 ++ [EvBuild objs]).
      split_and!; try done; [by (intros; apply Hr1)|congruence|congruence]. }
  destruct (recompute_gt_boxes self inst0) as [inst1|] eqn:Er; mexec H.
  2:{ mdone H. exists r1, a2, (evs2 ++ [EvBuild objs]).
      split_and!; try done; [by (intros; apply Hr1)|congruence|congruence]. }
  destruct (filter_empty_instances inst1) as [inst|] eqn:Ef; mexec H.
  2:{ mdone H. exists r1, a2, (evs2 ++ [EvBuild objs]).
      split_and!; try done; [by (intros; apply Hr1)|congruence|congruence]. }
  mdone H. exists (<["instances" := VInstances inst]> r1), a2,
             (evs2 ++ [EvBuild objs]).
  split_and!; try done.
  - intros k Hk1 Hk2. rewrite lookup_insert_ne by done. by apply Hr1.
  - congruence.
  - congruence.
  - intros _ v' Hv'. assert (v' = v) as -> by congruence. split.
    + rewrite lookup_insert_ne by done. unfold r1. by rewrite lookup_delete_eq.
    + exists objs, inst0, inst1, inst. split_and!; try done.
      * by rewrite lookup_insert_eq.
      * intros las -> Hnd. simpl in Ei. injection Ei as <-.
        destruct (Hok2 ps eq_refl las eq_refl Hnd)
          as (olds1 & news & Holds1 & Htr & Hnews & -> & ->).
        assert (Hex : exists olds,
          Forall2 (fun la old => a !! la = Some old) las olds /\
          olds1 = strip_anno <$> olds).
        { eapply stripped_olds; [exact Hlen1| |exact Holds1].
          intros la old Hin Ha. by eapply (Hok1 eq_refl las). }
        destruct Hex as (olds & Holds & ->).
        exists olds, news. split_and!; [done| | |done].
        -- by apply Forall2_fmap_l in Htr.
        -- by apply (kept_objs a2 las).
Qed.

End Annotations.

(** * The deep copy *)

Section DeepCopyFacts.
Context `{T : Detectron2Types}.

(** The deep copy of a value and of a record of the world [w]. *)
Definition copy_value (w : world) (r : record) (v : value) : value :=
  rename_value (memo (length (anns w)) (record_refs r)) v.

Definition copy_record (w : world) (r : record) : record :=
  copy_value w r <$> r.

(** The world after the deep copy of [r], the annotations [r] refers to
    having the contents [copies]. *)
Definition copied_world (w : world) (r : record) (copies : list anno) : world :=
  mkWorld (recs w ++ [copy_record w r]) (anns w ++ copies) (log w).

Lemma deepcopy_inv d w r res w' :
  recs w !! d = Some r ->
  deepcopy d w = (res, w') ->
  (res = Err Dangling /\ w' = w /\
   ~ Forall (fun la => is_Some (anns w !! la)) (record_refs r)) \/
  (exists copies,
     Forall2 (fun la c => anns w !! la = Some c) (record_refs r) copies /\
     res = Ok (length (recs w)) /\
     w' = copied_world w r copies).
Proof.
  unfold deepcopy. intros Hr H. rewrite Hr in H.
  destruct (mapM (λ a : loc, anns w !! a) (record_refs r)) as [copies|] eqn:Em;
    mdone H.
  - right. exists copies. split_and!; try done. by apply mapM_Some_1.
  - left. split_and!; try done. intros HF.
    apply mapM_is_Some_2 in HF. rewrite Em in HF. by destruct HF.
Qed.

Lemma index_of_lt x l : x ∈ l -> (index_of x l < length l)%nat.
Proof.
  induction l as [|y l IH]; intros Hin; [by apply elem_of_nil in Hin|].
  simpl. destruct (decide (x = y)); [lia|].
  apply elem_of_cons in Hin as [?|Hin]; [done|]. apply IH in Hin. lia.
Qed.

Lemma index_of_lookup x l : x ∈ l -> l !! index_of x l = Some x.
Proof.
  induction l as [|y l IH]; intros Hin; [by apply elem_of_nil in Hin|].
  simpl. destruct (decide (x = y)) as [->|]; [done|].
  apply elem_of_cons in Hin as [?|Hin]; [done|]. by apply IH.
Qed.

Lemma index_of_inj x y l : x ∈ l -> index_of x l = index_of y l -> x = y.
Proof.
  induction l as [|z l IH]; intros Hin; [by apply elem_of_nil in Hin|].
  simpl. destruct (decide (x = z)) as [->|], (decide (y = z)) as [->|];
    try done.
  intros [= Heq]. apply elem_of_cons in Hin as [?|Hin]; [done|]. by apply IH.
Qed.

(** The copies are new, and hold what the originals hold. *)
Lemma memo_fresh start refs la : (start ≤ memo start refs la)%nat.
Proof. unfold memo. lia. Qed.

Lemma memo_inj start refs x y :
  x ∈ refs -> memo start refs x = memo start refs y -> x = y.
Proof. unfold memo. intros Hin Heq. apply (index_of_inj x y refs); [done|lia]. Qed.

Lemma memo_lookup (a : list anno) refs copies la :
  Forall2 (fun la c => a !! la = Some c) refs copies ->
  la ∈ refs ->
  (a ++ copies) !! memo (length a) refs la = a !! la.
Proof.
  intros HF Hin. unfold memo.
  rewrite lookup_app_r by lia.
  replace (length a + index_of la refs - length a)%nat
    with (index_of la refs) by lia.
  pose proof (index_of_lookup la refs Hin) as Hl.
  destruct (Forall2_lookup_l _ _ _ _ _ HF Hl) as (c & Hc & Hac).
  by rewrite Hc, Hac.
Qed.

Lemma value_refs_in_record (r : record) k v la :
  r !! k = Some v -> la ∈ value_refs v -> la ∈ record_refs r.
Proof.
  intros Hk Hin. unfold record_refs. apply elem_of_remove_dups.
  apply list_elem_of_bind. exists v. split; [done|].
  apply list_elem_of_fmap. exists (k, v). split; [done|].
  by apply elem_of_map_to_list.
Qed.

Lemma value_refs_rename σ v :
  value_refs (rename_value σ v) = σ <$> value_refs v.
Proof.
  destruct v as [| |l| | |]; try done. simpl.
  induction l as [|i l IH]; [done|].
  rewrite fmap_cons, !bind_cons, fmap_app, IH. f_equal. by destruct i.
Qed.

Lemma rename_value_ints σ (ids : list Z) :
  rename_value σ (VList (IInt <$> ids)) = VList (IInt <$> ids).
Proof. simpl. f_equal. rewrite <- list_fmap_compose. by apply list_fmap_ext. Qed.

Lemma rename_value_annos σ (las : list loc) :
  rename_value σ (VList (IAnno <$> las)) = VList (IAnno <$> (σ <$> las)).
Proof. simpl. f_equal. by rewrite <- !list_fmap_compose. Qed.

Lemma copy_record_lookup w r k :
  copy_record w r !! k = copy_value w r <$> r !! k.
Proof. unfold copy_record. by rewrite lookup_fmap. Qed.

(** The annotations the working copy refers to are new. *)
Lemma copy_record_fresh w r k v la :
  copy_record w r !! k = Some v -> la ∈ value_refs v ->
  (length (anns w) ≤ la)%nat.
Proof.
  rewrite copy_record_lookup. intros Hk Hin.
  destruct (r !! k) as [v0|]; [|done]. injection Hk as <-.
  unfold copy_value in Hin. rewrite value_refs_rename in Hin.
  apply list_elem_of_fmap in Hin as (la0 & -> & _). apply memo_fresh.
Qed.

Lemma copied_world_recs w r copies :
  recs (copied_world w r copies) !! length (recs w) = Some (copy_record w r).
Proof. simpl. rewrite lookup_app_r by lia. by rewrite Nat.sub_diag. Qed.

Lemma copied_world_here w r copies :
  (length (recs w) < length (recs (copied_world w r copies)))%nat.
Proof. simpl. rewrite length_app. simpl. lia. Qed.

End DeepCopyFacts.

(** * The call as a whole *)

Section Call.
Context `{L : Detectron2Laws}.
Variable self : CustomDatasetMapper.
Local Open Scope monad_scope.

(** Lines 133-174: what follows the assembly of the image. *)
Definition after_assemble (dd : loc) (tf : transform_list) (shp : shape)
  : M loc :=
  if negb (is_train self) then
    rec_pop_default dd "annotations" ;;;
    rec_pop_default dd "sem_seg_file_name" ;;;
    ret dd
  else
    build_instances self dd tf shp ;;;
    attach_ann_type self dd ;;;
    debug_pos_category_ids self dd ;;;
    ret dd.

Lemma call_unfold d :
  call self d =
  (dd <- deepcopy d ;;
   ori <- load_image self dd ;;
   sem <- load_sem_seg dd ;;
   force_debug_source self dd ;;;
   _ <- not_full_labeled self dd ;;
   aug <- augment self dd ori sem ;;
   assemble self dd aug.1.1 aug.1.2 aug.2 ;;;
   after_assemble dd aug.1.1 (shape2 aug.1.2)).
Proof. reflexivity. Qed.

(** The working record when the pipeline is selected: the deep copy of
    [r], possibly with the image size recorded, without the label-map
    source, and with the debugging source. *)
Definition working (w : world) (r r4 : record) : Prop :=
  exists r2,
    (forall k, k ≠ "width" -> k ≠ "height" ->
               r2 !! k = copy_record w r !! k) /\
    r4 = if is_debug self
         then <["dataset_source" := VInt 0]> (delete "sem_seg_file_name" r2)
         else delete "sem_seg_file_name" r2.

Lemma call_prefix d w r res w' :
  recs w !! d = Some r ->
  call self d w = (res, w') ->
  (res = Err Dangling /\ w' = w) \/
  exists copies,
    Forall2 (fun la c => anns w !! la = Some c) (record_refs r) copies /\
    let w1 := copied_world w r copies in
    let d1 := length (recs w) in
    ((exists r' evs,
        is_ok res = false /\
        w' = st w1 d1 r' (anns w1) evs /\
        (forall k, k ∉ ["width"; "height"; "sem_seg_file_name";
                        "dataset_source"] ++ assembled_keys ->
                   r' !! k = copy_record w r !! k) /\
        (evs = [] \/
         exists p r4, evs = [EvAugment p] /\ working w r r4 /\
                      selected self r4 p)) \/
     (exists r4 r6 p tf img,
        working w r r4 /\ selected self r4 p /\
        (forall k, k ∉ assembled_keys -> r6 !! k = r4 !! k) /\
        after_assemble d1 tf (shape2 img)
          (st w1 d1 r6 (anns w1) [EvAugment p]) = (res, w'))).
Proof.
  intros Hr H. rewrite call_unfold in H.
  apply bind_inv in H as [(d1 & w1 & E & H)|(e0 & E & ->)];
    apply (deepcopy_inv _ _ r) in E as [(? & ? & _)|(copies & Hc & ? & ->)];
    try done; simplify_eq.
  2:{ by left. }
  right. exists copies. split; [done|]. simpl.
  pose proof (copied_world_here w r copies) as Hd.
  pose proof (copied_world_recs w r copies) as Hr1.
  set (w1 := copied_world w r copies) in *.
  set (d1 := length (recs w)) in *.
  set (r1 := copy_record w r) in *.
  rewrite <- (st_id w1 d1 r1 Hr1) in H.
  (* the image *)
  apply bind_inv in H as [(ori & w2 & E & H)|(e0 & E & ->)];
    apply (load_image_st self w1 d1 Hd) in E as (r2 & -> & Hf2 & _).
  2:{ left. exists r2, []. split_and!; [done|done| |by left].
      intros k Hk. apply Hf2; intros ->; apply Hk; set_solver. }
  (* the label map *)
  apply bind_inv in H as [(sem & w3 & E & H)|(e0 & E & ->)];
    apply (load_sem_seg_st w1 d1 Hd) in E as ->.
  2:{ left. eexists _, []. split_and!; [done|done| |by left].
      intros k Hk. rewrite lookup_delete_ne by (intros <-; apply Hk; set_solver).
      apply Hf2; intros ->; apply Hk; set_solver. }
  (* the debugging source *)
  apply bind_inv in H as [(u & w4 & E & H)|(e0 & E & ->)];
    rewrite (force_debug_source_st self w1 d1 Hd) in E; mdone E.
  set (r4 := if is_debug self
             then <["dataset_source" := VInt 0]> (delete "sem_seg_file_name" r2)
             else delete "sem_seg_file_name" r2) in *.
  assert (Hw : working w r r4) by (by exists r2).
  assert (Hf4 : forall k,
    k ∉ ["width"; "height"; "sem_seg_file_name"; "dataset_source"]
          ++ assembled_keys -> r4 !! k = r1 !! k).
  { intros k Hk. unfold r4.
    assert (delete "sem_seg_file_name" r2 !! k = r1 !! k) as Hdel.
    { rewrite lookup_delete_ne by (intros <-; apply Hk; set_solver).
      apply Hf2; intros ->; apply Hk; set_solver. }
    destruct (is_debug self); [|done].
    rewrite lookup_insert_ne by (intros <-; apply Hk; set_solver). done. }
  (* not_full_labeled *)
  apply bind_inv in H as [(nfl & w5 & E & H)|(e0 & E & ->)];
    apply not_full_labeled_world in E as ->.
  2:{ left. exists r4, []. split_and!; [done|done|done|by left]. }
  (* the pipeline *)
  apply bind_inv in H as [(aug & w6 & E & H)|(e0 & E & ->)];
    apply (augment_st self w1 d1 Hd) in E as (evs & -> & Hevs & Hok & _).
  2:{ left. exists r4, evs. split_and!; [done|done|done|].
      destruct Hevs as [->|(p & -> & Hp)]; [by left|].
      right. by exists p, r4. }
  destruct (Hok eq_refl) as (p & -> & Hsel & Happ). simpl in H.
  (* the assembly *)
  apply bind_inv in H as [(u & w7 & E & H)|(e0 & E & ->)];
    apply (assemble_st self w1 d1 Hd) in E as (r6 & -> & Hf6).
  2:{ left. exists r6, [EvAugment p]. split_and!; [done|done| |].
      - intros k Hk. rewrite Hf6, Hf4; [done|done|].
        intros Hin. apply Hk. set_solver.
      - right. by exists p, r4. }
  right. by exists r4, r6, p, aug.1.1, aug.1.2.
Qed.

Lemma working_lookup w r r4 k :
  working w r r4 ->
  k ∉ ["width"; "height"; "sem_seg_file_name"; "dataset_source"] ->
  r4 !! k = copy_value w r <$> r !! k.
Proof.
  intros (r2 & Hf & ->) Hk. rewrite <- copy_record_lookup, <- Hf.
  - destruct (is_debug self).
    + rewrite lookup_insert_ne, lookup_delete_ne; [done| |];
        intros <-; apply Hk; set_solver.
    + rewrite lookup_delete_ne; [done|]. intros <-; apply Hk; set_solver.
  - intros ->. apply Hk. set_solver.
  - intros ->. apply Hk. set_solver.
Qed.

Lemma working_source w r r4 :
  working w r r4 ->
  r4 !! "dataset_source" =
  if is_debug self then Some (VInt 0)
  else copy_value w r <$> r !! "dataset_source".
Proof.
  intros (r2 & Hf & ->). destruct (is_debug self).
  - by rewrite lookup_insert_eq.
  - rewrite lookup_delete_ne by done. rewrite Hf by done.
    apply copy_record_lookup.
Qed.

Lemma working_no_sem_seg w r r4 :
  working w r r4 -> r4 !! "sem_seg_file_name" = None.
Proof.
  intros (r2 & Hf & ->). destruct (is_debug self).
  - rewrite lookup_insert_ne by done. apply lookup_delete_eq.
  - apply lookup_delete_eq.
Qed.

(** In inference mode the rest of the call removes two keys. *)
Lemma after_assemble_inference w1 d1 tf shp r6 a e :
  (d1 < length (recs w1))%nat ->
  is_train self = false ->
  after_assemble d1 tf shp (st w1 d1 r6 a e) =
  (Ok d1,
   st w1 d1 (delete "sem_seg_file_name" (delete "annotations" r6)) a e).
Proof.
  intros Hd Ht. unfold after_assemble. rewrite Ht. simpl.
  unfold bind. by rewrite !rec_pop_default_st.
Qed.

(** What a successful [build_instances] leaves. *)
Definition built (tf : transform_list) (shp : shape)
    (r : record) (a : list anno) (r' : record) (evs : list event) : Prop :=
  (r !! "annotations" = None -> r' = r /\ evs = []) /\
  (forall v, r !! "annotations" = Some v ->
     r' !! "annotations" = None /\
     exists objs inst0 inst1 inst,
       annotations_to_instances objs shp (instance_mask_format self) = Ok inst0 /\
       recompute_gt_boxes self inst0 = Ok inst1 /\
       filter_empty_instances inst1 = Ok inst /\
       r' !! "instances" = Some (VInstances inst) /\
       (forall las, v = VList (IAnno <$> las) -> NoDup las ->
        exists olds news,
          Forall2 (fun la old => a !! la = Some old) las olds /\
          Forall2 (fun old new =>
                     transform_instance_annotations
                       (strip_anno self old) tf shp
                       (keypoint_hflip_indices self) = Ok new) olds news /\
          objs = filter (fun n => noncrowd n = true) news /\
          evs = (EvRemap <$> (strip_anno self <$> olds)) ++ [EvBuild objs])).

(** What a successful [attach_ann_type] leaves. *)
Definition attached (r r' : record) : Prop :=
  (with_ann_type self = false -> r' = r) /\
  (with_ann_type self = true ->
   r' !! "pos_category_ids" =
     Some (default (VList []) (r !! "pos_category_ids")) /\
   exists src t,
     r !! "dataset_source" = Some src /\
     py_getitem (dataset_ann self) src = Ok t /\
     r' !! "ann_type" = Some (VStr t)).

(** What a successful [debug_pos_category_ids] leaves. *)
Definition backfilled (r r' : record) : Prop :=
  (is_debug self = false -> r' = r) /\
  (~ no_pos_category_ids r -> r' = r) /\
  (is_debug self = true -> no_pos_category_ids r ->
   exists inst cs,
     r !! "instances" = Some (VInstances inst) /\
     gt_classes inst = Some cs /\
     r' !! "pos_category_ids" = Some (VList (IInt <$> sorted_set cs))).

(** In training mode the rest of the call builds the instances, attaches
    the annotation type and fills in the debugging labels. *)
Lemma after_assemble_train w1 d1 tf shp r6 a e res w' :
  (d1 < length (recs w1))%nat ->
  is_train self = true ->
  after_assemble d1 tf shp (st w1 d1 r6 a e) = (res, w') ->
  exists r7 r8 r9 a7 evs,
    w' = st w1 d1 r9 a7 (e ++ evs) /\
    length a7 = length a /\
    (forall l, (forall v, r6 !! "annotations" = Some v -> l ∉ value_refs v) ->
               a7 !! l = a !! l) /\
    applied_pipelines evs = [] /\
    (forall k, k ≠ "annotations" -> k ≠ "instances" -> r7 !! k = r6 !! k) /\
    (forall k, k ≠ "pos_category_ids" -> k ≠ "ann_type" -> r8 !! k = r7 !! k) /\
    (forall k, k ≠ "pos_category_ids" -> r9 !! k = r8 !! k) /\
    (forall out, res = Ok out ->
       out = d1 /\ built tf shp r6 a r7 evs /\ attached r7 r8 /\
       backfilled r8 r9).
Proof.
  intros Hd Ht H. unfold after_assemble in H. rewrite Ht in H. simpl in H.
  apply bind_inv in H as [(u & w2 & E & H)|(e0 & E & ->)];
    apply (build_instances_st self w1 d1 Hd) in E
      as (r7 & a7 & evs & -> & Hf7 & Hlen & Hfr & Hap & Hnone & Hsome).
  2:{ exists r7, r7, r7, a7, evs. split_and!; try done. }
  destruct u.
  apply bind_inv in H as [(u & w3 & E & H)|(e0 & E & ->)];
    apply (attach_ann_type_st self w1 d1 Hd) in E
      as (r8 & -> & Hf8 & Hoff & Hon).
  2:{ exists r7, r8, r8, a7, evs. split_and!; try done. }
  apply bind_inv in H as [(u' & w4 & E & H)|(e0 & E & ->)];
    apply (debug_pos_category_ids_st self w1 d1 Hd) in E
      as (r9 & -> & Hf9 & Hdoff & Hdon & Hkeep).
  2:{ exists r7, r8, r9, a7, evs. split_and!; try done. }
  mdone H. exists r7, r8, r9, a7, evs. split_and!; try done.
  intros out [= <-]. split_and!; try done.
  - split.
    + intros Hn. by destruct (Hnone Hn) as (_ & -> & _ & ->).
    + intros v Hv. by apply Hsome.
  - split; [done|]. intros Hw. destruct u. by apply Hon.
  - split_and!; try done. intros Hdb Hno. destruct u'. by apply Hdon.
Qed.

End Call.

(** * A small instance of the collaborators

    Images are integers (the edge of a square image), a pipeline is a
    list of integers that it adds to the edge, boxes and masks are
    (width, height) pairs.  The instance is used to run the mapper on
    concrete records. *)
Module Toy.

#[export] Instance toy_types : Detectron2Types := {|
  ndarray := Z; pil_image := Z; tensor := Z; shape := Z * Z;
  augmentation := Z; transform_list := list Z; TarDataset := unit;
  payload := Z * Z; box := Z * Z; mask := Z * Z; keypoints := unit;
  hflip_indices := unit |}.

Definition toy_geometry (key : string) (a : anno) : Z * Z :=
  match a !! key with Some (FData p) => p | _ => (0, 0) end.

Definition toy_category (a : anno) : Z :=
  match a !! "category_id" with Some (FInt n) => n | _ => 0 end.

Definition toy_build (annos : list anno) (s : Z * Z) (fmt : string)
  : result Instances :=
  let has_seg :=
    match annos with
    | a :: _ => bool_decide (is_Some (a !! "segmentation"))
    | [] => false
    end in
  Ok (mkInstances s (Some (toy_geometry "bbox" <$> annos))
        (Some (toy_category <$> annos))
        (if has_seg then Some (toy_geometry "segmentation" <$> annos) else None)
        None).

#[export] Instance toy : Detectron2 := {|
  DatasetMapper_init tr kw :=
    Ok (mkDatasetMapper tr (AugmentationList (kw_augmentations kw))
          (kw_image_format kw) (kw_use_instance_mask kw)
          (kw_instance_mask_format kw) (kw_use_keypoint kw)
          (kw_keypoint_hflip_indices kw) (kw_precomputed_proposal_topk kw)
          (kw_recompute_boxes kw));
  read_image v fmt :=
    match v with
    | VStr s => Ok (Z.of_nat (String.length s))
    | _ => Err TypeError
    end;
  squeeze2 a := Ok a;
  tar_getitem td v := Ok 0;
  _apply_exif_orientation p := Ok p;
  convert_PIL_to_numpy p fmt := Ok p;
  check_image_size r img :=
    Ok (<["height" := VInt img]> (<["width" := VInt img]> r));
  apply_augmentations p img sem := Ok (p, img + foldr Z.add 0 p, sem);
  shape2 img := (img, img);
  image_to_tensor img := Ok img;
  sem_seg_to_tensor s := Ok s;
  transform_proposals r s t k := Ok (<["proposals" := VInt k]> r);
  transform_instance_annotations a t s h := Ok (<["bbox_mode" := FInt 0]> a);
  annotations_to_instances := toy_build;
  bounding_box m := m;
  box_nonempty b := (0 <? b.1) && (0 <? b.2);
  mask_nonempty m := (0 <? m.1) && (0 <? m.2);
|}.

#[export] Instance toy_laws : Detectron2Laws.
Proof.
  split.
  - intros r r' img k [= <-] Hw Hh. simpl.
    by rewrite !lookup_insert_ne.
  - intros r r' s t n k [= <-] Hk.
    rewrite lookup_insert_ne; [done|].
    intros <-. apply Hk. unfold proposal_keys.
    repeat first [apply list_elem_of_here | apply list_elem_of_further].
  - intros a a' t s h [= <-]. by rewrite lookup_insert_ne.
Qed.

Definition kw : base_kwargs :=
  mkBaseKwargs [1] "BGR" true false "polygon" None None false.

(** Training, one shared pipeline. *)
Definition args : init_args :=
  mkInitArgs true false ["box"] false [] false false "" "" kw.
(** Construction with the archive-backed source. *)
Definition args_tar : init_args :=
  mkInitArgs true false ["box"] false [] false true "x.tar" "idx" kw.
(** Training, one pipeline per dataset source. *)
Definition args_diff : init_args :=
  mkInitArgs true true ["box"; "image"] true [[1]; [2; 3]] false false "" "" kw.
(** Training, debugging. *)
Definition args_debug : init_args :=
  mkInitArgs true true ["box"; "image"] true [[1]; [2; 3]] true false "" "" kw.
(** Inference. *)
Definition args_eval : init_args :=
  mkInitArgs false false ["box"] false [] false false "" "" kw.
(** Training, boxes recomputed from the masks. *)
Definition args_recompute : init_args :=
  mkInitArgs true false ["box"] false [] false false "" ""
    (mkBaseKwargs [1] "BGR" true false "polygon" None None true).

Definition mapper_of (a : init_args) : CustomDatasetMapper :=
  match init a with
  | Ok m => m
  | Err _ =>
      mkMapper (mkDatasetMapper true [] "" true "" true None None false)
               false [] false None false false None
  end.

(** Two annotations, the second a crowd. *)
Definition anno0 : anno :=
  {[ "bbox" := FData (3, 4); "category_id" := FInt 7; "iscrowd" := FInt 0;
     "segmentation" := FData (2, 2) ]}.
Definition anno1 : anno :=
  {[ "bbox" := FData (5, 6); "category_id" := FInt 9; "iscrowd" := FInt 1;
     "segmentation" := FData (1, 1) ]}.

Definition record0 : record :=
  {[ "file_name" := VStr "a.jpg"; "dataset_source" := VInt 1;
     "sem_seg_file_name" := VStr "a.png";
     "annotations" := VList [IAnno 0%nat; IAnno 1%nat] ]}.
(** No dataset source. *)
Definition record1 : record :=
  {[ "file_name" := VStr "a.jpg";
     "annotations" := VList [IAnno 0%nat; IAnno 1%nat] ]}.
(** No file name, only an archive index. *)
Definition record2 : record :=
  {[ "tar_index" := VInt 5; "dataset_source" := VInt 0 ]}.

Definition world0 : world := mkWorld [record0; record1; record2] [anno0; anno1] [].

(** A third annotation, without an [iscrowd] field, and a record
    with the three annotations. *)
Definition anno2 : anno :=
  {[ "bbox" := FData (7, 8); "category_id" := FInt 11;
     "segmentation" := FData (3, 3) ]}.

Definition record7 : record :=
  {[ "file_name" := VStr "f.jpg";
     "annotations" := VList [IAnno 0%nat; IAnno 1%nat; IAnno 2%nat] ]}.

Definition world3 : world :=
  mkWorld [record7] [anno0; anno1; anno2] [].

(** The output record of a call, if it returns one. *)
Definition output (m : CustomDatasetMapper) (d : loc) (w : world)
  : option record :=
  match call m d w with
  | (Ok out, w') => recs w' !! out
  | (Err _, _) => None
  end.

(** A key of the output record of a call. *)
Definition output_key (m : CustomDatasetMapper) (d : loc) (w : world)
    (key : string) : option value :=
  output m d w ≫= fun r => r !! key.

(** The new events of a call. *)
Definition events (m : CustomDatasetMapper) (d : loc) (w : world)
  : list event :=
  drop (length (log w)) (log (call m d w).2).

(** Records without annotations: only a file name; a source that no
    table has; labels of their own. *)
Definition record4 : record := {[ "file_name" := VStr "c.jpg" ]}.
Definition record5 : record :=
  {[ "file_name" := VStr "d.jpg"; "dataset_source" := VInt 5 ]}.
Definition record6 : record :=
  {[ "file_name" := VStr "e.jpg"; "dataset_source" := VInt 0;
     "pos_category_ids" := VList [IInt 3; IInt 1] ]}.

Definition world2 : world := mkWorld [record4; record5; record6] [] [].

(** Training with annotation types, one shared pipeline. *)
Definition args_ann : init_args :=
  mkInitArgs true true ["box"; "image"] false [] false false "" "" kw.
(** Inference with annotation types. *)
Definition args_ann_eval : init_args :=
  mkInitArgs false true ["box"; "image"] false [] false false "" "" kw.
(** Training, one pipeline per dataset source, no annotation types. *)
Definition args_diff_plain : init_args :=
  mkInitArgs true false [] true [[1]; [2; 3]] false false "" "" kw.

(** The configuration values are integers; the builder makes a
    pipeline of the two values it is given, and rejects a minimum size
    above the maximum. *)
#[export] Instance toy_config_types : ConfigTypes := {|
  cfg_base := base_kwargs; scale_t := Z; size_t := Z;
  min_size_t := Z; max_size_t := Z |}.

#[export] Instance toy_config : ConfigCollaborators := {|
  DatasetMapper_from_config c tr := Ok (tr, cfg_rest c);
  build_custom_augmentation c tr q :=
    match q with
    | ScaleSize s z => Ok [s; z]
    | MinMaxSize lo hi => if lo <=? hi then Ok [lo; hi] else Err AssertionError
    end;
|}.

(** Three scales and two sizes. *)
Definition cfg_crop : CfgNode :=
  mkCfg kw true false "EfficientDetResizeCrop" ["box"; "image"] true false
        "" "" [1; 2; 3] [10; 20] [] [].
Definition cfg_edge : CfgNode :=
  mkCfg kw true false "ResizeShortestEdge" ["box"; "image"] true false
        "" "" [] [] [4; 5] [40; 50].
(** A custom augmentation that [from_config] does not know. *)
Definition cfg_other : CfgNode :=
  mkCfg kw true false "RandomCrop" ["box"] true false "" "" [1] [10] [] [].
(** The archive-backed source. *)
Definition cfg_tar : CfgNode :=
  mkCfg kw true false "ResizeShortestEdge" ["box"] false true
        "x.tar" "idx" [] [] [] [].

End Toy.

(** * The properties *)

Section Properties.
Context `{L : Detectron2Laws}.
Local Open Scope monad_scope.

Lemma bind_eq_ok {A B} (m : M A) (f : A -> M B) w a w1 :
  m w = (Ok a, w1) -> bind m f w = f a w1.
Proof. unfold bind. by intros ->. Qed.

Lemma bind_eq_err {A B} (m : M A) (f : A -> M B) w e w1 :
  m w = (Err e, w1) -> bind m f w = (Err e, w1).
Proof. unfold bind. by intros ->. Qed.

Lemma init_tar_dataset a self : init a = Ok self -> tar_dataset self = None.
Proof.
  unfold init. destruct (arg_use_tar_dataset a); [done|].
  destruct (DatasetMapper_init _ _); simpl; [|done].
  by intros [= <-].
Qed.

(** C4.  Construction with [use_tar_dataset] set raises
    [NotImplementedError], so that no instance exists that could produce
    a sample; with [use_tar_dataset] unset that error is not raised, and
    construction succeeds whenever the base class constructor does. *)
Theorem init_use_tar_dataset (a : init_args) :
  (arg_use_tar_dataset a = true ->
   init a = Err (NotImplementedError "Using tar dataset not supported") /\
   forall self, init a ≠ Ok self) /\
  (arg_use_tar_dataset a = false ->
   (forall msg, init a ≠ Err (NotImplementedError msg) \/
                DatasetMapper_init (arg_is_train a) (arg_kwargs a)
                = Err (NotImplementedError msg)) /\
   (forall b, DatasetMapper_init (arg_is_train a) (arg_kwargs a) = Ok b ->
              exists self, init a = Ok self /\ base self = b /\
                           use_tar_dataset self = false)).
Proof.
  unfold init. split; intros Ht; rewrite Ht.
  - split; [done|]. intros self. discriminate.
  - split.
    + intros msg.
      destruct (DatasetMapper_init _ _) as [b|e]; simpl; [by left|].
      destruct e; try (left; discriminate).
      destruct (decide (msg0 = msg)) as [->|]; [by right|].
      left. congruence.
    + intros b ->. simpl. eexists. split_and!; try done.
Qed.

(** C9.  An instance that [__init__] has built has no [tar_dataset]
    attribute, so a call on a record without [file_name] raises before
    any collaborator is called: no output record is produced.  (The
    exception is the [AttributeError] whenever the record's annotation
    references are those of existing annotations.) *)
Theorem call_without_file_name_fails (a : init_args)
    (self : CustomDatasetMapper) (d : loc) (w : world) (r : record) :
  init a = Ok self ->
  recs w !! d = Some r ->
  r !! "file_name" = None ->
  exists e w',
    call self d w = (Err e, w') /\
    log w' = log w /\
    (Forall (fun la => is_Some (anns w !! la)) (record_refs r) ->
     e = AttributeError "tar_dataset").
Proof.
  intros Hinit Hr Hfn. apply init_tar_dataset in Hinit.
  rewrite call_unfold.
  destruct (deepcopy d w) as [res w1] eqn:E. pose proof E as E0.
  apply (deepcopy_inv _ _ _ _ _ Hr) in E0
    as [(-> & -> & Hnf)|(copies & Hc & -> & ->)].
  { exists Dangling, w. split_and!; [by apply bind_eq_err|done|done]. }
  rewrite (bind_eq_ok _ _ _ _ _ E).
  pose proof (copied_world_here w r copies) as Hd.
  pose proof (copied_world_recs w r copies) as Hr1.
  rewrite <- (st_id _ _ _ Hr1).
  destruct (load_image self (length (recs w))
              (st (copied_world w r copies) (length (recs w))
                  (copy_record w r) (anns (copied_world w r copies)) []))
    as [res w2] eqn:E2.
  pose proof E2 as E'.
  apply (load_image_st self _ _ Hd) in E' as (r2 & -> & _ & Hfail).
  destruct Hfail as [-> ->]; [|done|].
  { rewrite copy_record_lookup, Hfn. done. }
  eexists _, _. split_and!; [by apply bind_eq_err| |done].
  simpl. by rewrite app_nil_r.
Qed.

Lemma not_full_labeled_absent self w0 d r a e :
  (d < length (recs w0))%nat ->
  r !! "dataset_source" = None ->
  not_full_labeled self d (st w0 d r a e) = (Ok false, st w0 d r a e).
Proof.
  intros Hd Hr. unfold not_full_labeled, bind.
  rewrite rec_contains_st by done. rewrite bool_decide_eq_false_2; [done|].
  rewrite Hr. by intros [? ?].
Qed.

(** C10.  With [use_diff_bs_size] set, in training mode and without
    [is_debug], a call on a record that has no [dataset_source] returns
    no output record and applies no pipeline; once the image and the
    label map are loaded, the exception is the [KeyError] of the lookup
    [dataset_dict['dataset_source']] that selects the pipeline. *)
Theorem dataset_source_required (self : CustomDatasetMapper)
    (d : loc) (w : world) (r : record) :
  use_diff_bs_size self = true ->
  is_train self = true ->
  is_debug self = false ->
  is_Some (dataset_augs self) ->
  recs w !! d = Some r ->
  r !! "dataset_source" = None ->
  exists e w',
    call self d w = (Err e, w') /\
    log w' = log w /\
    (forall d1 w1 img w2 sem w3,
       deepcopy d w = (Ok d1, w1) ->
       load_image self d1 w1 = (Ok img, w2) ->
       load_sem_seg d1 w2 = (Ok sem, w3) ->
       e = KeyError "dataset_source").
Proof.
  intros Hdiff Htrain Hdebug Haugs Hr Hsrc.
  rewrite call_unfold.
  destruct (deepcopy d w) as [res w1] eqn:E1. pose proof E1 as E.
  apply (deepcopy_inv _ _ _ _ _ Hr) in E
    as [(-> & -> & Hnf)|(copies & Hc & -> & ->)].
  { exists Dangling, w. split_and!; [by apply bind_eq_err|done|].
    intros; congruence. }
  rewrite (bind_eq_ok _ _ _ _ _ E1).
  pose proof (copied_world_here w r copies) as Hd.
  pose proof (copied_world_recs w r copies) as Hr1.
  set (w1 := copied_world w r copies) in *.
  set (d1 := length (recs w)) in *.
  (* the image *)
  destruct (load_image self d1 w1) as [res w2] eqn:E2. pose proof E2 as E.
  rewrite <- (st_id _ _ _ Hr1) in E.
  apply (load_image_st self _ _ Hd) in E as (r2 & -> & Hf2 & _).
  destruct res as [img|e].
  2:{ exists e, (st w1 d1 r2 (anns w1) []).
      split_and!; [by apply bind_eq_err|simpl; by rewrite app_nil_r|].
      intros; congruence. }
  rewrite (bind_eq_ok _ _ _ _ _ E2).
  (* the label map *)
  destruct (load_sem_seg d1 (st w1 d1 r2 (anns w1) [])) as [res w3] eqn:E3.
  pose proof E3 as E. apply (load_sem_seg_st _ _ Hd) in E as ->.
  destruct res as [sem|e].
  2:{ eexists e, _.
      split_and!; [by apply bind_eq_err|simpl; by rewrite app_nil_r|].
      intros; congruence. }
  rewrite (bind_eq_ok _ _ _ _ _ E3).
  (* the debugging source is not forced *)
  erewrite bind_eq_ok by apply (force_debug_source_st self _ _ Hd).
  rewrite Hdebug.
  assert (Hnone : delete "sem_seg_file_name" r2 !! "dataset_source" = None).
  { rewrite lookup_delete_ne by done. rewrite Hf2 by done.
    by rewrite copy_record_lookup, Hsrc. }
  erewrite bind_eq_ok by (by apply not_full_labeled_absent).
  (* the selection of the pipeline *)
  destruct (augment self d1 img sem
              (st w1 d1 (delete "sem_seg_file_name" r2) (anns w1) []))
    as [res w4] eqn:E4. pose proof E4 as E.
  apply (augment_st self _ _ Hd) in E as (evs & -> & _ & _ & Hkey).
  destruct Hkey as [-> ->]; [by rewrite Hdiff, Htrain|done|done|].
  eexists _, _. split_and!; [by apply bind_eq_err|simpl; by rewrite app_nil_r|].
  done.
Qed.

Ltac not_in_keys :=
  let Hin := fresh "Hin" in
  unfold assembled_keys, proposal_keys; simpl; intros Hin;
  repeat (apply elem_of_cons in Hin as [Hin|Hin]; [done|]);
  by apply elem_of_nil in Hin.

Lemma copy_value_int w (r : record) v i :
  copy_value w r v = VInt i -> v = VInt i.
Proof. by destruct v. Qed.

(** C3.  In inference mode the output record has no [annotations] and
    no [sem_seg_file_name], whatever the input record held, and it has
    no [instances]: an input record has none, [instances] being a key
    of output records, and the call adds none.  The only collaborator
    event of the call is the application of the pipeline: no annotation
    is remapped and no instance collection is built. *)
Theorem inference_output (self : CustomDatasetMapper)
    (d : loc) (w : world) (r : record) (out : loc) (w' : world) :
  is_train self = false ->
  recs w !! d = Some r ->
  call self d w = (Ok out, w') ->
  exists rout p,
    recs w' !! out = Some rout /\
    rout !! "annotations" = None /\
    rout !! "sem_seg_file_name" = None /\
    (r !! "instances" = None -> rout !! "instances" = None) /\
    log w' = log w ++ [EvAugment p] /\
    annotation_events [EvAugment p] = [].
Proof.
  intros Ht Hr H.
  apply (call_prefix self _ _ _ _ _ Hr) in H
    as [[? _]|(copies & Hc & [(r' & evs & ? & _)|
                              (r4 & r6 & p & tf & img & Hw & Hsel & Hf6 & H)])];
    try done.
  pose proof (copied_world_here w r copies) as Hd.
  rewrite after_assemble_inference in H by done. mdone H.
  eexists _, p. split_and!.
  - by apply recs_st.
  - rewrite lookup_delete_ne by done. apply lookup_delete_eq.
  - apply lookup_delete_eq.
  - intros Hi. rewrite !lookup_delete_ne by done.
    rewrite Hf6 by not_in_keys.
    rewrite (working_lookup self w r r4) by (done || not_in_keys).
    by rewrite Hi.
  - done.
  - done.
Qed.

(** C1.  Without [use_diff_bs_size], or outside training mode, the one
    pipeline a call ever applies is [self.augmentations], whatever the
    record's [dataset_source], and a call that returns has applied it
    exactly once.  With [use_diff_bs_size] in training mode, a call that
    returns has applied exactly one pipeline, the one at index
    [dataset_source] of [dataset_augs], where [dataset_source] is the
    source the output record carries: the input record's, unless
    [is_debug] forces it. *)
Theorem pipeline_selection (self : CustomDatasetMapper)
    (d : loc) (w : world) (r : record) (res : result loc) (w' : world) :
  recs w !! d = Some r ->
  call self d w = (res, w') ->
  exists evs,
    log w' = log w ++ evs /\
    (use_diff_bs_size self && is_train self = false ->
     (forall p, p ∈ applied_pipelines evs -> p = augmentations self) /\
     (is_ok res = true -> applied_pipelines evs = [augmentations self])) /\
    (use_diff_bs_size self && is_train self = true ->
     forall out, res = Ok out ->
     exists rout augs src p,
       recs w' !! out = Some rout /\
       dataset_augs self = Some augs /\
       rout !! "dataset_source" = Some src /\
       py_getitem augs src = Ok p /\
       applied_pipelines evs = [p] /\
       (is_debug self = false -> r !! "dataset_source" = Some src)).
Proof.
  intros Hr H.
  apply (call_prefix self _ _ _ _ _ Hr) in H
    as [[-> ->]|(copies & Hc & [(r' & evs & Hres & -> & _ & Hevs)|
                              (r4 & r6 & p & tf & img & Hw & Hsel & Hf6 & H)])].
  - exists []. rewrite app_nil_r. split_and!; [done| |done].
    intros _. split; [|done]. intros p Hp. by apply elem_of_nil in Hp.
  - exists evs. split_and!; [done| |].
    + intros Hb. split; [|by rewrite Hres].
      destruct Hevs as [->|(p & r4 & -> & _ & Hsel)].
      * intros p Hp. by apply elem_of_nil in Hp.
      * unfold selected in Hsel. rewrite Hb in Hsel. subst p.
        intros p Hp. simpl in Hp. by apply list_elem_of_singleton in Hp.
    + intros _ out ->. done.
  - pose proof (copied_world_here w r copies) as Hd.
    unfold selected in Hsel.
    destruct (is_train self) eqn:Ht.
    + apply after_assemble_train in H
        as (r7 & r8 & r9 & a7 & evs & -> & _ & _ & Hap & Hf7 & Hf8 & Hf9 & Hok);
        [|done|done].
      exists ([EvAugment p] ++ evs). split_and!; [done| |].
      * intros Hb. rewrite Hb in Hsel. subst p.
        rewrite applied_pipelines_app, Hap. simpl. split; [|done].
        intros p Hp. by apply list_elem_of_singleton in Hp.
      * intros Hb out ->. rewrite Hb in Hsel.
        destruct Hsel as (augs & src & Haugs & Hsrc & Hp).
        destruct (Hok _ eq_refl) as (-> & _).
        exists r9, augs, src, p. split_and!; try done.
        -- by apply recs_st.
        -- rewrite Hf9, Hf8, Hf7, Hf6 by (done || not_in_keys). done.
        -- by rewrite applied_pipelines_app, Hap.
        -- intros Hdb. rewrite (working_source self w r r4 Hw), Hdb in Hsrc.
           destruct (r !! "dataset_source") as [v|]; [|done].
           injection Hsrc as Hv. destruct src; try done.
           by apply copy_value_int in Hv as ->.
    + rewrite after_assemble_inference in H by done. mdone H.
      rewrite andb_false_r in Hsel. subst p.
      exists [EvAugment (augmentations self)]. split_and!; [done| |].
      * intros _. split; [|done].
        intros p Hp. simpl in Hp. by apply list_elem_of_singleton in Hp.
      * rewrite andb_false_r. done.
Qed.

Lemma working_annotations (self : CustomDatasetMapper) w (r r4 r6 : record) :
  working self w r r4 ->
  (forall k, k ∉ assembled_keys -> r6 !! k = r4 !! k) ->
  r6 !! "annotations" = copy_record w r !! "annotations".
Proof.
  intros Hw Hf6. rewrite Hf6 by not_in_keys.
  rewrite (working_lookup self w r r4) by (done || not_in_keys).
  by rewrite copy_record_lookup.
Qed.

(** C7.  Whatever a call does and however it ends, every record and
    every annotation dictionary that was in the store before the call
    holds afterwards what it held before: the call writes only to the
    copies it has made.  The record it returns is one of these copies, a
    record that was not in the store before. *)
Theorem input_record_unchanged (self : CustomDatasetMapper)
    (d : loc) (w : world) (res : result loc) (w' : world) :
  call self d w = (res, w') ->
  (forall l, (l < length (recs w))%nat -> recs w' !! l = recs w !! l) /\
  (forall l, (l < length (anns w))%nat -> anns w' !! l = anns w !! l) /\
  (forall out, res = Ok out ->
     recs w !! out = None /\ is_Some (recs w' !! out)).
Proof.
  intros H. destruct (recs w !! d) as [r|] eqn:Hr.
  2:{ rewrite call_unfold in H.
      assert (E : deepcopy d w = (Err Dangling, w)).
      { unfold deepcopy. by rewrite Hr. }
      rewrite (bind_eq_err _ _ _ _ _ E) in H. by mdone H. }
  assert (Hst : forall r' a' evs copies w2,
    (forall l, (l < length (anns w))%nat -> a' !! l = anns w !! l) ->
    w2 = st (copied_world w r copies) (length (recs w)) r' a' evs ->
    (forall l, (l < length (recs w))%nat -> recs w2 !! l = recs w !! l) /\
    (forall l, (l < length (anns w))%nat -> anns w2 !! l = anns w !! l) /\
    recs w !! length (recs w) = None /\
    is_Some (recs w2 !! length (recs w))).
  { clear. intros r' a' evs copies w2 Ha ->. split_and!.
    - intros l Hl. rewrite recs_st_ne by lia. simpl.
      by rewrite lookup_app_l.
    - done.
    - by apply lookup_ge_None.
    - rewrite recs_st; [done|]. apply copied_world_here. }
  assert (Hold : forall copies l, (l < length (anns w))%nat ->
    anns (copied_world w r copies) !! l = anns w !! l).
  { intros copies l Hl. simpl. by rewrite lookup_app_l. }
  destruct (call_prefix self _ _ _ _ _ Hr H)
    as [[Hres Hw']|(copies & Hc & [(r' & evs & Hres & Hw' & _)|
                              (r4 & r6 & p & tf & img & Hw & Hsel & Hf6 & H')])];
    clear H.
  - subst w' res. done.
  - destruct (Hst r' _ evs copies w' (Hold copies) Hw') as (? & ? & _).
    split_and!; try done. intros out ->. done.
  - pose proof (copied_world_here w r copies) as Hd.
    destruct (is_train self) eqn:Ht.
    + apply after_assemble_train in H'
        as (r7 & r8 & r9 & a7 & evs & Hw' & Hlen & Hfr & _ & _ & _ & _ & Hok);
        [|done|done].
      destruct (Hst r9 a7 ([EvAugment p] ++ evs) copies w')
        as (? & ? & ? & ?); [|done|].
      { intros l Hl. rewrite Hfr; [by apply Hold|].
        intros v Hv Hin.
        rewrite (working_annotations self w r r4 r6 Hw Hf6) in Hv.
        pose proof (copy_record_fresh w r _ v l Hv Hin). lia. }
      split_and!; try done. intros out Hout.
      by destruct (Hok out Hout) as (-> & _).
    + rewrite after_assemble_inference in H' by done. mdone H'.
      destruct (Hst (delete "sem_seg_file_name" (delete "annotations" r6))
                  _ [EvAugment p] copies _ (Hold copies) eq_refl)
        as (? & ? & ? & ?).
      split_and!; try done. by intros out [= <-].
Qed.

(** [sorted(set(xs))]: strictly increasing, with the elements of [xs]. *)
Lemma elem_of_insert_sorted x y l : y ∈ insert_sorted x l <-> y = x \/ y ∈ l.
Proof.
  induction l as [|z l IH]; simpl.
  - rewrite list_elem_of_singleton. set_solver.
  - destruct (x <=? z).
    + rewrite elem_of_cons. done.
    + rewrite !elem_of_cons, IH. tauto.
Qed.

Lemma insert_sorted_lt x l :
  x ∉ l -> StronglySorted Z.lt l -> StronglySorted Z.lt (insert_sorted x l).
Proof.
  intros Hx Hs. induction Hs as [|z l Hs IH Hz]; simpl.
  - repeat constructor.
  - apply not_elem_of_cons in Hx as [Hxz Hx].
    destruct (Z.leb_spec x z) as [Hle|Hgt].
    + constructor; [by constructor|].
      constructor; [lia|].
      eapply Forall_impl; [exact Hz|]. intros; simpl in *; lia.
    + constructor; [by apply IH|].
      apply Forall_forall. intros y Hy.
      apply elem_of_insert_sorted in Hy as [->|Hy]; [lia|].
      by eapply Forall_forall in Hz.
Qed.

Lemma elem_of_py_sorted y l : y ∈ py_sorted l <-> y ∈ l.
Proof.
  unfold py_sorted. induction l as [|x l IH]; simpl; [done|].
  rewrite elem_of_insert_sorted, IH, elem_of_cons. done.
Qed.

Lemma sorted_set_sorted l : StronglySorted Z.lt (sorted_set l).
Proof.
  unfold sorted_set, py_set.
  pose proof (NoDup_remove_dups l) as Hnd.
  induction Hnd as [|x l' Hx Hnd IH]; simpl; [constructor|].
  apply insert_sorted_lt; [|done].
  by rewrite (elem_of_py_sorted x l').
Qed.

Lemma elem_of_sorted_set y l : y ∈ sorted_set l <-> y ∈ l.
Proof.
  unfold sorted_set, py_set. by rewrite elem_of_py_sorted, elem_of_remove_dups.
Qed.

Lemma copy_value_empty w (r : record) v :
  copy_value w r v = VList [] <-> v = VList [].
Proof.
  split; [|by intros ->].
  destruct v as [| |[|]| | |]; done.
Qed.

(** C6.  With [is_debug], the output record of a call carries
    [dataset_source] 0; in training mode, when the input record has no
    [pos_category_ids] or an empty one, the output record's
    [pos_category_ids] is the sorted list of the distinct classes of its
    instance collection. *)
Theorem debug_labels (self : CustomDatasetMapper)
    (d : loc) (w : world) (r : record) (out : loc) (w' : world) :
  is_debug self = true ->
  recs w !! d = Some r ->
  call self d w = (Ok out, w') ->
  exists rout,
    recs w' !! out = Some rout /\
    rout !! "dataset_source" = Some (VInt 0) /\
    (is_train self = true -> no_pos_category_ids r ->
     exists inst cs,
       rout !! "instances" = Some (VInstances inst) /\
       gt_classes inst = Some cs /\
       rout !! "pos_category_ids" = Some (VList (IInt <$> sorted_set cs)) /\
       StronglySorted Z.lt (sorted_set cs) /\
       (forall c, c ∈ sorted_set cs <-> c ∈ cs)).
Proof.
  intros Hdb Hr H.
  destruct (call_prefix self _ _ _ _ _ Hr H)
    as [[? _]|(copies & Hc & [(r' & evs & ? & _)|
                              (r4 & r6 & p & tf & img & Hw & Hsel & Hf6 & H')])];
    try done.
  clear H. pose proof (copied_world_here w r copies) as Hd.
  assert (Hsrc : r6 !! "dataset_source" = Some (VInt 0)).
  { rewrite Hf6 by not_in_keys.
    by rewrite (working_source self w r r4 Hw), Hdb. }
  destruct (is_train self) eqn:Ht.
  2:{ rewrite after_assemble_inference in H' by done. mdone H'.
      eexists. split_and!; [by apply recs_st| |done].
      by rewrite !lookup_delete_ne. }
  apply after_assemble_train in H'
    as (r7 & r8 & r9 & a7 & evs & -> & _ & _ & _ & Hf7 & Hf8 & Hf9 & Hok);
    [|done|done].
  destruct (Hok _ eq_refl) as (-> & Hb & (Hoff & Hon) & (_ & _ & Hfill)).
  exists r9. split_and!; [by apply recs_st| |].
  { by rewrite Hf9, Hf8, Hf7. }
  intros _ Hno.
  assert (Hno7 : no_pos_category_ids r7).
  { unfold no_pos_category_ids. rewrite Hf7, Hf6 by (done || not_in_keys).
    rewrite (working_lookup self w r r4) by (done || not_in_keys).
    destruct Hno as [->| ->]; [by left|by right]. }
  assert (Hno8 : no_pos_category_ids r8).
  { destruct (with_ann_type self) eqn:Hwa.
    - destruct (Hon eq_refl) as (Hpos & _). right. rewrite Hpos.
      by destruct Hno7 as [->| ->].
    - by rewrite (Hoff eq_refl). }
  destruct (Hfill Hdb Hno8) as (inst & cs & Hinst & Hcs & Hpos).
  exists inst, cs. split_and!; try done.
  - by rewrite Hf9.
  - apply sorted_set_sorted.
  - intros c. apply elem_of_sorted_set.
Qed.

Lemma select_fmap {A B} (f : A -> B) keep (xs : list A) :
  select keep (f <$> xs) = f <$> select keep xs.
Proof.
  revert xs. induction keep as [|k keep IH]; intros [|x xs]; simpl; try done.
  destruct k; simpl; by rewrite IH.
Qed.

(** Indexing keeps a box next to the mask it was computed from. *)
Lemma instances_getitem_boxes inst keep inst' ms :
  gt_masks inst = Some ms ->
  gt_boxes inst = Some (get_bounding_boxes ms) ->
  instances_getitem inst keep = Ok inst' ->
  exists ms',
    gt_masks inst' = Some ms' /\
    gt_boxes inst' = Some (get_bounding_boxes ms').
Proof.
  unfold instances_getitem, index_column. intros Hm Hb.
  rewrite Hm, Hb. unfold get_bounding_boxes. rewrite length_fmap.
  destruct (decide (length keep = length ms)); [|done]. simpl.
  destruct (gt_classes inst) as [cs|]; simpl.
  - destruct (decide (length keep = length cs)); [|done]. simpl.
    destruct (gt_keypoints inst) as [ks|]; simpl.
    + destruct (decide (length keep = length ks)); [|done]. simpl.
      intros [= <-]. simpl. eexists. split; [done|]. by rewrite select_fmap.
    + intros [= <-]. simpl. eexists. split; [done|]. by rewrite select_fmap.
  - destruct (gt_keypoints inst) as [ks|]; simpl.
    + destruct (decide (length keep = length ks)); [|done]. simpl.
      intros [= <-]. simpl. eexists. split; [done|]. by rewrite select_fmap.
    + intros [= <-]. simpl. eexists. split; [done|]. by rewrite select_fmap.
Qed.

Lemma recomputed_then_filtered (self : CustomDatasetMapper) inst0 inst1 inst :
  recompute_boxes self = true ->
  recompute_gt_boxes self inst0 = Ok inst1 ->
  filter_empty_instances inst1 = Ok inst ->
  exists ms,
    gt_masks inst = Some ms /\
    gt_boxes inst = Some (get_bounding_boxes ms).
Proof.
  unfold recompute_gt_boxes, set_gt_boxes. intros -> Hr Hf.
  destruct (gt_masks inst0) as [ms0|] eqn:Hm; [|done].
  assert (Hm1 : gt_masks inst1 = Some ms0 /\
                gt_boxes inst1 = Some (get_bounding_boxes ms0)).
  { destruct (instances_len inst0) as [n|].
    - destruct (decide (n = length (get_bounding_boxes ms0))); [|done].
      by injection Hr as <-.
    - by injection Hr as <-. }
  destruct Hm1 as [Hm1 Hb1].
  unfold filter_empty_instances in Hf. rewrite Hb1, Hm1 in Hf.
  destruct (tensor_and _ _) as [keep|]; [|done]. simpl in Hf.
  by eapply instances_getitem_boxes.
Qed.

(** C8.  In training mode with [recompute_boxes], the instance
    collection of the output record of a record with annotations has a
    mask column, and its box column holds, instance by instance, the
    bounding box of the mask. *)
Theorem recomputed_boxes (self : CustomDatasetMapper)
    (d : loc) (w : world) (r : record) (out : loc) (w' : world) :
  is_train self = true ->
  recompute_boxes self = true ->
  recs w !! d = Some r ->
  is_Some (r !! "annotations") ->
  call self d w = (Ok out, w') ->
  exists rout inst bs ms,
    recs w' !! out = Some rout /\
    rout !! "instances" = Some (VInstances inst) /\
    gt_boxes inst = Some bs /\
    gt_masks inst = Some ms /\
    Forall2 (fun b m => b = bounding_box m) bs ms.
Proof.
  intros Ht Hrec Hr [v0 Hv0] H.
  destruct (call_prefix self _ _ _ _ _ Hr H)
    as [[? _]|(copies & Hc & [(r' & evs & ? & _)|
                              (r4 & r6 & p & tf & img & Hw & Hsel & Hf6 & H')])];
    try done.
  clear H. pose proof (copied_world_here w r copies) as Hd.
  apply after_assemble_train in H'
    as (r7 & r8 & r9 & a7 & evs & -> & _ & _ & _ & Hf7 & Hf8 & Hf9 & Hok);
    [|done|done].
  destruct (Hok _ eq_refl) as (-> & (_ & Hb) & _ & _).
  assert (Hv : r6 !! "annotations" = Some (copy_value w r v0)).
  { rewrite (working_annotations self w r r4 r6 Hw Hf6).
    by rewrite copy_record_lookup, Hv0. }
  destruct (Hb _ Hv) as (_ & objs & inst0 & inst1 & inst & _ & Hre & Hfi & Hi & _).
  destruct (recomputed_then_filtered self inst0 inst1 inst Hrec Hre Hfi)
    as (ms & Hms & Hbs).
  exists r9, inst, (get_bounding_boxes ms), ms. split_and!; try done.
  - by apply recs_st.
  - by rewrite Hf9, Hf8.
  - unfold get_bounding_boxes. apply Forall2_fmap_l.
    apply Forall2_same_length_lookup. split; [done|].
    intros i x y Hx Hy. congruence.
Qed.

(** Remapping keeps the [iscrowd] flag of an annotation. *)
Lemma noncrowd_remapped (self : CustomDatasetMapper) old new tf shp h :
  transform_instance_annotations (strip_anno self old) tf shp h = Ok new ->
  noncrowd new = noncrowd old.
Proof.
  intros Ht. apply transform_keeps_iscrowd in Ht.
  unfold noncrowd, crowd_flag. by rewrite Ht, strip_anno_iscrowd.
Qed.

Lemma kept_by_original_flag (olds news : list anno) :
  Forall2 (fun old new => noncrowd new = noncrowd old) olds news ->
  filter (fun n => noncrowd n = true) news =
  (filter (fun on : anno * anno => noncrowd on.1 = true) (zip olds news)).*2.
Proof.
  intros H. induction H as [|old new olds news Hn H IH]; [done|].
  simpl. rewrite !filter_cons. simpl. rewrite Hn.
  destruct (decide (noncrowd old = true)); simpl; by rewrite IH.
Qed.

(** The annotations the working copy refers to hold what the
    annotations of the input record hold. *)
Lemma copied_annotations w (r : record) copies k las olds :
  Forall2 (fun la c => anns w !! la = Some c) (record_refs r) copies ->
  r !! k = Some (VList (IAnno <$> las)) ->
  Forall2 (fun la old => (anns w ++ copies) !! la = Some old)
          (memo (length (anns w)) (record_refs r) <$> las) olds ->
  Forall2 (fun la old => anns w !! la = Some old) las olds.
Proof.
  intros Hc Hk H. apply Forall2_fmap_l in H.
  assert (Hin : forall la, la ∈ las -> la ∈ record_refs r).
  { intros la Hla. eapply value_refs_in_record; [done|].
    simpl. apply list_elem_of_bind. exists (IAnno la).
    split; [simpl; by left|]. by apply list_elem_of_fmap_2. }
  clear Hk. induction H as [|la old las olds Hla H IH]; constructor.
  - rewrite <- Hla. symmetry. apply memo_lookup; [done|].
    apply Hin. by left.
  - apply IH. intros la' Hla'. apply Hin. by right.
Qed.

Lemma copied_annotations_NoDup w (r : record) k las :
  r !! k = Some (VList (IAnno <$> las)) ->
  NoDup las ->
  NoDup (memo (length (anns w)) (record_refs r) <$> las).
Proof.
  intros Hk Hnd. apply NoDup_fmap_2_strong; [|done].
  intros x y Hx _ Heq. eapply memo_inj; [|done].
  eapply value_refs_in_record; [done|].
  simpl. apply list_elem_of_bind. exists (IAnno x).
  split; [simpl; by left|]. by apply list_elem_of_fmap_2.
Qed.

(** An annotation that is not a crowd, in the words of the
    specification: its [iscrowd] is 0, or it has no [iscrowd] field. *)
Definition iscrowd_zero_or_absent (a : anno) : Prop :=
  a !! "iscrowd" = Some (FInt 0) \/ a !! "iscrowd" = None.

#[global] Instance iscrowd_zero_or_absent_dec (a : anno) :
  Decision (iscrowd_zero_or_absent a).
Proof.
  unfold iscrowd_zero_or_absent.
  destruct (a !! "iscrowd") as [[n|q]|].
  - destruct (decide (n = 0)) as [->|Hn].
    + left. by left.
    + right. intros [[= ?]|[=]]. done.
  - right. intros [[=]|[=]].
  - left. by right.
Defined.

(** The test of line 155 on the flag that line 152 reads holds of the
    annotations whose [iscrowd] is 0 or absent, and of no other. *)
Lemma noncrowd_spec (a : anno) :
  noncrowd a = true <-> iscrowd_zero_or_absent a.
Proof.
  unfold noncrowd, crowd_flag, iscrowd_zero_or_absent, is_zero.
  destruct (a !! "iscrowd") as [[n|q]|]; simpl.
  - rewrite Z.eqb_eq. split; [intros ->; by left|]. by intros [[= ->]|[=]].
  - split; [done|]. by intros [[=]|[=]].
  - split; [by right|done].
Qed.

(** C2.  In training mode, for a record whose [annotations] is a list
    of distinct annotation dictionaries: every annotation, crowd or not,
    is stripped of the fields the model does not use and remapped
    through the transform of the call, once and in the order of the
    list.  The instance collection of the output record is built from
    the remapped annotations of those whose [iscrowd] is 0 or absent, in
    their order, and from no other: each such annotation is among the
    ones handed to the builder, and no annotation whose [iscrowd] is 1
    is.  The collection then has its boxes recomputed if so configured
    and its empty instances filtered out. *)
Theorem crowd_annotations_dropped (self : CustomDatasetMapper)
    (d : loc) (w : world) (r : record) (las : list loc)
    (out : loc) (w' : world) :
  is_train self = true ->
  recs w !! d = Some r ->
  r !! "annotations" = Some (VList (IAnno <$> las)) ->
  NoDup las ->
  call self d w = (Ok out, w') ->
  exists rout p tf shp olds news inst0 inst1 inst,
    let kept :=
      (filter (fun on : anno * anno => iscrowd_zero_or_absent on.1)
              (zip olds news)).*2 in
    recs w' !! out = Some rout /\
    Forall2 (fun la old => anns w !! la = Some old) las olds /\
    Forall2 (fun old new =>
               transform_instance_annotations
                 (strip_anno self old) tf shp (keypoint_hflip_indices self)
               = Ok new) olds news /\
    log w' = log w ++ [EvAugment p]
               ++ (EvRemap <$> (strip_anno self <$> olds))
               ++ [EvBuild kept] /\
    (forall i old new,
       olds !! i = Some old -> news !! i = Some new ->
       iscrowd_zero_or_absent old -> new ∈ kept) /\
    (forall i old new,
       olds !! i = Some old -> news !! i = Some new ->
       old !! "iscrowd" = Some (FInt 1) -> new ∉ kept) /\
    Forall (fun a => a !! "iscrowd" ≠ Some (FInt 1)) kept /\
    annotations_to_instances kept shp (instance_mask_format self) = Ok inst0 /\
    recompute_gt_boxes self inst0 = Ok inst1 /\
    filter_empty_instances inst1 = Ok inst /\
    rout !! "instances" = Some (VInstances inst) /\
    rout !! "annotations" = None.
Proof.
  intros Ht Hr Hann Hnd H.
  destruct (call_prefix self _ _ _ _ _ Hr H)
    as [[? _]|(copies & Hc & [(r' & evs & ? & _)|
                              (r4 & r6 & p & tf & img & Hw & Hsel & Hf6 & H')])];
    try done.
  clear H. pose proof (copied_world_here w r copies) as Hd.
  apply after_assemble_train in H'
    as (r7 & r8 & r9 & a7 & evs & -> & _ & _ & _ & Hf7 & Hf8 & Hf9 & Hok);
    [|done|done].
  destruct (Hok _ eq_refl) as (-> & (_ & Hb) & _ & _).
  set (σ := memo (length (anns w)) (record_refs r)).
  assert (Hv : r6 !! "annotations" = Some (VList (IAnno <$> (σ <$> las)))).
  { rewrite (working_annotations self w r r4 r6 Hw Hf6).
    rewrite copy_record_lookup, Hann. simpl. f_equal.
    apply rename_value_annos. }
  destruct (Hb _ Hv)
    as (Hgone & objs & inst0 & inst1 & inst & Hbu & Hre & Hfi & Hi & Hlist).
  destruct (Hlist (σ <$> las) eq_refl)
    as (olds & news & Holds & Hnews & -> & ->).
  { by eapply copied_annotations_NoDup. }
  assert (Hflag : Forall2 (fun old new => noncrowd new = noncrowd old)
                          olds news).
  { eapply Forall2_impl; [exact Hnews|]. intros old new Htr.
    exact (noncrowd_remapped self old new _ _ _ Htr). }
  assert (Hnot1 : Forall (fun a => a !! "iscrowd" ≠ Some (FInt 1))
                         (filter (fun n => noncrowd n = true) news)).
  { apply Forall_forall. intros a Ha.
    apply list_elem_of_filter in Ha as [Ha _].
    unfold noncrowd, crowd_flag in Ha. intros Hc1. by rewrite Hc1 in Ha. }
  assert (Hkept : filter (fun n => noncrowd n = true) news =
    (filter (fun on : anno * anno => iscrowd_zero_or_absent on.1)
            (zip olds news)).*2).
  { rewrite (kept_by_original_flag olds news Hflag). f_equal.
    apply list_filter_iff. intros [old new]. apply noncrowd_spec. }
  rewrite Hkept in *.
  exists r9, p, tf, (shape2 img), olds, news, inst0, inst1, inst.
  cbv zeta. split_and!; try done.
  - by apply recs_st.
  - by eapply copied_annotations.
  - intros i old new Ho Hn Hz. apply list_elem_of_fmap.
    exists (old, new). split; [done|].
    apply list_elem_of_filter. split; [done|].
    apply list_elem_of_lookup. exists i.
    apply lookup_zip_with_Some. by exists old, new.
  - intros i old new Ho Hn Hc1 Hin.
    assert (Hq : new !! "iscrowd" = Some (FInt 1)).
    { pose proof (Forall2_lookup_lr _ _ _ _ _ _ Hnews Ho Hn) as Htr.
      apply transform_keeps_iscrowd in Htr.
      by rewrite Htr, strip_anno_iscrowd. }
    rewrite Forall_forall in Hnot1. by apply (Hnot1 new Hin).
  - by rewrite Hf9, Hf8.
  - by rewrite Hf9, Hf8.
Qed.

(** The mapper with another table of annotation types. *)
Definition with_dataset_ann (self : CustomDatasetMapper) (ann : list string)
  : CustomDatasetMapper :=
  mkMapper (base self) (with_ann_type self) ann (use_diff_bs_size self)
           (dataset_augs self) (is_debug self) (use_tar_dataset self)
           (tar_dataset self).

(** The [instances] of a record of the store. *)
Definition instances_at (w : world) (d : loc) : option value :=
  recs w !! d ≫= fun r => r !! "instances".

(** What follows [build_instances] leaves the instances alone. *)
Lemma labels_keep_instances (self : CustomDatasetMapper) d1 wb out w' :
  (attach_ann_type self d1 ;;;
   debug_pos_category_ids self d1 ;;;
   ret d1) wb = (Ok out, w') ->
  instances_at w' out = instances_at wb d1.
Proof.
  intros H. unfold instances_at. destruct (recs wb !! d1) as [rb|] eqn:Hrb.
  - assert (Hd : (d1 < length (recs wb))%nat) by by eapply lookup_lt_Some.
    rewrite <- (st_id wb d1 rb Hrb) in H.
    apply bind_ok_inv in H as (u & w1 & E & H).
    apply (attach_ann_type_st self wb d1 Hd) in E as (r8 & -> & Hf8 & _).
    apply bind_ok_inv in H as (u' & w2 & E & H).
    apply (debug_pos_category_ids_st self wb d1 Hd) in E as (r9 & -> & Hf9 & _).
    mdone H. rewrite recs_st by done. simpl. by rewrite Hf9, Hf8.
  - unfold attach_ann_type, debug_pos_category_ids, rec_get, rec_contains,
      rec_load, bind, ret in H.
    destruct (with_ann_type self); cbv beta in H; rewrite ?Hrb in H;
      [done|].
    destruct (is_debug self); cbv beta in H; rewrite ?Hrb in H; [done|].
    mdone H. by rewrite Hrb.
Qed.

(** The table of annotation types has no part in the instances. *)
Lemma instances_independent (self : CustomDatasetMapper) ann' d w
    out w' out2 w2 :
  call self d w = (Ok out, w') ->
  call (with_dataset_ann self ann') d w = (Ok out2, w2) ->
  instances_at w2 out2 = instances_at w' out.
Proof.
  intros H1 H2. rewrite call_unfold in H1, H2.
  (* the deep copy *)
  apply bind_ok_inv in H1 as (d1 & wa & E1 & H1).
  apply bind_ok_inv in H2 as (d2 & wb & E2 & H2).
  pose proof (eq_trans (eq_sym E1) E2) as Heq. injection Heq as <- <-.
  clear E1 E2.
  (* the image *)
  apply bind_ok_inv in H1 as (img & wa1 & E1 & H1).
  apply bind_ok_inv in H2 as (img2 & wb & E2 & H2).
  pose proof (eq_trans (eq_sym E1) E2) as Heq. injection Heq as <- <-.
  clear E1 E2.
  (* the label map *)
  apply bind_ok_inv in H1 as (sem & wa2 & E1 & H1).
  apply bind_ok_inv in H2 as (sem2 & wb & E2 & H2).
  pose proof (eq_trans (eq_sym E1) E2) as Heq. injection Heq as <- <-.
  clear E1 E2.
  (* the debugging source *)
  apply bind_ok_inv in H1 as (u & wa3 & E1 & H1).
  apply bind_ok_inv in H2 as (u2 & wb & E2 & H2).
  pose proof (eq_trans (eq_sym E1) E2) as Heq. injection Heq as <- <-.
  clear E1 E2.
  (* not_full_labeled reads the table, and changes nothing *)
  apply bind_ok_inv in H1 as (b & wa4 & E1 & H1).
  apply bind_ok_inv in H2 as (b2 & wb & E2 & H2).
  apply not_full_labeled_world in E1 as ->.
  apply not_full_labeled_world in E2 as ->.
  (* the pipeline *)
  apply bind_ok_inv in H1 as (aug & wa5 & E1 & H1).
  apply bind_ok_inv in H2 as (aug2 & wb & E2 & H2).
  pose proof (eq_trans (eq_sym E1) E2) as Heq. injection Heq as <- <-.
  clear E1 E2.
  (* the assembly *)
  apply bind_ok_inv in H1 as (u' & wa6 & E1 & H1).
  apply bind_ok_inv in H2 as (u2' & wb & E2 & H2).
  pose proof (eq_trans (eq_sym E1) E2) as Heq. injection Heq as <- <-.
  clear E1 E2.
  unfold after_assemble in H1, H2.
  change (is_train (with_dataset_ann self ann')) with (is_train self) in H2.
  destruct (is_train self); simpl in H1, H2.
  - apply bind_ok_inv in H1 as (v & wa7 & E1 & H1).
    apply bind_ok_inv in H2 as (v2 & wb & E2 & H2).
    pose proof (eq_trans (eq_sym E1) E2) as Heq. injection Heq as <- <-.
    apply labels_keep_instances in H1, H2. congruence.
  - pose proof (eq_trans (eq_sym H1) H2) as Heq. by injection Heq as <- <-.
Qed.

(** C5, as amended.  In training mode with [with_ann_type] and without
    [is_debug], for a record with a [dataset_source]: the output
    record's [pos_category_ids] is the input record's, or the empty list
    if it has none, and its [ann_type] is the entry of [dataset_ann] at
    the record's [dataset_source].  In every mode, the instances of the
    output record are the same whatever the table [dataset_ann] says. *)
Theorem ann_type_attached (self : CustomDatasetMapper)
    (d : loc) (w : world) (r : record) (out : loc) (w' : world) :
  recs w !! d = Some r ->
  call self d w = (Ok out, w') ->
  exists rout,
    recs w' !! out = Some rout /\
    (is_train self = true -> with_ann_type self = true ->
     is_debug self = false ->
     forall src, r !! "dataset_source" = Some src ->
     rout !! "pos_category_ids" =
       Some (copy_value w r (default (VList []) (r !! "pos_category_ids"))) /\
     (forall ids, r !! "pos_category_ids" = Some (VList (IInt <$> ids)) ->
                  rout !! "pos_category_ids" = Some (VList (IInt <$> ids))) /\
     (r !! "pos_category_ids" = None ->
      rout !! "pos_category_ids" = Some (VList [])) /\
     exists t,
       py_getitem (dataset_ann self) src = Ok t /\
       rout !! "ann_type" = Some (VStr t)) /\
    (forall ann' out2 w2,
       call (with_dataset_ann self ann') d w = (Ok out2, w2) ->
       instances_at w2 out2 = rout !! "instances").
Proof.
  intros Hr H.
  assert (Hind : forall ann' out2 w2,
    call (with_dataset_ann self ann') d w = (Ok out2, w2) ->
    instances_at w2 out2 = instances_at w' out).
  { intros ann' out2 w2 H2. by eapply instances_independent. }
  destruct (call_prefix self _ _ _ _ _ Hr H)
    as [[? _]|(copies & Hc & [(r' & evs & ? & _)|
                              (r4 & r6 & p & tf & img & Hw & Hsel & Hf6 & H')])];
    try done.
  clear H. pose proof (copied_world_here w r copies) as Hd.
  destruct (is_train self) eqn:Ht.
  2:{ rewrite after_assemble_inference in H' by done. mdone H'.
      eexists. split_and!; [by apply recs_st|done|].
      intros ann' out2 w2 H2. rewrite (Hind _ _ _ H2).
      unfold instances_at. by rewrite recs_st. }
  apply after_assemble_train in H'
    as (r7 & r8 & r9 & a7 & evs & -> & _ & _ & _ & Hf7 & Hf8 & Hf9 & Hok);
    [|done|done].
  destruct (Hok _ eq_refl) as (-> & _ & (_ & Hon) & (Hoff & _ & _)).
  exists r9. split_and!; [by apply recs_st| |].
  2:{ intros ann' out2 w2 H2. rewrite (Hind _ _ _ H2).
      unfold instances_at. by rewrite recs_st. }
  intros _ Hwa Hdb src Hsrc. rewrite (Hoff Hdb).
  destruct (Hon Hwa) as (Hpos & src' & t & Hsrc' & Ht' & Hty).
  assert (Hpos7 : r7 !! "pos_category_ids"
                  = copy_value w r <$> r !! "pos_category_ids").
  { rewrite Hf7, Hf6 by (done || not_in_keys).
    by rewrite (working_lookup self w r r4) by (done || not_in_keys). }
  assert (Hgen : r8 !! "pos_category_ids" =
    Some (copy_value w r (default (VList []) (r !! "pos_category_ids")))).
  { rewrite Hpos, Hpos7. by destruct (r !! "pos_category_ids"). }
  split_and!.
  - done.
  - intros ids Hids. rewrite Hgen, Hids. simpl. f_equal.
    apply rename_value_ints.
  - intros Hnone. by rewrite Hgen, Hnone.
  - exists t. split; [|done].
    rewrite Hf7, Hf6 in Hsrc' by (done || not_in_keys).
    rewrite (working_source self w r r4 Hw), Hdb, Hsrc in Hsrc'.
    injection Hsrc' as <-.
    destruct src; try done.
Qed.

End Properties.

(** * Construction from a configuration: properties *)

Section FromConfigProperties.
Context `{D : Detectron2} `{C : ConfigTypes} `{CC : !ConfigCollaborators}.

Lemma map_result_ok {A B} (f : A -> result B) l ys :
  map_result f l = Ok ys -> Forall2 (fun x y => f x = Ok y) l ys.
Proof.
  revert ys. induction l as [|x l IH]; intros ys; simpl.
  - intros [= <-]. constructor.
  - destruct (f x) as [y|] eqn:Ef; simpl; [|done].
    destruct (map_result f l) as [ys'|]; simpl; [|done].
    intros [= <-]. constructor; [done|]. by apply IH.
Qed.

Lemma length_zip {A B} (l : list A) (k : list B) :
  length (zip l k) = (length l `min` length k)%nat.
Proof.
  revert k. induction l as [|x l IH]; intros [|y k]; simpl; try done.
  by rewrite IH.
Qed.

(** X1.  When [from_config] builds the per-dataset pipelines, it builds
    one for each pair of the zipped configuration lists, in order: there
    are as many pipelines as the shorter of the two lists has entries,
    the surplus entries of the longer list being ignored. *)
Theorem from_config_dataset_augs (cfg : CfgNode) (is_train : bool)
    (a : init_args) :
  DATALOADER_USE_DIFF_BS_SIZE cfg && is_train = true ->
  from_config cfg is_train = Ok a ->
  (INPUT_CUSTOM_AUG cfg = "EfficientDetResizeCrop" /\
   Forall2 (fun p augs =>
              build_custom_augmentation cfg true (ScaleSize p.1 p.2) = Ok augs)
           (zip (DATALOADER_DATASET_INPUT_SCALE cfg)
                (DATALOADER_DATASET_INPUT_SIZE cfg))
           (arg_dataset_augs a) /\
   length (arg_dataset_augs a) =
     (length (DATALOADER_DATASET_INPUT_SCALE cfg)
      `min` length (DATALOADER_DATASET_INPUT_SIZE cfg))%nat) \/
  (INPUT_CUSTOM_AUG cfg = "ResizeShortestEdge" /\
   Forall2 (fun p augs =>
              build_custom_augmentation cfg true (MinMaxSize p.1 p.2) = Ok augs)
           (zip (DATALOADER_DATASET_MIN_SIZES cfg)
                (DATALOADER_DATASET_MAX_SIZES cfg))
           (arg_dataset_augs a) /\
   length (arg_dataset_augs a) =
     (length (DATALOADER_DATASET_MIN_SIZES cfg)
      `min` length (DATALOADER_DATASET_MAX_SIZES cfg))%nat).
Proof.
  unfold from_config. intros Hb.
  destruct (DatasetMapper_from_config cfg is_train) as [ret|]; simpl; [|done].
  rewrite Hb.
  destruct (String.eqb_spec (INPUT_CUSTOM_AUG cfg) "EfficientDetResizeCrop")
    as [Heq|Hne].
  - destruct (map_result _ _) as [augs|] eqn:Em; simpl; [|done].
    intros [= <-]. simpl. left. apply map_result_ok in Em.
    split_and!; [done|done|].
    rewrite <- (Forall2_length _ _ _ Em). apply length_zip.
  - destruct (String.eqb_spec (INPUT_CUSTOM_AUG cfg) "ResizeShortestEdge")
      as [Heq|Hne2]; [|done].
    destruct (map_result _ _) as [augs|] eqn:Em; simpl; [|done].
    intros [= <-]. simpl. right. apply map_result_ok in Em.
    split_and!; [done|done|].
    rewrite <- (Forall2_length _ _ _ Em). apply length_zip.
Qed.

(** X2.  Without [USE_DIFF_BS_SIZE], or outside training, [from_config]
    builds no pipeline and does not look at [INPUT.CUSTOM_AUG]: it
    succeeds whenever the base class does, with an empty [dataset_augs]
    and the flags of the configuration. *)
Theorem from_config_shared (cfg : CfgNode) (is_train : bool)
    (ret : bool * base_kwargs) :
  DATALOADER_USE_DIFF_BS_SIZE cfg && is_train = false ->
  DatasetMapper_from_config cfg is_train = Ok ret ->
  exists a,
    from_config cfg is_train = Ok a /\
    arg_dataset_augs a = [] /\
    arg_is_train a = ret.1 /\
    arg_kwargs a = ret.2 /\
    arg_with_ann_type a = WITH_IMAGE_LABELS cfg /\
    arg_dataset_ann a = DATALOADER_DATASET_ANN cfg /\
    arg_use_diff_bs_size a = DATALOADER_USE_DIFF_BS_SIZE cfg /\
    arg_is_debug a = IS_DEBUG cfg /\
    arg_use_tar_dataset a = DATALOADER_USE_TAR_DATASET cfg.
Proof.
  unfold from_config. intros Hb ->. simpl. rewrite Hb. simpl.
  eexists. split; [done|]. simpl. split_and!; done.
Qed.

(** X3.  When the per-dataset pipelines are to be built, a custom
    augmentation that is neither ['EfficientDetResizeCrop'] nor
    ['ResizeShortestEdge'] fails the assertion of line 69: no arguments
    are returned, and the builder is not consulted. *)
Theorem from_config_unknown_custom_aug (cfg : CfgNode) (is_train : bool) :
  DATALOADER_USE_DIFF_BS_SIZE cfg && is_train = true ->
  INPUT_CUSTOM_AUG cfg ≠ "EfficientDetResizeCrop" ->
  INPUT_CUSTOM_AUG cfg ≠ "ResizeShortestEdge" ->
  (forall a, from_config cfg is_train ≠ Ok a) /\
  (forall ret, DatasetMapper_from_config cfg is_train = Ok ret ->
               from_config cfg is_train = Err AssertionError).
Proof.
  unfold from_config. intros Hb Hn1 Hn2.
  apply String.eqb_neq in Hn1, Hn2.
  destruct (DatasetMapper_from_config cfg is_train) as [ret|]; simpl.
  - rewrite Hb, Hn1, Hn2. simpl. split; [done|]. by intros ? _.
  - split; [done|]. by intros ? ?.
Qed.

(** X4.  A mapper cannot be built from a configuration that sets
    [USE_TAR_DATASET]: whenever [from_config] itself succeeds, the
    constructor raises [NotImplementedError]. *)
Theorem configurable_init_tar (cfg : CfgNode) (is_train : bool) :
  DATALOADER_USE_TAR_DATASET cfg = true ->
  (forall self, configurable_init cfg is_train ≠ Ok self) /\
  (forall a, from_config cfg is_train = Ok a ->
             configurable_init cfg is_train
             = Err (NotImplementedError "Using tar dataset not supported")).
Proof.
  intros Ht.
  assert (Htar : forall a, from_config cfg is_train = Ok a ->
                           arg_use_tar_dataset a = true).
  { intros a. unfold from_config.
    destruct (DatasetMapper_from_config cfg is_train); simpl; [|done].
    destruct (if _ && _ then _ else _); simpl; [|done].
    by intros [= <-]. }
  unfold configurable_init.
  destruct (from_config cfg is_train) as [a|] eqn:Ea; simpl.
  - unfold init. rewrite (Htar a eq_refl). split; [done|].
    by intros ? [= <-].
  - split; [done|]. by intros ? ?.
Qed.

(** X5.  A mapper built from a configuration has the [dataset_augs]
    attribute exactly when the configuration sets [USE_DIFF_BS_SIZE] and
    the mapper is built for training (the base class handing on the
    training flag it is given); the attribute then holds one pipeline for
    each list of augmentations that [from_config] has built. *)
Theorem configurable_init_dataset_augs (cfg : CfgNode) (is_train : bool)
    (kw : base_kwargs) (self : CustomDatasetMapper) :
  DatasetMapper_from_config cfg is_train = Ok (is_train, kw) ->
  configurable_init cfg is_train = Ok self ->
  exists a,
    from_config cfg is_train = Ok a /\
    use_diff_bs_size self = DATALOADER_USE_DIFF_BS_SIZE cfg /\
    use_tar_dataset self = false /\
    tar_dataset self = None /\
    dataset_augs self =
      (if DATALOADER_USE_DIFF_BS_SIZE cfg && is_train
       then Some (AugmentationList <$> arg_dataset_augs a) else None) /\
    (DATALOADER_USE_DIFF_BS_SIZE cfg && is_train = false ->
     arg_dataset_augs a = []).
Proof.
  unfold configurable_init. intros Hbase H.
  destruct (from_config cfg is_train) as [a|] eqn:Ea; simpl in H; [|done].
  exists a. split; [done|].
  assert (Ha : arg_is_train a = is_train /\
               arg_use_diff_bs_size a = DATALOADER_USE_DIFF_BS_SIZE cfg /\
               (DATALOADER_USE_DIFF_BS_SIZE cfg && is_train = false ->
                arg_dataset_augs a = [])).
  { unfold from_config in Ea. rewrite Hbase in Ea. simpl in Ea.
    destruct (DATALOADER_USE_DIFF_BS_SIZE cfg && is_train) eqn:Hb.
    - destruct (if String.eqb _ _ then _ else _); simpl in Ea; [|done].
      by injection Ea as <-.
    - simpl in Ea. by injection Ea as <-. }
  destruct Ha as (Htr & Hdiff & Hnil).
  unfold init in H.
  destruct (arg_use_tar_dataset a) eqn:Htar; [done|].
  destruct (DatasetMapper_init _ _); simpl in H; [|done].
  injection H as <-. simpl. rewrite Hdiff, Htr. split_and!; done.
Qed.

End FromConfigProperties.

(** * The call: further properties *)

Section CallProperties.
Context `{L : Detectron2Laws}.
Local Open Scope monad_scope.

Ltac not_in_keys :=
  let Hin := fresh "Hin" in
  unfold assembled_keys, proposal_keys; simpl; intros Hin;
  repeat (apply elem_of_cons in Hin as [Hin|Hin]; [done|]);
  by apply elem_of_nil in Hin.

(** The output record of a returning call, in terms of the working
    records of its phases. *)
Lemma call_ok_records (self : CustomDatasetMapper) d w r out w' :
  recs w !! d = Some r ->
  call self d w = (Ok out, w') ->
  exists r4 r6 rout p evs,
    working self w r r4 /\
    selected self r4 p /\
    (forall k, k ∉ assembled_keys -> r6 !! k = r4 !! k) /\
    recs w' !! out = Some rout /\
    log w' = log w ++ [EvAugment p] ++ evs /\
    applied_pipelines evs = [] /\
    (is_train self = false ->
     rout = delete "sem_seg_file_name" (delete "annotations" r6) /\
     evs = []) /\
    (is_train self = true ->
     exists r7 r8 tf shp a,
       built self tf shp r6 a r7 evs /\
       (forall k, k ≠ "annotations" -> k ≠ "instances" ->
                  r7 !! k = r6 !! k) /\
       attached self r7 r8 /\
       (forall k, k ≠ "pos_category_ids" -> k ≠ "ann_type" ->
                  r8 !! k = r7 !! k) /\
       backfilled self r8 rout /\
       (forall k, k ≠ "pos_category_ids" -> rout !! k = r8 !! k)).
Proof.
  intros Hr H.
  destruct (call_prefix self _ _ _ _ _ Hr H)
    as [[? _]|(copies & Hc & [(r' & evs & ? & _)|
                              (r4 & r6 & p & tf & img & Hw & Hsel & Hf6 & H')])];
    try done.
  clear H. pose proof (copied_world_here w r copies) as Hd.
  destruct (is_train self) eqn:Ht.
  - apply after_assemble_train in H'
      as (r7 & r8 & r9 & a7 & evs & -> & _ & _ & Hap & Hf7 & Hf8 & Hf9 & Hok);
      [|done|done].
    destruct (Hok _ eq_refl) as (-> & Hb & Hat & Hbf).
    exists r4, r6, r9, p, evs. split_and!; try done.
    + by apply recs_st.
    + intros _. by exists r7, r8, tf, (shape2 img), (anns (copied_world w r copies)).
  - rewrite after_assemble_inference in H' by done. mdone H'.
    exists r4, r6, (delete "sem_seg_file_name" (delete "annotations" r6)),
      p, []. split_and!; try done.
    by apply recs_st.
Qed.

(** The keys that the mapper or its collaborators write. *)
Definition mapper_keys : list string :=
  ["width"; "height"; "sem_seg_file_name"; "annotations"] ++ assembled_keys.

(** X6.  Every key of the input record that neither the mapper nor its
    collaborators write is carried over to the output record, with the
    deep copy of its value: in inference mode this includes
    [instances], [pos_category_ids] and [ann_type], and without
    [is_debug] it includes [dataset_source]. *)
Theorem other_keys_carried_over (self : CustomDatasetMapper)
    (d : loc) (w : world) (r : record) (out : loc) (w' : world) (k : string) :
  recs w !! d = Some r ->
  call self d w = (Ok out, w') ->
  k ∉ mapper_keys ->
  (is_debug self = true -> k ≠ "dataset_source") ->
  (is_train self = true ->
   k ∉ ["instances"; "pos_category_ids"; "ann_type"]) ->
  exists rout,
    recs w' !! out = Some rout /\
    rout !! k = copy_value w r <$> r !! k.
Proof.
  intros Hr H Hk Hds Htr.
  destruct (call_ok_records self _ _ _ _ _ Hr H)
    as (r4 & r6 & rout & p & evs & Hw & _ & Hf6 & Hout & _ & _ & Hinf & Htrain).
  exists rout. split; [done|].
  unfold mapper_keys, assembled_keys, proposal_keys in Hk. simpl in Hk.
  repeat (apply not_elem_of_cons in Hk as [? Hk]).
  assert (Hr4 : r4 !! k = copy_value w r <$> r !! k).
  { destruct (decide (k = "dataset_source")) as [->|Hne].
    - rewrite (working_source self w r r4 Hw).
      destruct (is_debug self); [by destruct Hds|done].
    - apply (working_lookup self w r r4 _ Hw).
      repeat (apply not_elem_of_cons; split; [done|]). apply not_elem_of_nil. }
  assert (Hr6 : r6 !! k = copy_value w r <$> r !! k).
  { rewrite Hf6; [done|]. unfold assembled_keys, proposal_keys. simpl.
    repeat (apply not_elem_of_cons; split; [done|]). apply not_elem_of_nil. }
  destruct (is_train self) eqn:Ht.
  - destruct (Htrain eq_refl)
      as (r7 & r8 & tf & shp & a & _ & Hf7 & _ & Hf8 & _ & Hf9).
    specialize (Htr eq_refl).
    repeat (apply not_elem_of_cons in Htr as [? Htr]).
    by rewrite Hf9, Hf8, Hf7.
  - destruct (Hinf eq_refl) as [-> _].
    by rewrite !lookup_delete_ne.
Qed.

(** X7.  In either mode the output record has neither [annotations]
    nor [sem_seg_file_name]. *)
Theorem sources_removed (self : CustomDatasetMapper)
    (d : loc) (w : world) (r : record) (out : loc) (w' : world) :
  recs w !! d = Some r ->
  call self d w = (Ok out, w') ->
  exists rout,
    recs w' !! out = Some rout /\
    rout !! "annotations" = None /\
    rout !! "sem_seg_file_name" = None.
Proof.
  intros Hr H.
  destruct (call_ok_records self _ _ _ _ _ Hr H)
    as (r4 & r6 & rout & p & evs & Hw & _ & Hf6 & Hout & _ & _ & Hinf & Htrain).
  exists rout. split; [done|].
  assert (H6 : r6 !! "sem_seg_file_name" = None).
  { rewrite Hf6 by not_in_keys. by eapply working_no_sem_seg. }
  destruct (is_train self) eqn:Ht.
  - destruct (Htrain eq_refl)
      as (r7 & r8 & tf & shp & a & (Hnone & Hsome) & Hf7 & _ & Hf8 & _ & Hf9).
    rewrite !Hf9, !Hf8 by done. split.
    + destruct (r6 !! "annotations") as [v|] eqn:Hv.
      * by destruct (Hsome v eq_refl) as [? _].
      * destruct (Hnone eq_refl) as [-> _]. done.
    + by rewrite Hf7.
  - destruct (Hinf eq_refl) as [-> _]. split.
    + rewrite lookup_delete_ne by done. apply lookup_delete_eq.
    + apply lookup_delete_eq.
Qed.

(** X8.  In training mode with [is_debug], a record that has neither
    [annotations] nor [instances], and no or an empty
    [pos_category_ids], is not mapped: line 172 looks up the missing
    [instances]. *)
Theorem debug_needs_instances (self : CustomDatasetMapper)
    (d : loc) (w : world) (r : record) (res : result loc) (w' : world) :
  is_train self = true ->
  is_debug self = true ->
  recs w !! d = Some r ->
  r !! "annotations" = None ->
  r !! "instances" = None ->
  no_pos_category_ids r ->
  call self d w = (res, w') ->
  is_ok res = false.
Proof.
  intros Ht Hdb Hr Hann Hinst Hno H.
  destruct res as [out|]; [|done]. exfalso.
  destruct (call_ok_records self _ _ _ _ _ Hr H)
    as (r4 & r6 & rout & p & evs & Hw & _ & Hf6 & Hout & _ & _ & _ & Htrain).
  destruct (Htrain Ht)
    as (r7 & r8 & tf & shp & a & (Hnone & _) & Hf7 & (Hoff & Hon) & Hf8
        & (_ & _ & Hfill) & _).
  assert (H6 : forall k, k ∉ assembled_keys ->
    k ∉ ["width"; "height"; "sem_seg_file_name"; "dataset_source"] ->
    r6 !! k = copy_value w r <$> r !! k).
  { intros k Hk1 Hk2. rewrite Hf6 by done.
    by apply (working_lookup self w r r4 _ Hw). }
  destruct (Hnone ltac:(rewrite H6, Hann by not_in_keys; done)) as [-> _].
  assert (Hno8 : no_pos_category_ids r8).
  { assert (Hno6 : no_pos_category_ids r6).
    { unfold no_pos_category_ids. rewrite H6 by not_in_keys.
      destruct Hno as [->| ->]; [by left|by right]. }
    destruct (with_ann_type self) eqn:Hwa.
    - destruct (Hon eq_refl) as (Hpos & _). right. rewrite Hpos.
      by destruct Hno6 as [->| ->].
    - by rewrite (Hoff eq_refl). }
  destruct (Hfill Hdb Hno8) as (inst & cs & Hi & _).
  rewrite Hf8, H6, Hinst in Hi by (done || not_in_keys). done.
Qed.

(** X9.  In training mode with [with_ann_type] and without [is_debug],
    a record that has no [dataset_source] is not mapped: line 168 looks
    the source up. *)
Theorem ann_type_needs_dataset_source (self : CustomDatasetMapper)
    (d : loc) (w : world) (r : record) (res : result loc) (w' : world) :
  is_train self = true ->
  with_ann_type self = true ->
  is_debug self = false ->
  recs w !! d = Some r ->
  r !! "dataset_source" = None ->
  call self d w = (res, w') ->
  is_ok res = false.
Proof.
  intros Ht Hwa Hdb Hr Hsrc H.
  destruct res as [out|]; [|done]. exfalso.
  destruct (call_ok_records self _ _ _ _ _ Hr H)
    as (r4 & r6 & rout & p & evs & Hw & _ & Hf6 & Hout & _ & _ & _ & Htrain).
  destruct (Htrain Ht)
    as (r7 & r8 & tf & shp & a & _ & Hf7 & (_ & Hon) & _).
  destruct (Hon Hwa) as (_ & src & t & Hs & _).
  rewrite Hf7, Hf6 in Hs by (done || not_in_keys).
  rewrite (working_source self w r r4 Hw), Hdb, Hsrc in Hs. done.
Qed.

(** X13.  In training mode a [pos_category_ids] of the input record
    that is a non-empty list of integers is the [pos_category_ids] of
    the output record, with or without [is_debug] and [with_ann_type]. *)
Theorem pos_category_ids_kept (self : CustomDatasetMapper)
    (d : loc) (w : world) (r : record) (out : loc) (w' : world)
    (c : Z) (ids : list Z) :
  is_train self = true ->
  recs w !! d = Some r ->
  r !! "pos_category_ids" = Some (VList (IInt <$> c :: ids)) ->
  call self d w = (Ok out, w') ->
  exists rout,
    recs w' !! out = Some rout /\
    rout !! "pos_category_ids" = Some (VList (IInt <$> c :: ids)).
Proof.
  intros Ht Hr Hpos H.
  destruct (call_ok_records self _ _ _ _ _ Hr H)
    as (r4 & r6 & rout & p & evs & Hw & _ & Hf6 & Hout & _ & _ & _ & Htrain).
  destruct (Htrain Ht)
    as (r7 & r8 & tf & shp & a & _ & Hf7 & (Hoff & Hon) & _
        & (_ & Hkeep & _) & _).
  exists rout. split; [done|].
  assert (H7 : r7 !! "pos_category_ids" = Some (VList (IInt <$> c :: ids))).
  { rewrite Hf7, Hf6 by (done || not_in_keys).
    rewrite (working_lookup self w r r4 _ Hw) by not_in_keys.
    rewrite Hpos. simpl. f_equal. apply (rename_value_ints _ (c :: ids)). }
  assert (H8 : r8 !! "pos_category_ids" = Some (VList (IInt <$> c :: ids))).
  { destruct (with_ann_type self) eqn:Hwa.
    - destruct (Hon eq_refl) as (Hp & _). by rewrite Hp, H7.
    - by rewrite (Hoff eq_refl). }
  rewrite Hkeep; [done|].
  intros [Hn|Hn]; rewrite H8 in Hn; done.
Qed.

(** X14.  In training mode a record without [annotations] gets no
    instance collection: no annotation is remapped, nothing is built,
    the pipeline application is the only collaborator event, and the
    [instances] key of the output record is the input record's, if it
    has one. *)
Theorem no_annotations_no_instances (self : CustomDatasetMapper)
    (d : loc) (w : world) (r : record) (out : loc) (w' : world) :
  is_train self = true ->
  recs w !! d = Some r ->
  r !! "annotations" = None ->
  call self d w = (Ok out, w') ->
  exists rout p,
    recs w' !! out = Some rout /\
    log w' = log w ++ [EvAugment p] /\
    rout !! "instances" = copy_value w r <$> r !! "instances".
Proof.
  intros Ht Hr Hann H.
  destruct (call_ok_records self _ _ _ _ _ Hr H)
    as (r4 & r6 & rout & p & evs & Hw & _ & Hf6 & Hout & Hlog & _ & _ & Htrain).
  destruct (Htrain Ht)
    as (r7 & r8 & tf & shp & a & (Hnone & _) & Hf7 & _ & Hf8 & _ & Hf9).
  assert (H6 : forall k, k ∉ assembled_keys ->
    k ∉ ["width"; "height"; "sem_seg_file_name"; "dataset_source"] ->
    r6 !! k = copy_value w r <$> r !! k).
  { intros k Hk1 Hk2. rewrite Hf6 by done.
    by apply (working_lookup self w r r4 _ Hw). }
  destruct (Hnone ltac:(rewrite H6, Hann by not_in_keys; done)) as [-> ->].
  exists rout, p. split_and!; [done|done|].
  rewrite Hf9, Hf8 by done. apply H6; not_in_keys.
Qed.

(** The annotation type of line 108 is looked up, and the lookup may
    raise; nothing is written. *)
Lemma not_full_labeled_st (self : CustomDatasetMapper) w0 d r a e :
  (d < length (recs w0))%nat ->
  not_full_labeled self d (st w0 d r a e) =
  (match r !! "dataset_source" with
   | Some src =>
       if with_ann_type self then
         match py_getitem (dataset_ann self) src with
         | Ok t => Ok (negb (String.eqb t "box"))
         | Err e => Err e
         end
       else Ok false
   | None => Ok false
   end, st w0 d r a e).
Proof.
  intros Hd. unfold not_full_labeled, bind.
  rewrite rec_contains_st by done.
  destruct (r !! "dataset_source") as [src|] eqn:Hs.
  - rewrite bool_decide_eq_true_2 by done.
    destruct (with_ann_type self); [|done].
    rewrite rec_getitem_st by done. rewrite Hs. unfold lift.
    by destruct (py_getitem (dataset_ann self) src).
  - rewrite bool_decide_eq_false_2; [done|]. by intros [? ?].
Qed.

Lemma augment_index_error (self : CustomDatasetMapper) w0 d r a e
    img sem augs src err :
  (d < length (recs w0))%nat ->
  use_diff_bs_size self && is_train self = true ->
  dataset_augs self = Some augs ->
  r !! "dataset_source" = Some src ->
  py_getitem augs src = Err err ->
  augment self d img sem (st w0 d r a e) = (Err err, st w0 d r a e).
Proof.
  intros Hd Hb Ha Hs Hp. unfold augment. rewrite Hb, Ha. unfold bind.
  rewrite rec_getitem_st by done. rewrite Hs. unfold lift. by rewrite Hp.
Qed.

Lemma py_getitem_copy {A} (l : list A) w (r : record) src :
  py_getitem l (copy_value w r src) = py_getitem l src.
Proof. by destruct src. Qed.

(** The dataset source of the working record: 0 with [is_debug], the
    input record's otherwise. *)
Definition record_source (self : CustomDatasetMapper) (r : record)
    (src : value) : Prop :=
  if is_debug self then src = VInt 0
  else r !! "dataset_source" = Some src.

Lemma working_record_source (self : CustomDatasetMapper) w r r4 src :
  working self w r r4 -> record_source self r src ->
  r4 !! "dataset_source" = Some (copy_value w r src).
Proof.
  intros Hw Hs. rewrite (working_source self w r r4 Hw).
  unfold record_source in Hs. destruct (is_debug self).
  - by subst src.
  - by rewrite Hs.
Qed.

(** The start of a call, up to the forcing of the debugging source:
    either the call has failed without a collaborator event, or the
    rest of the call runs on the working record. *)
Lemma call_start (self : CustomDatasetMapper) d w r res w' :
  recs w !! d = Some r ->
  call self d w = (res, w') ->
  (is_ok res = false /\ log w' = log w) \/
  exists copies r4 ori sem,
    working self w r r4 /\
    let w1 := copied_world w r copies in
    let d1 := length (recs w) in
    (d1 < length (recs w1))%nat /\
    (_ <- not_full_labeled self d1 ;;
     aug <- augment self d1 ori sem ;;
     assemble self d1 aug.1.1 aug.1.2 aug.2 ;;;
     after_assemble self d1 aug.1.1 (shape2 aug.1.2))
      (st w1 d1 r4 (anns w1) []) = (res, w').
Proof.
  intros Hr H. rewrite call_unfold in H.
  apply bind_inv in H as [(d1 & w1 & E & H)|(e0 & E & ->)];
    apply (deepcopy_inv _ _ r) in E as [(? & ? & _)|(copies & Hc & ? & ->)];
    try done; simplify_eq.
  2:{ by left. }
  pose proof (copied_world_here w r copies) as Hd.
  pose proof (copied_world_recs w r copies) as Hr1.
  rewrite <- (st_id _ _ _ Hr1) in H.
  apply bind_inv in H as [(ori & w2 & E & H)|(e0 & E & ->)];
    apply (load_image_st self _ _ Hd) in E as (r2 & -> & Hf2 & _).
  2:{ left. split; [done|]. simpl. by rewrite app_nil_r. }
  apply bind_inv in H as [(sem & w3 & E & H)|(e0 & E & ->)];
    apply (load_sem_seg_st _ _ Hd) in E as ->.
  2:{ left. split; [done|]. simpl. by rewrite app_nil_r. }
  apply bind_inv in H as [(u & w4 & E & H)|(e0 & E & ->)];
    rewrite (force_debug_source_st self _ _ Hd) in E; mdone E.
  right. eexists copies, _, ori, sem. split; [by exists r2|].
  split; [done|]. exact H.
Qed.

(** X10.  With [with_ann_type], in either mode, a record whose dataset
    source (0 with [is_debug]) is not a valid index of [dataset_ann] is
    not mapped, and no pipeline is applied to its image: line 108
    indexes the table although the value it computes is not used. *)
Theorem dataset_ann_index_checked (self : CustomDatasetMapper)
    (d : loc) (w : world) (r : record) (src : value) (err : exn)
    (res : result loc) (w' : world) :
  with_ann_type self = true ->
  recs w !! d = Some r ->
  record_source self r src ->
  py_getitem (dataset_ann self) src = Err err ->
  call self d w = (res, w') ->
  is_ok res = false /\ log w' = log w.
Proof.
  intros Hwa Hr Hsrc Herr H.
  destruct (call_start self _ _ _ _ _ Hr H)
    as [?|(copies & r4 & ori & sem & Hw & Hd & H')]; [done|].
  clear H. simpl in Hd.
  apply bind_inv in H' as [(b & w5 & E & H')|(e0 & E & ->)];
    rewrite not_full_labeled_st in E by done;
    rewrite (working_record_source self w r r4 src Hw Hsrc), Hwa in E;
    rewrite py_getitem_copy, Herr in E; mdone E.
  split; [done|]. simpl. by rewrite app_nil_r.
Qed.

(** X11.  With [use_diff_bs_size] in training mode, a record whose
    dataset source (0 with [is_debug]) is not a valid index of
    [dataset_augs] is not mapped, and no pipeline is applied to its
    image. *)
Theorem dataset_augs_index_checked (self : CustomDatasetMapper)
    (d : loc) (w : world) (r : record) (augs : list pipeline) (src : value)
    (err : exn) (res : result loc) (w' : world) :
  use_diff_bs_size self = true ->
  is_train self = true ->
  dataset_augs self = Some augs ->
  recs w !! d = Some r ->
  record_source self r src ->
  py_getitem augs src = Err err ->
  call self d w = (res, w') ->
  is_ok res = false /\ log w' = log w.
Proof.
  intros Hdiff Ht Haugs Hr Hsrc Herr H.
  destruct (call_start self _ _ _ _ _ Hr H)
    as [?|(copies & r4 & ori & sem & Hw & Hd & H')]; [done|].
  clear H. simpl in Hd.
  apply bind_inv in H' as [(b & w5 & E & H')|(e0 & E & ->)];
    rewrite not_full_labeled_st in E by done; mdone E.
  2:{ split; [done|]. simpl. by rewrite app_nil_r. }
  erewrite bind_eq_err in H'.
  2:{ apply (augment_index_error self _ _ r4 _ _ ori sem augs
               (copy_value w r src) err).
      - done.
      - by rewrite Hdiff, Ht.
      - done.
      - exact (working_record_source self w r r4 src Hw Hsrc).
      - by rewrite py_getitem_copy. }
  mdone H'. split; [done|]. simpl. by rewrite app_nil_r.
Qed.

(** What stripping removes from an annotation, and what it keeps. *)
Lemma strip_anno_fields (self : CustomDatasetMapper) (old : anno) :
  strip_anno self old !! "segmentation" =
    (if use_instance_mask self then old !! "segmentation" else None) /\
  strip_anno self old !! "keypoints" =
    (if use_keypoint self then old !! "keypoints" else None) /\
  (forall k, k ≠ "segmentation" -> k ≠ "keypoints" ->
             strip_anno self old !! k = old !! k).
Proof.
  unfold strip_anno.
  destruct (use_instance_mask self), (use_keypoint self); simpl;
    split_and!; try done;
    try (intros k Hs Hk);
    rewrite ?lookup_delete_eq, ?lookup_delete_ne by done;
    rewrite ?lookup_delete_eq, ?lookup_delete_ne by done; done.
Qed.

(** X12.  In training mode, for a record whose [annotations] is a list
    of distinct annotation dictionaries, the collaborator events of a
    returning call are, in order: the application of the pipeline, one
    call of [transform_instance_annotations] for each annotation of the
    list, in the order of the list, and one call of
    [annotations_to_instances].  The annotation handed over for an
    annotation of the record is that annotation without [segmentation]
    when the model uses no instance masks and without [keypoints] when
    it uses no keypoints, every other field being as the record has
    it. *)
Theorem unused_fields_stripped (self : CustomDatasetMapper)
    (d : loc) (w : world) (r : record) (las : list loc)
    (out : loc) (w' : world) :
  is_train self = true ->
  recs w !! d = Some r ->
  r !! "annotations" = Some (VList (IAnno <$> las)) ->
  NoDup las ->
  call self d w = (Ok out, w') ->
  exists p olds handed objs,
    Forall2 (fun la old => anns w !! la = Some old) las olds /\
    log w' = log w ++ [EvAugment p] ++ (EvRemap <$> handed)
               ++ [EvBuild objs] /\
    Forall2 (fun old h =>
               h !! "segmentation" =
                 (if use_instance_mask self then old !! "segmentation"
                  else None) /\
               h !! "keypoints" =
                 (if use_keypoint self then old !! "keypoints" else None) /\
               (forall k, k ≠ "segmentation" -> k ≠ "keypoints" ->
                          h !! k = old !! k))
            olds handed.
Proof.
  intros Ht Hr Hann Hnd H.
  destruct (call_prefix self _ _ _ _ _ Hr H)
    as [[? _]|(copies & Hc & [(r' & evs & ? & _)|
                              (r4 & r6 & p & tf & img & Hw & Hsel & Hf6 & H')])];
    try done.
  clear H. pose proof (copied_world_here w r copies) as Hd.
  apply after_assemble_train in H'
    as (r7 & r8 & r9 & a7 & evs & -> & _ & _ & _ & Hf7 & Hf8 & Hf9 & Hok);
    [|done|done].
  destruct (Hok _ eq_refl) as (-> & (_ & Hb) & _ & _).
  set (σ := memo (length (anns w)) (record_refs r)).
  assert (Hv : r6 !! "annotations" = Some (VList (IAnno <$> (σ <$> las)))).
  { rewrite (working_annotations self w r r4 r6 Hw Hf6).
    rewrite copy_record_lookup, Hann. simpl. f_equal.
    apply rename_value_annos. }
  destruct (Hb _ Hv) as (_ & objs & inst0 & inst1 & inst & _ & _ & _ & _ & Hl).
  destruct (Hl (σ <$> las) eq_refl) as (olds & news & Holds & _ & _ & ->).
  { by eapply copied_annotations_NoDup. }
  exists p, olds, (strip_anno self <$> olds), objs. split_and!.
  - by eapply copied_annotations.
  - done.
  - apply Forall2_fmap_r, Forall_Forall2_diag, Forall_forall.
    intros old _. apply strip_anno_fields.
Qed.

(** What a successful image load has read. *)
Lemma load_image_ok (self : CustomDatasetMapper) w0 d r a e ori w' :
  (d < length (recs w0))%nat ->
  load_image self d (st w0 d r a e) = (Ok ori, w') ->
  forall fn, r !! "file_name" = Some fn ->
             read_image fn (image_format self) = Ok ori.
Proof.
  intros Hd H fn Hfn. unfold load_image in H. mexec H.
  rewrite bool_decide_eq_true_2 in H by done. mexec H.
  rewrite Hfn in H. mexec H.
  destruct (read_image fn (image_format self)) as [img|]; mexec H;
    [|by mdone H].
  destruct (check_image_size r img); mexec H; by mdone H.
Qed.

Lemma load_sem_seg_ok w0 d r a e sem w' :
  (d < length (recs w0))%nat ->
  load_sem_seg d (st w0 d r a e) = (Ok sem, w') ->
  match r !! "sem_seg_file_name" with
  | Some fn =>
      exists raw sq,
        read_image fn "L" = Ok raw /\ squeeze2 raw = Ok sq /\ sem = Some sq
  | None => sem = None
  end.
Proof.
  intros Hd H. unfold load_sem_seg in H. mexec H.
  destruct (r !! "sem_seg_file_name") as [fn|] eqn:Hfn.
  - rewrite bool_decide_eq_true_2 in H by done. mexec H.
    rewrite Hfn in H. mexec H.
    destruct (read_image fn "L") as [raw|]; mexec H; [|by mdone H].
    destruct (squeeze2 raw) as [sq|] eqn:Hsq; mexec H; mdone H.
    by exists raw, sq.
  - rewrite bool_decide_eq_false_2 in H by (by intros [? ?]).
    mexec H. by mdone H.
Qed.

(** What a successful assembly has written. *)
Lemma assemble_ok (self : CustomDatasetMapper) w0 d r a e tf img sem u w' :
  (d < length (recs w0))%nat ->
  assemble self d tf img sem (st w0 d r a e) = (Ok u, w') ->
  exists r' t,
    w' = st w0 d r' a e /\
    image_to_tensor img = Ok t /\
    r' !! "image" = Some (VTensor t) /\
    match sem with
    | Some s =>
        exists t', sem_seg_to_tensor s = Ok t' /\
                   r' !! "sem_seg" = Some (VTensor t')
    | None => r' !! "sem_seg" = r !! "sem_seg"
    end.
Proof.
  intros Hd H. unfold assemble in H.
  destruct (image_to_tensor img) as [t|] eqn:Et; mexec H; [|by mdone H].
  assert (Hprop : forall r2,
    match proposal_topk self with
    | Some k =>
        (r3 <- rec_load d;;
         r' <- lift (transform_proposals r3 (shape2 img) tf k);;
         rec_store d r')%monad
    | None => ret tt
    end (st w0 d r2 a e) = (Ok u, w') ->
    exists r', w' = st w0 d r' a e /\
      r' !! "image" = r2 !! "image" /\ r' !! "sem_seg" = r2 !! "sem_seg").
  { intros r2 Hp. destruct (proposal_topk self) as [n|]; mexec Hp.
    2:{ mdone Hp. by exists r2. }
    destruct (transform_proposals r2 (shape2 img) tf n) as [r3|] eqn:Ep;
      mexec Hp; mdone Hp.
    exists r3. split; [done|].
    split; eapply transform_proposals_frame; try done; not_in_keys. }
  destruct sem as [s|]; mexec H.
  - destruct (sem_seg_to_tensor s) as [t'|] eqn:Es; mexec H; [|by mdone H].
    apply Hprop in H as (r' & -> & Hi & Hs).
    exists r', t. split_and!; try done.
    + rewrite Hi, lookup_insert_ne by done. by rewrite lookup_insert_eq.
    + exists t'. split; [done|]. rewrite Hs. by rewrite lookup_insert_eq.
  - apply Hprop in H as (r' & -> & Hi & Hs).
    exists r', t. split_and!; try done.
    + rewrite Hi. by rewrite lookup_insert_eq.
    + rewrite Hs. by rewrite lookup_insert_ne.
Qed.

(** X15.  The [image] of the output record is the tensor of the image
    that the applied pipeline returned for the image read from the
    record's [file_name]; the label map read from [sem_seg_file_name],
    if the record has one, goes through the same application of the
    pipeline, and the [sem_seg] of the output record is the tensor of
    what the pipeline returned for it. *)
Theorem output_image (self : CustomDatasetMapper)
    (d : loc) (w : world) (r : record) (out : loc) (w' : world) :
  recs w !! d = Some r ->
  call self d w = (Ok out, w') ->
  exists rout ori sem p tf img' sem' t,
    recs w' !! out = Some rout /\
    (forall fn, r !! "file_name" = Some fn ->
       read_image (copy_value w r fn) (image_format self) = Ok ori) /\
    match r !! "sem_seg_file_name" with
    | Some fn =>
        exists raw sq,
          read_image (copy_value w r fn) "L" = Ok raw /\
          squeeze2 raw = Ok sq /\ sem = Some sq
    | None => sem = None
    end /\
    applied_pipelines (drop (length (log w)) (log w')) = [p] /\
    apply_augmentations p ori sem = Ok (tf, img', sem') /\
    image_to_tensor img' = Ok t /\
    rout !! "image" = Some (VTensor t) /\
    (forall s, sem' = Some s ->
       exists t', sem_seg_to_tensor s = Ok t' /\
                  rout !! "sem_seg" = Some (VTensor t')).
Proof.
  intros Hr H. rewrite call_unfold in H.
  apply bind_ok_inv in H as (d1 & w1 & E & H).
  apply (deepcopy_inv _ _ r) in E as [(? & _)|(copies & Hc & [= ->] & ->)];
    [done| |done].
  pose proof (copied_world_here w r copies) as Hd.
  pose proof (copied_world_recs w r copies) as Hr1.
  rewrite <- (st_id _ _ _ Hr1) in H.
  set (w1 := copied_world w r copies) in *.
  set (d1 := length (recs w)) in *.
  (* the image *)
  apply bind_ok_inv in H as (ori & w2 & E & H).
  pose proof (load_image_ok self _ _ _ _ _ _ _ Hd E) as Hread.
  apply (load_image_st self _ _ Hd) in E as (r2 & -> & Hf2 & _).
  (* the label map *)
  apply bind_ok_inv in H as (sem & w3 & E & H).
  pose proof (load_sem_seg_ok _ _ _ _ _ _ _ Hd E) as Hsem.
  apply (load_sem_seg_st _ _ Hd) in E as ->.
  rewrite Hf2, copy_record_lookup in Hsem by done.
  (* the debugging source and the annotation type *)
  apply bind_ok_inv in H as (u & w4 & E & H).
  rewrite (force_debug_source_st self _ _ Hd) in E. mdone E.
  apply bind_ok_inv in H as (b & w5 & E & H).
  apply not_full_labeled_world in E as ->.
  (* the pipeline *)
  apply bind_ok_inv in H as (aug & w6 & E & H).
  apply (augment_st self _ _ Hd) in E as (evs & -> & _ & Hok & _).
  destruct (Hok eq_refl) as (p & -> & _ & Happ). simpl in H.
  (* the assembly *)
  apply bind_ok_inv in H as (u' & w7 & E & H).
  apply (assemble_ok self _ _ _ _ _ _ _ _ _ _ Hd) in E
    as (r6 & t & -> & Ht & Himg & Hss).
  destruct aug as [[tf img'] sem']. simpl in *.
  assert (Hfinal : exists rout (evs : list event),
    recs w' !! d1 = Some rout /\ out = d1 /\
    log w' = log w ++ [EvAugment p] ++ evs /\ applied_pipelines evs = [] /\
    rout !! "image" = r6 !! "image" /\ rout !! "sem_seg" = r6 !! "sem_seg").
  { destruct (is_train self) eqn:Htr.
    - apply after_assemble_train in H
        as (r7 & r8 & r9 & a7 & evs & -> & _ & _ & Hap & Hf7 & Hf8 & Hf9 & Hok');
        [|done|done].
      destruct (Hok' _ eq_refl) as (-> & _).
      exists r9, evs. split_and!; try done.
      + by apply recs_st.
      + by rewrite Hf9, Hf8, Hf7.
      + by rewrite Hf9, Hf8, Hf7.
    - rewrite after_assemble_inference in H by done. mdone H.
      exists (delete "sem_seg_file_name" (delete "annotations" r6)), [].
      split_and!; try done.
      + by apply recs_st.
      + by rewrite !lookup_delete_ne.
      + by rewrite !lookup_delete_ne. }
  destruct Hfinal as (rout & evs & Hout & -> & Hlog & Hap & Hi & Hs).
  exists rout, ori, sem, p, tf, img', sem', t. split_and!; try done.
  - intros fn Hfn. apply Hread. rewrite copy_record_lookup, Hfn. done.
  - destruct (r !! "sem_seg_file_name"); done.
  - rewrite Hlog, drop_app_length.
    by rewrite (applied_pipelines_app [EvAugment p] evs), Hap.
  - by rewrite Hi.
  - intros s ->. destruct Hss as (t' & Ht' & Hss).
    exists t'. split; [done|]. by rewrite Hs.
Qed.

End CallProperties.

(** * The properties on concrete records *)

Import Toy.

Lemma init_use_tar_dataset_witness :
  (init args_tar = Err (NotImplementedError "Using tar dataset not supported")
   /\ forall self, init args_tar ≠ Ok self) /\
  exists self, init args = Ok self /\ use_tar_dataset self = false.
Proof.
  split.
  - apply (proj1 (init_use_tar_dataset args_tar)). reflexivity.
  - destruct (proj2 (init_use_tar_dataset args) eq_refl) as [_ Hok].
    destruct (Hok _ eq_refl) as (self & Hself & _ & Htar).
    exists self. exact (conj Hself Htar).
Defined.

Lemma call_without_file_name_fails_witness :
  exists w',
    call (mapper_of args) 2%nat world0 = (Err (AttributeError "tar_dataset"), w')
    /\ log w' = log world0.
Proof.
  assert (Hinit : init args = Ok (mapper_of args)) by reflexivity.
  assert (Hfn : record2 !! "file_name" = None) by (vm_compute; reflexivity).
  destruct (call_without_file_name_fails args (mapper_of args) 2%nat world0
              record2 Hinit eq_refl Hfn) as (e & w' & E & Hlog & He).
  assert (He' : e = AttributeError "tar_dataset").
  { apply He.
    assert (Hrefs : record_refs record2 = []) by (vm_compute; reflexivity).
    rewrite Hrefs. constructor. }
  subst e. exists w'. exact (conj E Hlog).
Defined.

Lemma dataset_source_required_witness :
  exists w',
    call (mapper_of args_diff) 1%nat world0
    = (Err (KeyError "dataset_source"), w') /\
    log w' = log world0.
Proof.
  assert (Haugs : is_Some (dataset_augs (mapper_of args_diff))).
  { eexists. reflexivity. }
  assert (Hsrc : record1 !! "dataset_source" = None).
  { vm_compute. reflexivity. }
  destruct (dataset_source_required (mapper_of args_diff) 1%nat world0 record1
              eq_refl eq_refl eq_refl Haugs eq_refl Hsrc)
    as (e & w' & E & Hlog & He).
  assert (He' : e = KeyError "dataset_source").
  { apply (He 3%nat
      (deepcopy 1%nat world0).2
      (Z.of_nat (String.length "a.jpg"))
      (load_image (mapper_of args_diff) 3%nat (deepcopy 1%nat world0).2).2
      None
      (load_image (mapper_of args_diff) 3%nat (deepcopy 1%nat world0).2).2);
      vm_compute; reflexivity. }
  subst e. exists w'. exact (conj E Hlog).
Defined.

(** With [is_debug] the same record is mapped: the source is forced to
    0 and the first pipeline is applied. *)
Example dataset_source_debug :
  is_ok (call (mapper_of args_debug) 1%nat world0).1 = true /\
  applied_pipelines (events (mapper_of args_debug) 1%nat world0) = [[1]] /\
  output_key (mapper_of args_debug) 1%nat world0 "dataset_source"
  = Some (VInt 0).
Proof. vm_compute. repeat split; reflexivity. Qed.

Lemma inference_output_witness :
  exists out w',
    call (mapper_of args_eval) 0%nat world0 = (Ok out, w') /\
    exists rout p,
      recs w' !! out = Some rout /\
      rout !! "annotations" = None /\
      rout !! "sem_seg_file_name" = None /\
      rout !! "instances" = None /\
      log w' = log world0 ++ [EvAugment p] /\
      annotation_events [EvAugment p] = [].
Proof.
  assert (Hok : is_ok (call (mapper_of args_eval) 0%nat world0).1 = true).
  { vm_compute. reflexivity. }
  destruct (call (mapper_of args_eval) 0%nat world0) as [[out|e] w'] eqn:E;
    [|discriminate Hok].
  clear Hok. exists out, w'. split; [reflexivity|].
  destruct (inference_output (mapper_of args_eval) 0%nat world0 record0 out w'
              eq_refl eq_refl E)
    as (rout & p & Hout & Ha & Hs & Hi & Hlog & Hev).
  assert (Hn : record0 !! "instances" = None) by (vm_compute; reflexivity).
  exists rout, p.
  exact (conj Hout (conj Ha (conj Hs (conj (Hi Hn) (conj Hlog Hev))))).
Defined.

Lemma pipeline_selection_witness :
  exists out w',
    call (mapper_of args_diff) 0%nat world0 = (Ok out, w') /\
    exists evs rout,
      log w' = log world0 ++ evs /\
      recs w' !! out = Some rout /\
      rout !! "dataset_source" = Some (VInt 1) /\
      applied_pipelines evs = [[2; 3]].
Proof.
  assert (Hok : is_ok (call (mapper_of args_diff) 0%nat world0).1 = true).
  { vm_compute. reflexivity. }
  destruct (call (mapper_of args_diff) 0%nat world0) as [[out|e] w'] eqn:E;
    [|discriminate Hok].
  clear Hok. exists out, w'. split; [reflexivity|].
  destruct (pipeline_selection (mapper_of args_diff) 0%nat world0 record0
              (Ok out) w' eq_refl E) as (evs & Hlog & _ & Hdiff).
  destruct (Hdiff eq_refl out eq_refl)
    as (rout & augs & src & p & Hout & Haugs & Hsrc & Hp & Hevs & Hin).
  exists evs, rout. specialize (Hin eq_refl).
  assert (Some (VInt 1) = Some src) as [= <-].
  { rewrite <- Hin. vm_compute. reflexivity. }
  assert (Some [[1]; [2; 3]] = Some augs) as [= <-].
  { rewrite <- Haugs. vm_compute. reflexivity. }
  assert (Ok [2; 3] = Ok p) as [= <-].
  { rewrite <- Hp. vm_compute. reflexivity. }
  exact (conj Hlog (conj Hout (conj Hsrc Hevs))).
Defined.

(** Without [use_diff_bs_size] the shared pipeline is applied to the
    same record. *)
Example shared_pipeline :
  applied_pipelines (events (mapper_of args) 0%nat world0) = [[1]] /\
  applied_pipelines (events (mapper_of args_diff) 0%nat world0) = [[2; 3]].
Proof. vm_compute. repeat split; reflexivity. Qed.

Lemma input_record_unchanged_witness :
  exists out w',
    call (mapper_of args) 0%nat world0 = (Ok out, w') /\
    (forall l, (l < length (recs world0))%nat ->
               recs w' !! l = recs world0 !! l) /\
    (forall l, (l < length (anns world0))%nat ->
               anns w' !! l = anns world0 !! l) /\
    recs world0 !! out = None /\ is_Some (recs w' !! out).
Proof.
  assert (Hok : is_ok (call (mapper_of args) 0%nat world0).1 = true).
  { vm_compute. reflexivity. }
  destruct (call (mapper_of args) 0%nat world0) as [[out|e] w'] eqn:E;
    [|discriminate Hok].
  clear Hok. exists out, w'. split; [reflexivity|].
  destruct (input_record_unchanged (mapper_of args) 0%nat world0 (Ok out) w' E)
    as (Hrecs & Hanns & Hout).
  destruct (Hout out eq_refl) as [Hnew Hthere].
  exact (conj Hrecs (conj Hanns (conj Hnew Hthere))).
Defined.

(** The call remaps the copies of the two annotations, not the
    annotations themselves. *)
Example annotations_remapped_in_copy :
  (anns (call (mapper_of args) 0%nat world0).2 !! 0%nat
     ≫= fun a => a !! "bbox_mode") = None /\
  (anns (call (mapper_of args) 0%nat world0).2 !! 2%nat
     ≫= fun a => a !! "bbox_mode") = Some (FInt 0).
Proof. vm_compute. repeat split; reflexivity. Qed.

Lemma debug_labels_witness :
  exists out w',
    call (mapper_of args_debug) 1%nat world0 = (Ok out, w') /\
    exists rout inst cs,
      recs w' !! out = Some rout /\
      rout !! "dataset_source" = Some (VInt 0) /\
      rout !! "instances" = Some (VInstances inst) /\
      gt_classes inst = Some cs /\
      rout !! "pos_category_ids" = Some (VList (IInt <$> sorted_set cs)).
Proof.
  assert (Hok : is_ok (call (mapper_of args_debug) 1%nat world0).1 = true).
  { vm_compute. reflexivity. }
  destruct (call (mapper_of args_debug) 1%nat world0) as [[out|e] w'] eqn:E;
    [|discriminate Hok].
  clear Hok. exists out, w'. split; [reflexivity|].
  destruct (debug_labels (mapper_of args_debug) 1%nat world0 record1 out w'
              eq_refl eq_refl E) as (rout & Hout & Hsrc & Hfill).
  assert (Hno : no_pos_category_ids record1).
  { left. vm_compute. reflexivity. }
  destruct (Hfill eq_refl Hno) as (inst & cs & Hinst & Hcs & Hpos & _).
  exists rout, inst, cs.
  exact (conj Hout (conj Hsrc (conj Hinst (conj Hcs Hpos)))).
Defined.

(** A record without [dataset_source] and without [pos_category_ids],
    whose one instance left has class 7. *)
Example debug_labels_class_7 :
  output_key (mapper_of args_debug) 1%nat world0 "pos_category_ids"
  = Some (VList [IInt 7]) /\
  output_key (mapper_of args_debug) 1%nat world0 "dataset_source"
  = Some (VInt 0).
Proof. vm_compute. repeat split; reflexivity. Qed.

Lemma recomputed_boxes_witness :
  exists out w',
    call (mapper_of args_recompute) 0%nat world0 = (Ok out, w') /\
    exists rout inst bs ms,
      recs w' !! out = Some rout /\
      rout !! "instances" = Some (VInstances inst) /\
      gt_boxes inst = Some bs /\
      gt_masks inst = Some ms /\
      Forall2 (fun b m => b = bounding_box m) bs ms.
Proof.
  assert (Hok : is_ok (call (mapper_of args_recompute) 0%nat world0).1 = true).
  { vm_compute. reflexivity. }
  destruct (call (mapper_of args_recompute) 0%nat world0) as [[out|e] w'] eqn:E;
    [|discriminate Hok].
  clear Hok. exists out, w'. split; [reflexivity|].
  assert (Hann : is_Some (record0 !! "annotations")).
  { eexists. vm_compute. reflexivity. }
  exact (recomputed_boxes (mapper_of args_recompute) 0%nat world0 record0
           out w' eq_refl eq_refl eq_refl Hann E).
Defined.

(** The box (3, 4) of the first annotation is replaced by the box of
    its mask. *)
Example recomputed_box_of_mask :
  output_key (mapper_of args_recompute) 0%nat world0 "instances"
  = Some (VInstances
            (mkInstances (6, 6) (Some [(2, 2)]) (Some [7]) (Some [(2, 2)])
                         None)).
Proof. vm_compute. reflexivity. Qed.

Lemma crowd_annotations_dropped_witness :
  exists out w',
    call (mapper_of args) 0%nat world3 = (Ok out, w') /\
    exists rout p tf shp olds news inst0 inst1 inst,
      let kept :=
        (filter (fun on : anno * anno => iscrowd_zero_or_absent on.1)
                (zip olds news)).*2 in
      recs w' !! out = Some rout /\
      Forall2 (fun la old => anns world3 !! la = Some old)
              [0%nat; 1%nat; 2%nat] olds /\
      Forall2 (fun old new =>
                 transform_instance_annotations
                   (strip_anno (mapper_of args) old) tf shp
                   (keypoint_hflip_indices (mapper_of args))
                 = Ok new) olds news /\
      log w' = log world3 ++ [EvAugment p]
                 ++ (EvRemap <$> (strip_anno (mapper_of args) <$> olds))
                 ++ [EvBuild kept] /\
      (forall i old new,
         olds !! i = Some old -> news !! i = Some new ->
         iscrowd_zero_or_absent old -> new ∈ kept) /\
      (forall i old new,
         olds !! i = Some old -> news !! i = Some new ->
         old !! "iscrowd" = Some (FInt 1) -> new ∉ kept) /\
      Forall (fun a => a !! "iscrowd" ≠ Some (FInt 1)) kept /\
      annotations_to_instances
        kept shp (instance_mask_format (mapper_of args)) = Ok inst0 /\
      recompute_gt_boxes (mapper_of args) inst0 = Ok inst1 /\
      filter_empty_instances inst1 = Ok inst /\
      rout !! "instances" = Some (VInstances inst) /\
      rout !! "annotations" = None.
Proof.
  assert (Hok : is_ok (call (mapper_of args) 0%nat world3).1 = true).
  { vm_compute. reflexivity. }
  destruct (call (mapper_of args) 0%nat world3) as [[out|e] w'] eqn:E;
    [|discriminate Hok].
  clear Hok. exists out, w'. split; [reflexivity|].
  assert (Hann : record7 !! "annotations"
                 = Some (VList (IAnno <$> [0%nat; 1%nat; 2%nat]))).
  { vm_compute. reflexivity. }
  assert (Hnd : NoDup [0%nat; 1%nat; 2%nat]).
  { repeat (apply NoDup_cons; split;
            [intros Hin;
             repeat (apply elem_of_cons in Hin as [Hin|Hin];
                     [discriminate Hin|]);
             apply elem_of_nil in Hin; exact Hin|]).
    apply NoDup_nil_2. }
  exact (crowd_annotations_dropped (mapper_of args) 0%nat world3 record7
           [0%nat; 1%nat; 2%nat] out w' eq_refl eq_refl Hann Hnd E).
Defined.

(** Of the three annotations, all are remapped; the one with [iscrowd]
    0 and the one without the field make the collection, of classes 7
    and 11, and the crowd is left out. *)
Example crowd_annotation_left_out :
  output_key (mapper_of args) 0%nat world3 "instances"
  = Some (VInstances
            (mkInstances (6, 6) (Some [(3, 4); (7, 8)]) (Some [7; 11])
                         (Some [(2, 2); (3, 3)]) None)) /\
  length (annotation_events (events (mapper_of args) 0%nat world3)) = 4%nat.
Proof. vm_compute. repeat split; reflexivity. Qed.

Lemma ann_type_attached_witness :
  exists out w',
    call (mapper_of args_diff) 0%nat world0 = (Ok out, w') /\
    exists rout t,
      recs w' !! out = Some rout /\
      rout !! "pos_category_ids" = Some (VList []) /\
      py_getitem (dataset_ann (mapper_of args_diff)) (VInt 1) = Ok t /\
      rout !! "ann_type" = Some (VStr t) /\
      (forall ann' out2 w2,
         call (with_dataset_ann (mapper_of args_diff) ann') 0%nat world0
         = (Ok out2, w2) ->
         instances_at w2 out2 = rout !! "instances").
Proof.
  assert (Hok : is_ok (call (mapper_of args_diff) 0%nat world0).1 = true).
  { vm_compute. reflexivity. }
  destruct (call (mapper_of args_diff) 0%nat world0) as [[out|e] w'] eqn:E;
    [|discriminate Hok].
  clear Hok. exists out, w'. split; [reflexivity|].
  destruct (ann_type_attached (mapper_of args_diff) 0%nat world0 record0 out w'
              eq_refl E) as (rout & Hout & Hatt & Hind).
  assert (Hsrc : record0 !! "dataset_source" = Some (VInt 1)).
  { vm_compute. reflexivity. }
  assert (Hno : record0 !! "pos_category_ids" = None).
  { vm_compute. reflexivity. }
  destruct (Hatt eq_refl eq_refl eq_refl (VInt 1) Hsrc)
    as (_ & _ & Hnone & t & Ht & Hty).
  exists rout, t.
  exact (conj Hout (conj (Hnone Hno) (conj Ht (conj Hty Hind)))).
Defined.

(** A record of the second source, whose declared type is ['image']. *)
Example ann_type_of_second_source :
  output_key (mapper_of args_diff) 0%nat world0 "ann_type"
  = Some (VStr "image") /\
  output_key (mapper_of args_diff) 0%nat world0 "pos_category_ids"
  = Some (VList []).
Proof. vm_compute. repeat split; reflexivity. Qed.

(** With [is_debug], the same record gets the type of source 0 and the
    labels of its instances: the claim without the proviso on [is_debug]
    fails. *)
Lemma ann_type_debug_counterexample :
  ~ (forall out w' rout,
       is_train (mapper_of args_debug) = true ->
       with_ann_type (mapper_of args_debug) = true ->
       record0 !! "dataset_source" = Some (VInt 1) ->
       call (mapper_of args_debug) 0%nat world0 = (Ok out, w') ->
       recs w' !! out = Some rout ->
       rout !! "pos_category_ids" =
         Some (default (VList []) (record0 !! "pos_category_ids")) /\
       exists t,
         py_getitem (dataset_ann (mapper_of args_debug)) (VInt 1) = Ok t /\
         rout !! "ann_type" = Some (VStr t)).
Proof.
  assert (Hpos : output_key (mapper_of args_debug) 0%nat world0
                   "pos_category_ids" = Some (VList [IInt 7])).
  { vm_compute. reflexivity. }
  assert (Hsrc : record0 !! "dataset_source" = Some (VInt 1)).
  { vm_compute. reflexivity. }
  assert (Hno : record0 !! "pos_category_ids" = None).
  { vm_compute. reflexivity. }
  unfold output_key, output in Hpos.
  destruct (call (mapper_of args_debug) 0%nat world0) as [[out|e] w'] eqn:E;
    [|discriminate Hpos].
  destruct (recs w' !! out) as [rout|] eqn:Hout; [|discriminate Hpos].
  intros Hclaim.
  destruct (Hclaim out w' rout eq_refl eq_refl Hsrc eq_refl Hout)
    as [Hpos' _].
  rewrite Hno in Hpos'. simpl in Hpos, Hpos'.
  rewrite Hpos in Hpos'. discriminate Hpos'.
Qed.

(** * The further properties on concrete configurations and records *)

Lemma from_config_dataset_augs_witness :
  exists a,
    from_config cfg_crop true = Ok a /\
    length (arg_dataset_augs a) = 2%nat.
Proof.
  assert (Hok : is_ok (from_config cfg_crop true) = true) by reflexivity.
  destruct (from_config cfg_crop true) as [a|] eqn:E; [|discriminate Hok].
  exists a. split; [reflexivity|].
  destruct (from_config_dataset_augs cfg_crop true a eq_refl E)
    as [(_ & _ & Hlen)|(Hname & _)].
  - exact Hlen.
  - discriminate Hname.
Defined.

Lemma from_config_shared_witness :
  exists a,
    from_config cfg_tar true = Ok a /\
    arg_dataset_augs a = [] /\
    arg_use_tar_dataset a = true.
Proof.
  assert (Hbase : DatasetMapper_from_config cfg_tar true = Ok (true, kw)).
  { reflexivity. }
  destruct (from_config_shared cfg_tar true (true, kw) eq_refl Hbase)
    as (a & Ha & Haugs & _ & _ & _ & _ & _ & _ & Htar).
  exists a. exact (conj Ha (conj Haugs Htar)).
Defined.

Lemma from_config_unknown_custom_aug_witness :
  from_config cfg_other true = Err AssertionError.
Proof.
  assert (Hn1 : INPUT_CUSTOM_AUG cfg_other ≠ "EfficientDetResizeCrop").
  { intros Heq. discriminate Heq. }
  assert (Hn2 : INPUT_CUSTOM_AUG cfg_other ≠ "ResizeShortestEdge").
  { intros Heq. discriminate Heq. }
  assert (Hbase : DatasetMapper_from_config cfg_other true = Ok (true, kw)).
  { reflexivity. }
  exact (proj2 (from_config_unknown_custom_aug cfg_other true eq_refl Hn1 Hn2)
           (true, kw) Hbase).
Defined.

Lemma configurable_init_tar_witness :
  configurable_init cfg_tar true
  = Err (NotImplementedError "Using tar dataset not supported").
Proof.
  assert (Ha : exists a, from_config cfg_tar true = Ok a).
  { eexists. reflexivity. }
  destruct Ha as [a Ha].
  exact (proj2 (configurable_init_tar cfg_tar true eq_refl) a Ha).
Defined.

Lemma configurable_init_dataset_augs_witness :
  exists self augs,
    configurable_init cfg_crop true = Ok self /\
    dataset_augs self = Some augs /\
    length augs = 2%nat.
Proof.
  assert (Hok : is_ok (configurable_init cfg_crop true) = true) by reflexivity.
  destruct (configurable_init cfg_crop true) as [self|] eqn:E;
    [|discriminate Hok].
  assert (Hbase : DatasetMapper_from_config cfg_crop true = Ok (true, kw)).
  { reflexivity. }
  destruct (configurable_init_dataset_augs cfg_crop true kw self Hbase E)
    as (a & Ha & _ & _ & _ & Haugs & _).
  assert (Hlen : length (arg_dataset_augs a) = 2%nat).
  { cbv in Ha. injection Ha as <-. reflexivity. }
  exists self, (AugmentationList <$> arg_dataset_augs a).
  split; [reflexivity|]. split; [exact Haugs|].
  rewrite length_fmap. exact Hlen.
Defined.

Lemma other_keys_carried_over_witness :
  exists out w' rout,
    call (mapper_of args) 0%nat world0 = (Ok out, w') /\
    recs w' !! out = Some rout /\
    rout !! "file_name" = Some (VStr "a.jpg").
Proof.
  assert (Hok : is_ok (call (mapper_of args) 0%nat world0).1 = true).
  { vm_compute. reflexivity. }
  destruct (call (mapper_of args) 0%nat world0) as [[out|e] w'] eqn:E;
    [|discriminate Hok].
  assert (Hk : "file_name" ∉ mapper_keys).
  { unfold mapper_keys, assembled_keys, proposal_keys. simpl.
    repeat (apply not_elem_of_cons; split; [discriminate|]).
    apply not_elem_of_nil. }
  assert (Htr : "file_name" ∉ ["instances"; "pos_category_ids"; "ann_type"]).
  { repeat (apply not_elem_of_cons; split; [discriminate|]).
    apply not_elem_of_nil. }
  destruct (other_keys_carried_over (mapper_of args) 0%nat world0 record0
              out w' "file_name" eq_refl E Hk
              (fun _ => ltac:(discriminate)) (fun _ => Htr))
    as (rout & Hout & Hkey).
  exists out, w', rout. split; [reflexivity|]. split; [exact Hout|].
  rewrite Hkey. vm_compute. reflexivity.
Defined.

Lemma sources_removed_witness :
  exists out w' rout,
    call (mapper_of args) 0%nat world0 = (Ok out, w') /\
    recs w' !! out = Some rout /\
    rout !! "annotations" = None /\
    rout !! "sem_seg_file_name" = None.
Proof.
  assert (Hok : is_ok (call (mapper_of args) 0%nat world0).1 = true).
  { vm_compute. reflexivity. }
  destruct (call (mapper_of args) 0%nat world0) as [[out|e] w'] eqn:E;
    [|discriminate Hok].
  destruct (sources_removed (mapper_of args) 0%nat world0 record0 out w'
              eq_refl E) as (rout & Hout & Ha & Hs).
  exists out, w', rout. split; [reflexivity|].
  exact (conj Hout (conj Ha Hs)).
Defined.

Lemma debug_needs_instances_witness :
  is_ok (call (mapper_of args_debug) 0%nat world2).1 = false.
Proof.
  assert (Ha : record4 !! "annotations" = None) by (vm_compute; reflexivity).
  assert (Hi : record4 !! "instances" = None) by (vm_compute; reflexivity).
  assert (Hno : no_pos_category_ids record4).
  { left. vm_compute. reflexivity. }
  destruct (call (mapper_of args_debug) 0%nat world2) as [res w'] eqn:E.
  exact (debug_needs_instances (mapper_of args_debug) 0%nat world2 record4
           res w' eq_refl eq_refl eq_refl Ha Hi Hno E).
Defined.

Lemma ann_type_needs_dataset_source_witness :
  is_ok (call (mapper_of args_ann) 0%nat world2).1 = false /\
  is_ok (call (mapper_of args_ann_eval) 0%nat world2).1 = true.
Proof.
  split.
  - assert (Hs : record4 !! "dataset_source" = None).
    { vm_compute. reflexivity. }
    destruct (call (mapper_of args_ann) 0%nat world2) as [res w'] eqn:E.
    exact (ann_type_needs_dataset_source (mapper_of args_ann) 0%nat world2
             record4 res w' eq_refl eq_refl eq_refl eq_refl Hs E).
  - vm_compute. reflexivity.
Defined.

Lemma dataset_ann_index_checked_witness :
  exists res w',
    call (mapper_of args_ann_eval) 1%nat world2 = (res, w') /\
    is_ok res = false /\ log w' = log world2.
Proof.
  assert (Hs : record_source (mapper_of args_ann_eval) record5 (VInt 5)).
  { unfold record_source. simpl. vm_compute. reflexivity. }
  destruct (call (mapper_of args_ann_eval) 1%nat world2) as [res w'] eqn:E.
  exists res, w'. split; [reflexivity|].
  exact (dataset_ann_index_checked (mapper_of args_ann_eval) 1%nat world2
           record5 (VInt 5) IndexError res w' eq_refl eq_refl Hs eq_refl E).
Defined.

Lemma dataset_augs_index_checked_witness :
  exists res w',
    call (mapper_of args_diff_plain) 1%nat world2 = (res, w') /\
    is_ok res = false /\ log w' = log world2.
Proof.
  assert (Hs : record_source (mapper_of args_diff_plain) record5 (VInt 5)).
  { unfold record_source. simpl. vm_compute. reflexivity. }
  destruct (call (mapper_of args_diff_plain) 1%nat world2) as [res w'] eqn:E.
  exists res, w'. split; [reflexivity|].
  exact (dataset_augs_index_checked (mapper_of args_diff_plain) 1%nat world2
           record5 [[1]; [2; 3]] (VInt 5) IndexError res w'
           eq_refl eq_refl eq_refl eq_refl Hs eq_refl E).
Defined.

Lemma unused_fields_stripped_witness :
  exists out w' p olds handed objs,
    call (mapper_of args) 0%nat world0 = (Ok out, w') /\
    Forall2 (fun la old => anns world0 !! la = Some old)
            [0%nat; 1%nat] olds /\
    log w' = log world0 ++ [EvAugment p] ++ (EvRemap <$> handed)
               ++ [EvBuild objs] /\
    Forall2 (fun old h =>
               h !! "segmentation" =
                 (if use_instance_mask (mapper_of args)
                  then old !! "segmentation" else None) /\
               h !! "keypoints" =
                 (if use_keypoint (mapper_of args)
                  then old !! "keypoints" else None) /\
               (forall k, k ≠ "segmentation" -> k ≠ "keypoints" ->
                          h !! k = old !! k))
            olds handed.
Proof.
  assert (Hok : is_ok (call (mapper_of args) 0%nat world0).1 = true).
  { vm_compute. reflexivity. }
  destruct (call (mapper_of args) 0%nat world0) as [[out|e] w'] eqn:E;
    [|discriminate Hok].
  assert (Hann : record0 !! "annotations"
                 = Some (VList (IAnno <$> [0%nat; 1%nat]))).
  { vm_compute. reflexivity. }
  assert (Hnd : NoDup [0%nat; 1%nat]).
  { apply NoDup_cons. split; [|apply NoDup_singleton].
    intros Hin. apply list_elem_of_singleton in Hin. discriminate Hin. }
  destruct (unused_fields_stripped (mapper_of args) 0%nat world0 record0
              [0%nat; 1%nat] out w' eq_refl eq_refl Hann Hnd E)
    as (p & olds & handed & objs & Holds & Hlog & Hstrip).
  exists out, w', p, olds, handed, objs. split; [reflexivity|].
  exact (conj Holds (conj Hlog Hstrip)).
Defined.

Lemma pos_category_ids_kept_witness :
  exists out w' rout,
    call (mapper_of args_debug) 2%nat world2 = (Ok out, w') /\
    recs w' !! out = Some rout /\
    rout !! "pos_category_ids" = Some (VList (IInt <$> [3; 1])).
Proof.
  assert (Hok : is_ok (call (mapper_of args_debug) 2%nat world2).1 = true).
  { vm_compute. reflexivity. }
  destruct (call (mapper_of args_debug) 2%nat world2) as [[out|e] w'] eqn:E;
    [|discriminate Hok].
  assert (Hpos : record6 !! "pos_category_ids"
                 = Some (VList (IInt <$> [3; 1]))).
  { vm_compute. reflexivity. }
  destruct (pos_category_ids_kept (mapper_of args_debug) 2%nat world2 record6
              out w' 3 [1] eq_refl eq_refl Hpos E) as (rout & Hout & Hkept).
  exists out, w', rout. split; [reflexivity|]. exact (conj Hout Hkept).
Defined.

Lemma no_annotations_no_instances_witness :
  exists out w' rout p,
    call (mapper_of args) 0%nat world2 = (Ok out, w') /\
    recs w' !! out = Some rout /\
    log w' = log world2 ++ [EvAugment p] /\
    rout !! "instances" = None.
Proof.
  assert (Hok : is_ok (call (mapper_of args) 0%nat world2).1 = true).
  { vm_compute. reflexivity. }
  destruct (call (mapper_of args) 0%nat world2) as [[out|e] w'] eqn:E;
    [|discriminate Hok].
  assert (Ha : record4 !! "annotations" = None) by (vm_compute; reflexivity).
  assert (Hi : record4 !! "instances" = None) by (vm_compute; reflexivity).
  destruct (no_annotations_no_instances (mapper_of args) 0%nat world2 record4
              out w' eq_refl eq_refl Ha E) as (rout & p & Hout & Hlog & Hinst).
  exists out, w', rout, p. split; [reflexivity|].
  split; [exact Hout|]. split; [exact Hlog|].
  rewrite Hinst, Hi. reflexivity.
Defined.

Lemma output_image_witness :
  exists out w' rout t,
    call (mapper_of args) 0%nat world0 = (Ok out, w') /\
    recs w' !! out = Some rout /\
    rout !! "image" = Some (VTensor t) /\
    is_Some (rout !! "sem_seg").
Proof.
  assert (Hok : is_ok (call (mapper_of args) 0%nat world0).1 = true).
  { vm_compute. reflexivity. }
  destruct (call (mapper_of args) 0%nat world0) as [[out|e] w'] eqn:E;
    [|discriminate Hok].
  destruct (output_image (mapper_of args) 0%nat world0 record0 out w'
              eq_refl E)
    as (rout & ori & sem & p & tf & img' & sem' & t & Hout & _ & Hsem & _
        & Happ & _ & Himg & Hss).
  exists out, w', rout, t. split; [reflexivity|].
  split; [exact Hout|]. split; [exact Himg|].
  assert (Hfn : record0 !! "sem_seg_file_name" = Some (VStr "a.png")).
  { vm_compute. reflexivity. }
  rewrite Hfn in Hsem. destruct Hsem as (raw & sq & _ & _ & ->).
  injection Happ as _ _ <-.
  destruct (Hss sq eq_refl) as (t' & _ & Ht'). exists (VTensor t'). exact Ht'.
Defined.
